(** * The BadgerDB buffer manager (src/BufMgr/src/buffer.cpp)

    A shallow embedding of [BufMgr]: the frame-descriptor table, the page
    buffer, the page-identity index and the clock replacement loop, together
    with the public operations [readPage], [unPinPage], [allocPage],
    [flushFile], [disposePage] and the destructor.

    C++ features are rendered as follows.
    - [std::uint32_t] values ([FrameId], [PageId], [numBufs], the clock hand
      and the local counter of [allocBuf]) are [N] with the wrap-around
      modulo [2^32] written where the code does arithmetic on them.
    - [pinCnt] is a C++ [int]: the code distinguishes [== 0] from [> 0] and
      does nothing in the remaining case, so it is a [Z].  The one place that
      can take it out of range is [pinCnt++] in [readPage]; the language
      leaves that overflow undefined, and the count is made to wrap around
      in two's complement, [2147483647 + 1 = -2147483648], as the compiled
      code does.
    - A [File*] is an [option] of a file identity; [NULL] is [None].
    - Exceptions, early returns and mutation are a state-and-exception monad.
      Undefined behaviour of the C++ (an array read out of range, a call
      through a null [File*], [% 0], the use of a frame number that was never
      assigned) is the outcome [Undefined].  The [for (;;)] loop of
      [allocBuf] takes fuel; running out of it is the outcome [OutOfFuel].
    - Reference parameters through which an operation hands results back
      ([PageId &pageNo], [Page *&page]) are two caller slots in the state, so
      that what was assigned before an exception stays visible. *)

From Stdlib Require Import ZArith NArith Lia.
From stdpp Require Import gmap list strings.

Set Default Proof Using "Type".
#[local] Set Warnings "-clear-no-such-hyp".
Local Open Scope N_scope.

(** ** Data model *)

Abbreviation File := N (only parsing).
Abbreviation FilePtr := (option N) (only parsing).
Abbreviation PageId := N (only parsing).
Abbreviation FrameId := N (only parsing).

(** [std::uint32_t] arithmetic. *)
Definition wrap32 (x : N) : N := x mod 2 ^ 32.

(** [int] arithmetic: the 32-bit two's complement value of [x]. *)
Definition INT_MAX : Z := 2147483647.

Definition wrap_int (x : Z) : Z := ((x + 2 ^ 31) mod 2 ^ 32 - 2 ^ 31)%Z.

(** Modelled from the spec: the [Page] value type of the [File] layer (its
    header is not part of buffer.cpp).  A page exposes [page_number] and is
    otherwise an opaque fixed-size value, here a number standing for its
    contents. *)
Record Page : Type := mkPage { page_number : PageId; page_data : N }.

(** Modelled from the spec: [Clear] forgets the [(file, pageNo)]
    association; the page number of a descriptor that holds no page, and of
    a default-constructed page, is represented by 0.  Nothing below depends
    on its value. *)
Definition INVALID_NUMBER : PageId := 0.

Definition Page_default : Page := mkPage INVALID_NUMBER 0.

(** Modelled from the spec: the frame descriptor [BufDesc] (declared in
    buffer.h, which is not part of buffer.cpp), with the fields of the data
    model. *)
Record BufDesc : Type := mkBufDesc {
  frameNo : FrameId;
  file : FilePtr;
  pageNo : PageId;
  pinCnt : Z;
  dirty : bool;
  valid : bool;
  refbit : bool
}.

(** Modelled from the spec: [BufDesc::Set(file, pageNo)] sets [file],
    [pageNo], [pinCnt = 1], [valid = true], [dirty = false],
    [refbit = true]. *)
Definition Set_ (f : FilePtr) (p : PageId) (d : BufDesc) : BufDesc :=
  {| frameNo := frameNo d; file := f; pageNo := p; pinCnt := 1;
     dirty := false; valid := true; refbit := true |}.

(** Modelled from the spec: [BufDesc::Clear()] sets [pinCnt = 0],
    [valid = false], [dirty = false], [refbit = false] and forgets the
    [(file, pageNo)] association. *)
Definition Clear (d : BufDesc) : BufDesc :=
  {| frameNo := frameNo d; file := None; pageNo := INVALID_NUMBER; pinCnt := 0;
     dirty := false; valid := false; refbit := false |}.

(** Modelled from the spec: a frame begins invalid, holding no page; the
    default constructor of [BufDesc] (in buffer.h) leaves it cleared. *)
Definition BufDesc_default : BufDesc :=
  Clear (mkBufDesc 0 None INVALID_NUMBER 0 false false false).

Definition set_refbit (b : bool) (d : BufDesc) : BufDesc :=
  {| frameNo := frameNo d; file := file d; pageNo := pageNo d;
     pinCnt := pinCnt d; dirty := dirty d; valid := valid d; refbit := b |}.

Definition set_dirty (b : bool) (d : BufDesc) : BufDesc :=
  {| frameNo := frameNo d; file := file d; pageNo := pageNo d;
     pinCnt := pinCnt d; dirty := b; valid := valid d; refbit := refbit d |}.

Definition set_pinCnt (n : Z) (d : BufDesc) : BufDesc :=
  {| frameNo := frameNo d; file := file d; pageNo := pageNo d;
     pinCnt := n; dirty := dirty d; valid := valid d; refbit := refbit d |}.

Definition set_valid (b : bool) (d : BufDesc) : BufDesc :=
  {| frameNo := frameNo d; file := file d; pageNo := pageNo d;
     pinCnt := pinCnt d; dirty := dirty d; valid := b; refbit := refbit d |}.

Definition set_frameNo (n : FrameId) (d : BufDesc) : BufDesc :=
  {| frameNo := n; file := file d; pageNo := pageNo d;
     pinCnt := pinCnt d; dirty := dirty d; valid := valid d; refbit := refbit d |}.

(** The errors the operations throw or catch. *)
Inductive Exn : Type :=
  | BufferExceededException
  | PageNotPinnedException (name : string) (p : PageId) (fr : FrameId)
  | PagePinnedException (name : string) (p : PageId) (fr : FrameId)
  | BadBufferException (fr : FrameId) (isDirty isValid hasRefbit : bool)
  | HashNotFoundException (f : FilePtr) (p : PageId)
  | HashAlreadyPresentException (f : FilePtr) (p : PageId) (fr : FrameId)
  | HashTableException.

(** Calls made on [File] objects, in the order they happen. *)
Inductive FileEvent : Type :=
  | EvReadPage (f : File) (p : PageId)
  | EvWritePage (f : File) (pg : Page)
  | EvAllocatePage (f : File) (p : PageId)
  | EvDeletePage (f : File) (p : PageId).

(** The [File] abstraction is an external collaborator: the manager only
    uses this interface, over some representation [Disk] of what is stored. *)
Class FileOps (Disk : Type) : Type := {
  file_readPage : File -> PageId -> Disk -> Page;
  file_writePage : File -> Page -> Disk -> Disk;
  file_allocatePage : File -> Disk -> Page * Disk;
  file_deletePage : File -> PageId -> Disk -> Disk;
  file_filename : File -> string
}.

Section Monad.

Context {Disk : Type}.

(** The manager's members, the disk behind the files, the calls made on
    files, what was printed on [std::cerr], and the caller's variables bound
    to the reference parameters [pageNo] and [page] (a page pointer
    [&bufPool[i]] is the frame number [i]). *)
Record State : Type := mkState {
  numBufs : N;
  bufDescTable : list BufDesc;
  bufPool : list Page;
  hashTable : gmap (option N * N) N;
  clockHand : FrameId;
  disk : Disk;
  trace : list FileEvent;
  cerr : list Exn;
  ref_pageNo : option PageId;
  ref_page : option FrameId
}.

Definition with_descs (l : list BufDesc) (s : State) : State :=
  mkState (numBufs s) l (bufPool s) (hashTable s) (clockHand s)
          (disk s) (trace s) (cerr s) (ref_pageNo s) (ref_page s).

Definition with_pool (l : list Page) (s : State) : State :=
  mkState (numBufs s) (bufDescTable s) l (hashTable s) (clockHand s)
          (disk s) (trace s) (cerr s) (ref_pageNo s) (ref_page s).

Definition with_hash (h : gmap (option N * N) N) (s : State) : State :=
  mkState (numBufs s) (bufDescTable s) (bufPool s) h (clockHand s)
          (disk s) (trace s) (cerr s) (ref_pageNo s) (ref_page s).

Definition with_hand (c : FrameId) (s : State) : State :=
  mkState (numBufs s) (bufDescTable s) (bufPool s) (hashTable s) c
          (disk s) (trace s) (cerr s) (ref_pageNo s) (ref_page s).

Definition with_disk (d : Disk) (ev : FileEvent) (s : State) : State :=
  mkState (numBufs s) (bufDescTable s) (bufPool s) (hashTable s) (clockHand s)
          d (trace s ++ [ev]) (cerr s) (ref_pageNo s) (ref_page s).

Definition with_cerr (e : Exn) (s : State) : State :=
  mkState (numBufs s) (bufDescTable s) (bufPool s) (hashTable s) (clockHand s)
          (disk s) (trace s) (cerr s ++ [e]) (ref_pageNo s) (ref_page s).

Definition with_ref_pageNo (p : PageId) (s : State) : State :=
  mkState (numBufs s) (bufDescTable s) (bufPool s) (hashTable s) (clockHand s)
          (disk s) (trace s) (cerr s) (Some p) (ref_page s).

Definition with_ref_page (fr : FrameId) (s : State) : State :=
  mkState (numBufs s) (bufDescTable s) (bufPool s) (hashTable s) (clockHand s)
          (disk s) (trace s) (cerr s) (ref_pageNo s) (Some fr).

(** ** The monad of the embedding *)

Inductive Outcome (A : Type) : Type :=
  | Ok (a : A) (s : State)
  | Throw (e : Exn) (s : State)
  | Undefined
  | OutOfFuel.

Arguments Ok {A} a s.
Arguments Throw {A} e s.
Arguments Undefined {A}.
Arguments OutOfFuel {A}.

Definition M (A : Type) : Type := State -> Outcome A.

Definition ret {A} (a : A) : M A := fun s => Ok a s.

Definition bind {A B} (m : M A) (k : A -> M B) : M B :=
  fun s => match m s with
           | Ok a s' => k a s'
           | Throw e s' => Throw e s'
           | Undefined => Undefined
           | OutOfFuel => OutOfFuel
           end.

Definition throw {A} (e : Exn) : M A := fun s => Throw e s.

Definition undefined {A} : M A := fun _ => Undefined.

(** [try m catch h]: the handler sees the state the throw left behind. *)
Definition try_catch {A} (m : M A) (h : Exn -> M A) : M A :=
  fun s => match m s with
           | Throw e s' => h e s'
           | o => o
           end.

Definition gets {A} (f : State -> A) : M A := fun s => Ok (f s) s.

Definition modify (f : State -> State) : M unit := fun s => Ok tt (f s).

(** [std::cerr << e.message() << std::endl]. *)
Definition print_cerr (e : Exn) : M unit := modify (with_cerr e).

(** The state an operation leaves behind, whether it returns or throws. *)
Definition final_state {A} (o : Outcome A) : option State :=
  match o with
  | Ok _ s | Throw _ s => Some s
  | Undefined | OutOfFuel => None
  end.

End Monad.

Arguments State Disk : clear implicits.
Arguments Outcome Disk A : clear implicits.
Arguments M Disk A : clear implicits.
Arguments Ok {Disk A} a s.
Arguments Throw {Disk A} e s.
Arguments Undefined {Disk A}.
Arguments OutOfFuel {Disk A}.
Arguments final_state {Disk A} o.

Notation "x <- m ;; k" := (bind m (fun x => k))
  (at level 100, m at next level, right associativity, only parsing).
Notation "m ;;; k" := (bind m (fun _ => k))
  (at level 100, k at level 200, right associativity, only parsing).

(** ** The operations of buffer.cpp *)

Section Manager.

Context {Disk : Type} `{FO : FileOps Disk}.

Abbreviation M' := (M Disk) (only parsing).

(** [bufDescTable[i]] and [bufPool[i]]: reading outside the arrays is
    undefined behaviour. *)
Definition descAt (i : FrameId) : M' BufDesc :=
  fun s => match bufDescTable s !! N.to_nat i with
           | Some d => Ok d s
           | None => Undefined
           end.

Definition modifyDesc (i : FrameId) (f : BufDesc -> BufDesc) : M' unit :=
  fun s => match bufDescTable s !! N.to_nat i with
           | Some d => Ok tt (with_descs (<[N.to_nat i := f d]> (bufDescTable s)) s)
           | None => Undefined
           end.

Definition poolAt (i : FrameId) : M' Page :=
  fun s => match bufPool s !! N.to_nat i with
           | Some pg => Ok pg s
           | None => Undefined
           end.

Definition setPool (i : FrameId) (pg : Page) : M' unit :=
  fun s => match bufPool s !! N.to_nat i with
           | Some _ => Ok tt (with_pool (<[N.to_nat i := pg]> (bufPool s)) s)
           | None => Undefined
           end.

(** Modelled from the spec: the page-identity index [BufHashTbl] (its source
    is not part of buffer.cpp).  [insert] fails with [AlreadyPresent] if the
    key exists, [lookup] tells whether the key is present and the frame if
    so, [remove] fails with [NotFound] if the key is absent.  Structural
    faults of the table (allocation failure) do not arise in the model, so
    [HashTableException] is caught where the code catches it but is never
    thrown. *)
Definition ht_insert (f : FilePtr) (p : PageId) (fr : FrameId) : M' unit :=
  fun s => match hashTable s !! (f, p) with
           | Some _ => Throw (HashAlreadyPresentException f p fr) s
           | None => Ok tt (with_hash (<[(f, p) := fr]> (hashTable s)) s)
           end.

(** Modelled from the spec: [lookup(file, pageNo)] returns whether the key
    is present and, if so, the frame; [None] is the answer [false], which
    leaves the reference parameter [frameNo] unassigned. *)
Definition ht_lookup (f : FilePtr) (p : PageId) : M' (option FrameId) :=
  gets (fun s => hashTable s !! (f, p)).

(** Modelled from the spec: [remove(file, pageNo)] deletes the mapping and
    fails with [NotFound] if it is absent. *)
Definition ht_remove (f : FilePtr) (p : PageId) : M' unit :=
  fun s => match hashTable s !! (f, p) with
           | Some _ => Ok tt (with_hash (delete (f, p) (hashTable s)) s)
           | None => Throw (HashNotFoundException f p) s
           end.

(** Calls through a [File*]; through [NULL] they are undefined. *)
Definition File_writePage (f : FilePtr) (pg : Page) : M' unit :=
  match f with
  | Some f => modify (fun s => with_disk (file_writePage f pg (disk s)) (EvWritePage f pg) s)
  | None => undefined
  end.

Definition File_readPage (f : File) (p : PageId) : M' Page :=
  fun s => Ok (file_readPage f p (disk s)) (with_disk (disk s) (EvReadPage f p) s).

Definition File_allocatePage (f : File) : M' Page :=
  fun s => let '(pg, d) := file_allocatePage f (disk s) in
           Ok pg (with_disk d (EvAllocatePage f (page_number pg)) s).

Definition File_deletePage (f : File) (p : PageId) : M' unit :=
  modify (fun s => with_disk (file_deletePage f p (disk s)) (EvDeletePage f p) s).

(** [BufMgr::BufMgr(bufs)]: every descriptor gets its own frame number and
    [valid = false], the hand starts at [bufs - 1]. *)
Definition BufMgr_new (bufs : N) (d : Disk) : State Disk :=
  {| numBufs := bufs;
     bufDescTable :=
       (fun i => set_valid false (set_frameNo (N.of_nat i) BufDesc_default))
         <$> seq 0 (N.to_nat bufs);
     bufPool := replicate (N.to_nat bufs) Page_default;
     hashTable := ∅;
     clockHand := wrap32 (bufs + 2 ^ 32 - 1);
     disk := d; trace := []; cerr := [];
     ref_pageNo := None; ref_page := None |}.

(** [BufMgr::advanceClock]: [clockHand = (clockHand + 1) % numBufs]. *)
Definition nextHand (s : State Disk) : FrameId :=
  wrap32 (clockHand s + 1) mod numBufs s.

Definition advanceClock : M' unit :=
  fun s => if numBufs s =? 0 then Undefined
           else Ok tt (with_hand (nextHand s) s).

(** The handler shared by the [catch (HashNotFoundException)] and
    [catch (HashTableException)] clauses around [hashTable->remove]: print
    and report that the enclosing function returns. *)
Definition on_remove_fault (e : Exn) : M' bool :=
  match e with
  | HashNotFoundException _ _ | HashTableException => print_cerr e ;;; ret false
  | _ => throw e
  end.

Definition on_insert_fault (e : Exn) : M' bool :=
  match e with
  | HashAlreadyPresentException _ _ _ | HashTableException => print_cerr e ;;; ret false
  | _ => throw e
  end.

(** [BufMgr::allocBuf]: the body of [for (;;)], with the local counter
    [numPinnedPages].  The result is the value given to the reference
    parameter [frame], [None] when the function returned without assigning
    it. *)
Fixpoint allocBuf_loop (fuel : nat) (numPinnedPages : N) : M' (option FrameId) :=
  match fuel with
  | O => fun _ => OutOfFuel
  | S fuel' =>
    advanceClock ;;;
    hand <- gets clockHand ;;
    d <- descAt hand ;;
    if valid d then
      if negb (refbit d) then
        if (pinCnt d =? 0)%Z then
          removed <- (if dirty d then
                        pg <- poolAt hand ;;
                        File_writePage (file d) pg ;;;
                        try_catch (ht_remove (file d) (pageNo d) ;;; ret true)
                                  on_remove_fault
                      else ret true) ;;
          if removed : bool then
            modifyDesc hand Clear ;;;
            d' <- descAt hand ;;
            ret (Some (frameNo d'))
          else ret None
        else if (0 <? pinCnt d)%Z then
          let numPinnedPages' := wrap32 (numPinnedPages + 1) in
          nb <- gets numBufs ;;
          if numPinnedPages' =? nb then throw BufferExceededException
          else allocBuf_loop fuel' numPinnedPages'
        else allocBuf_loop fuel' numPinnedPages
      else
        modifyDesc hand (set_refbit false) ;;;
        allocBuf_loop fuel' numPinnedPages
    else
      modifyDesc hand (fun d0 => Set_ (file d0) (pageNo d0) d0) ;;;
      d' <- descAt hand ;;
      ret (Some (frameNo d'))
  end.

Definition allocBuf (fuel : nat) : M' (option FrameId) := allocBuf_loop fuel 0.

(** [BufMgr::readPage]. *)
Definition readPage (fuel : nat) (f : FilePtr) (p : PageId) : M' unit :=
  match f with
  | None => ret tt
  | Some fl =>
    found <- ht_lookup f p ;;
    match found with
    | None =>
      got <- try_catch (fr <- allocBuf fuel ;; ret (Some fr))
               (fun e => match e with
                         | BufferExceededException => print_cerr e ;;; ret None
                         | _ => throw e
                         end) ;;
      match got with
      | None => ret tt
      | Some None => undefined
      | Some (Some frameNo) =>
        pg <- File_readPage fl p ;;
        setPool frameNo pg ;;;
        inserted <- try_catch (ht_insert f p frameNo ;;; ret true) on_insert_fault ;;
        if inserted : bool then
          modifyDesc frameNo (Set_ f p) ;;;
          modify (with_ref_page frameNo)
        else ret tt
      end
    | Some frameNo =>
      modifyDesc frameNo (set_refbit true) ;;;
      modifyDesc frameNo (fun d => set_pinCnt (wrap_int (pinCnt d + 1)) d) ;;;
      modify (with_ref_page frameNo)
    end
  end.

(** [BufMgr::unPinPage]. *)
Definition unPinPage (f : FilePtr) (p : PageId) (isDirty : bool) : M' unit :=
  match f with
  | None => ret tt
  | Some fl =>
    try_catch
      (found <- ht_lookup f p ;;
       match found with
       | Some frameNo =>
         d <- descAt frameNo ;;
         if (0 <? pinCnt d)%Z then
           modifyDesc frameNo (fun d0 => set_pinCnt (pinCnt d0 - 1) d0) ;;;
           if isDirty then modifyDesc frameNo (set_dirty true) else ret tt
         else if (pinCnt d =? 0)%Z then
           throw (PageNotPinnedException (file_filename fl) p frameNo)
         else ret tt
       | None => ret tt
       end)
      (fun e => match e with
                | HashNotFoundException _ _ => print_cerr e
                | _ => throw e
                end)
  end.

(** [BufMgr::flushFile]: the body of the loop for frame [i]; [false] when
    the function returns from inside the loop. *)
Definition flushFile_frame (fl : File) (i : N) : M' bool :=
  d <- descAt i ;;
  if decide (file d = Some fl) then
    if valid d then
      if (0 <? pinCnt d)%Z then
        throw (PagePinnedException (file_filename fl) (pageNo d) (frameNo d))
      else
        (if dirty d then
           pg <- poolAt i ;;
           File_writePage (file d) pg ;;;
           modifyDesc i (set_dirty false)
         else ret tt) ;;;
        removed <- try_catch (ht_remove (Some fl) (pageNo d) ;;; ret true)
                             on_remove_fault ;;
        if removed : bool then modifyDesc i Clear ;;; ret true
        else ret false
    else
      throw (BadBufferException (frameNo d) (dirty d) (valid d) (refbit d))
  else ret true.

(** [for (i = ...; i < numBufs; i++)] with [n] frames left to visit. *)
Fixpoint flushFile_from (n : nat) (i : N) (fl : File) : M' unit :=
  match n with
  | O => ret tt
  | S n' =>
    continue <- flushFile_frame fl i ;;
    if continue : bool then flushFile_from n' (wrap32 (i + 1)) fl else ret tt
  end.

Definition flushFile (f : FilePtr) : M' unit :=
  match f with
  | None => ret tt
  | Some fl =>
    nb <- gets numBufs ;;
    flushFile_from (N.to_nat nb) 0 fl
  end.

(** [BufMgr::allocPage]. *)
Definition allocPage (fuel : nat) (f : FilePtr) : M' unit :=
  match f with
  | None => ret tt
  | Some fl =>
    new_page <- File_allocatePage fl ;;
    let pageNo := page_number new_page in
    modify (with_ref_pageNo pageNo) ;;;
    got <- allocBuf fuel ;;
    match got with
    | None => undefined
    | Some frameNo =>
      setPool frameNo new_page ;;;
      inserted <- try_catch (ht_insert f pageNo frameNo ;;; ret true) on_insert_fault ;;
      if inserted : bool then
        modifyDesc frameNo (Set_ f pageNo) ;;;
        modify (with_ref_page frameNo)
      else ret tt
    end
  end.

(** [BufMgr::disposePage]. *)
Definition disposePage (f : FilePtr) (p : PageId) : M' unit :=
  match f with
  | None => ret tt
  | Some fl =>
    continue <-
      try_catch
        (found <- ht_lookup f p ;;
         match found with
         | Some frameNo =>
           modifyDesc frameNo Clear ;;;
           try_catch (ht_remove f p ;;; ret true) on_remove_fault
         | None => ret true
         end)
        (fun e => match e with
                  | HashNotFoundException _ _ => print_cerr e ;;; ret false
                  | _ => throw e
                  end) ;;
    if continue : bool then File_deletePage fl p else ret tt
  end.

(** [BufMgr::~BufMgr]: the write-back loop (the arrays are released
    afterwards). *)
Definition destroy_frame (i : N) : M' unit :=
  d <- descAt i ;;
  if valid d && dirty d then
    pg <- poolAt i ;;
    File_writePage (file d) pg ;;;
    modifyDesc i (set_dirty false)
  else ret tt.

Fixpoint destroy_from (n : nat) (i : N) : M' unit :=
  match n with
  | O => ret tt
  | S n' => destroy_frame i ;;; destroy_from n' (wrap32 (i + 1))
  end.

Definition destroy : M' unit :=
  nb <- gets numBufs ;;
  destroy_from (N.to_nat nb) 0.

End Manager.

(** ** A small in-memory [File] layer, to run the manager on scenarios *)

Module Toy.

(** The disk is the list of the pages written or allocated, latest first. *)
Definition Disk : Type := list (N * Page).

Definition holds (f : N) (p : N) (e : N * Page) : bool :=
  (fst e =? f) && (page_number (snd e) =? p).

Definition read (f : N) (p : N) (d : Disk) : Page :=
  match List.find (holds f p) d with
  | Some e => snd e
  | None => mkPage p 0
  end.

Definition write (f : N) (pg : Page) (d : Disk) : Disk := (f, pg) :: d.

Definition allocate (f : N) (d : Disk) : Page * Disk :=
  let pg := mkPage (N.of_nat (length d) + 1) 0 in (pg, (f, pg) :: d).

Definition delete (f : N) (p : N) (d : Disk) : Disk :=
  List.filter (fun e => negb (holds f p e)) d.

#[export] Instance ops : FileOps Disk :=
  {| file_readPage := read;
     file_writePage := write;
     file_allocatePage := allocate;
     file_deletePage := delete;
     file_filename := fun _ => "F"%string |}.

(** Run [m] from [s]; an outcome without a state leaves [s]. *)
Definition exec {A} (m : M Disk A) (s : State Disk) : State Disk :=
  match m s with
  | Ok _ s' | Throw _ s' => s'
  | _ => s
  end.

Definition thrown {A} (m : M Disk A) (s : State Disk) : option Exn :=
  match m s with
  | Throw e _ => Some e
  | _ => None
  end.

End Toy.

(** ** The invariants of the data model *)

Section Invariants.

Context {Disk : Type}.

Implicit Types (s : State Disk).

(** 1. Every valid frame has its index entry, and every index entry refers
    to a valid frame. *)
Definition inv_index s : Prop :=
  (forall i d, bufDescTable s !! i = Some d -> valid d = true ->
     hashTable s !! (file d, pageNo d) = Some (N.of_nat i)) /\
  (forall k fr, hashTable s !! k = Some fr ->
     exists d, bufDescTable s !! N.to_nat fr = Some d /\ valid d = true).

(** 2. No two valid frames share the same [(file, pageNo)]. *)
Definition inv_distinct s : Prop :=
  forall i j d1 d2,
    bufDescTable s !! i = Some d1 -> bufDescTable s !! j = Some d2 ->
    valid d1 = true -> valid d2 = true ->
    (file d1, pageNo d1) = (file d2, pageNo d2) -> i = j.

(** 3. [pinCnt >= 0], and a pinned frame is valid. *)
Definition inv_pin s : Prop :=
  forall i d, bufDescTable s !! i = Some d ->
    (0 <= pinCnt d)%Z /\ ((0 < pinCnt d)%Z -> valid d = true).

(** 4. Only a valid frame is dirty. *)
Definition inv_dirty s : Prop :=
  forall i d, bufDescTable s !! i = Some d -> dirty d = true -> valid d = true.

(** 5. An invalid frame is unpinned, clean, unreferenced and has no index
    entry. *)
Definition inv_invalid s : Prop :=
  forall i d, bufDescTable s !! i = Some d -> valid d = false ->
    pinCnt d = 0%Z /\ dirty d = false /\ refbit d = false /\
    (forall k, hashTable s !! k <> Some (N.of_nat i)).

(** 6. The clock hand is a frame number. *)
Definition inv_hand s : Prop := clockHand s < numBufs s.

Definition invariants s : Prop :=
  inv_index s /\ inv_distinct s /\ inv_pin s /\ inv_dirty s /\
  inv_invalid s /\ inv_hand s.

(** The shape of the arrays: [numBufs] descriptors and page slots, each
    descriptor carrying its own index, as the constructor builds them. *)
Definition frames_numbered s : Prop :=
  forall i d, bufDescTable s !! i = Some d -> frameNo d = N.of_nat i.

Record well_formed s : Prop := {
  wf_numBufs : numBufs s < 2 ^ 32;
  wf_descs : length (bufDescTable s) = N.to_nat (numBufs s);
  wf_pool : length (bufPool s) = N.to_nat (numBufs s);
  wf_frameNo : frames_numbered s
}.

End Invariants.

(** ** Scenarios *)

Module Scenario.

Import Toy.

Definition F : option N := Some 7.

(** A pool of one frame: page 1 is read and released, page 2 is read into
    the same frame, released, and the file is flushed. *)
Definition one_0 : State Disk := BufMgr_new 1 [].
Definition one_1 : State Disk := exec (readPage 1 F 1) one_0.
Definition one_2 : State Disk := exec (unPinPage F 1 false) one_1.
Definition one_3 : State Disk := exec (readPage 2 F 2) one_2.
Definition one_4 : State Disk := exec (unPinPage F 2 false) one_3.
Definition one_5 : State Disk := exec (flushFile F) one_4.

(** The same start, but page 1 is released dirty. *)
Definition one_2d : State Disk := exec (unPinPage F 1 true) one_1.

(** A pool of two frames: page 1 stays pinned, pages 2 and then 3 go
    through the other frame, and page 3 is released. *)
Definition two_0 : State Disk := BufMgr_new 2 [].
Definition two_1 : State Disk := exec (readPage 1 F 1) two_0.
Definition two_2 : State Disk := exec (readPage 1 F 2) two_1.
Definition two_3 : State Disk := exec (unPinPage F 2 false) two_2.
Definition two_4 : State Disk := exec (readPage 4 F 3) two_3.
Definition two_5 : State Disk := exec (unPinPage F 3 false) two_4.

(** A pool of three frames: pages 1, 2 and 3 are read and then released, so
    every frame is valid, referenced and unpinned. *)
Definition three_0 : State Disk := BufMgr_new 3 [].
Definition three_1 : State Disk := exec (readPage 1 F 1) three_0.
Definition three_2 : State Disk := exec (readPage 1 F 2) three_1.
Definition three_3 : State Disk := exec (readPage 1 F 3) three_2.
Definition three_4 : State Disk := exec (unPinPage F 1 false) three_3.
Definition three_5 : State Disk := exec (unPinPage F 2 false) three_4.
Definition three_6 : State Disk := exec (unPinPage F 3 false) three_5.

(** A pin count below zero, as a wrapped [pinCnt++] leaves it: one frame,
    valid and unreferenced, with a negative pin count. *)
Definition negative_pin : State Disk :=
  mkState 1 [mkBufDesc 0 (Some 7) 1 (-1) false true false] [Page_default]
          ∅ 0 [] [] [] None None.

End Scenario.

(** ** Relations between states used in the statements *)

Section Relations.

Context {Disk : Type} `{FO : FileOps Disk}.

Implicit Types (s : State Disk) (d : BufDesc).

(** The iterations that do not leave the loop: the hand moves to a valid
    frame, whose reference bit is cleared if it was set, and which is passed
    over if it is pinned. *)
Inductive sweep_step : State Disk -> State Disk -> Prop :=
  | sweep_refbit s d :
      numBufs s <> 0 ->
      bufDescTable s !! N.to_nat (nextHand s) = Some d ->
      valid d = true -> refbit d = true ->
      sweep_step s
        (with_descs (<[N.to_nat (nextHand s) := set_refbit false d]> (bufDescTable s))
           (with_hand (nextHand s) s))
  | sweep_pass s d :
      numBufs s <> 0 ->
      bufDescTable s !! N.to_nat (nextHand s) = Some d ->
      valid d = true -> refbit d = false -> pinCnt d <> 0%Z ->
      sweep_step s (with_hand (nextHand s) s).

(** What a sweep leaves alone: everything but the hand and reference bits. *)
Definition refbit_cleared (d d' : BufDesc) : Prop :=
  d' = d \/ d' = set_refbit false d.

Record sweep_frame (s s' : State Disk) : Prop := {
  sweep_numBufs : numBufs s' = numBufs s;
  sweep_descs : Forall2 refbit_cleared (bufDescTable s) (bufDescTable s');
  sweep_pool : bufPool s' = bufPool s;
  sweep_hash : hashTable s' = hashTable s;
  sweep_disk : disk s' = disk s;
  sweep_trace : trace s' = trace s;
  sweep_cerr : cerr s' = cerr s;
  sweep_ref_pageNo : ref_pageNo s' = ref_pageNo s;
  sweep_ref_page : ref_page s' = ref_page s
}.

(** A dirty frame over an operation from [s] to [s']: either the frame is
    still valid and dirty, for the same file and with the same page in its
    slot, or the page that was in its slot has been written to its file
    during the operation. *)
Definition dirty_kept (i : nat) d s s' : Prop :=
  exists d', bufDescTable s' !! i = Some d' /\ valid d' = true /\ dirty d' = true /\
             file d' = file d /\ bufPool s' !! i = bufPool s !! i.

Definition written_back (i : nat) d s (evs : list FileEvent) : Prop :=
  exists f pg, file d = Some f /\ bufPool s !! i = Some pg /\ EvWritePage f pg ∈ evs.

Definition dirty_safe s s' : Prop :=
  exists evs, trace s' = trace s ++ evs /\
    forall i d, bufDescTable s !! i = Some d -> valid d = true -> dirty d = true ->
      dirty_kept i d s s' \/ written_back i d s evs.

(** What [flushFile] does with the frames of file [f], as functions of the
    descriptors and page slots it has gone through.  A frame of the file
    stops the flush if it is not valid or if it is pinned. *)
Definition flush_stops (f : N) d : Prop :=
  file d = Some f /\ (valid d = false \/ (0 < pinCnt d)%Z).

Definition flush_error (f : N) d : Exn :=
  if valid d then PagePinnedException (file_filename f) (pageNo d) (frameNo d)
  else BadBufferException (frameNo d) (dirty d) (valid d) (refbit d).

Definition flush_desc (f : N) d : BufDesc :=
  if decide (file d = Some f) then Clear d else d.

Definition flush_key (f : N) (h : gmap (option N * N) N) (x : BufDesc * Page) :
    gmap (option N * N) N :=
  if decide (file x.1 = Some f) then delete (Some f, pageNo x.1) h else h.

Definition flush_write (f : N) (x : BufDesc * Page) : list FileEvent :=
  if decide (file x.1 = Some f) then
    if dirty x.1 then [EvWritePage f x.2] else []
  else [].

Definition apply_writes (evs : list FileEvent) (dk : Disk) : Disk :=
  foldl (fun dk ev => match ev with
                      | EvWritePage f pg => file_writePage f pg dk
                      | _ => dk
                      end) dk evs.

Record flushed (f : N) (fs : list (BufDesc * Page)) s s' : Prop := {
  fl_hash : hashTable s' = foldl (flush_key f) (hashTable s) fs;
  fl_trace : trace s' = trace s ++ flat_map (flush_write f) fs;
  fl_disk : disk s' = apply_writes (flat_map (flush_write f) fs) (disk s);
  fl_pool : bufPool s' = bufPool s;
  fl_numBufs : numBufs s' = numBufs s;
  fl_hand : clockHand s' = clockHand s;
  fl_cerr : cerr s' = cerr s;
  fl_ref_pageNo : ref_pageNo s' = ref_pageNo s;
  fl_ref_page : ref_page s' = ref_page s
}.

(** The part of invariant 1 that [flushFile] relies on: the valid frames of
    file [f] have their index entries. *)
Definition indexed (f : N) s : Prop :=
  forall i d, bufDescTable s !! i = Some d -> file d = Some f -> valid d = true ->
    hashTable s !! (Some f, pageNo d) = Some (N.of_nat i).

(** The states a program can bring the manager to: built by the
    constructor with at least one frame, then driven through the public
    operations. *)
Inductive reachable : State Disk -> Prop :=
  | reach_new bufs dk :
      0 < bufs -> bufs < 2 ^ 32 -> reachable (BufMgr_new bufs dk)
  | reach_readPage fuel f p s s' :
      reachable s -> final_state (readPage fuel f p s) = Some s' -> reachable s'
  | reach_unPinPage f p isDirty s s' :
      reachable s -> final_state (unPinPage f p isDirty s) = Some s' -> reachable s'
  | reach_allocPage fuel f s s' :
      reachable s -> final_state (allocPage fuel f s) = Some s' -> reachable s'
  | reach_flushFile f s s' :
      reachable s -> final_state (flushFile f s) = Some s' -> reachable s'
  | reach_disposePage f p s s' :
      reachable s -> final_state (disposePage f p s) = Some s' -> reachable s'.

(** What the code does keep true in every reachable state: the arrays are
    well formed, every valid frame of a file has its index entry, and a
    frame that is not valid has no file. *)
Record sound s : Prop := {
  snd_wf : well_formed s;
  snd_indexed : forall f, indexed f s;
  snd_free : forall i d, bufDescTable s !! i = Some d -> valid d = false -> file d = None
}.

(** Page [p] of file [f] is in the pool: a valid frame holds it. *)
Definition resident (f : N) (p : N) s : Prop :=
  exists i d, bufDescTable s !! i = Some d /\
    valid d = true /\ file d = Some f /\ pageNo d = p.

(** No pin count is negative.  [readPage] can break this: a pin count of
    [INT_MAX] becomes negative at the next hit. *)
Definition pins_nonneg s : Prop :=
  forall i d, bufDescTable s !! i = Some d -> (0 <= pinCnt d)%Z.

(** The number of reference bits that are set bounds the iterations that
    clear one. *)
Definition refbits_set (l : list BufDesc) : nat :=
  sum_list_with (fun d => if refbit d then 1%nat else 0%nat) l.

(** [k] calls of [advanceClock] in a row, and where they take a hand [h]
    in a pool of [nb] frames. *)
Fixpoint advanceClock_n (k : nat) : M Disk unit :=
  match k with
  | O => ret tt
  | S k' => advanceClock ;;; advanceClock_n k'
  end.

Definition hand_after (k : nat) (nb h : N) : N :=
  Nat.iter k (fun h => wrap32 (h + 1) mod nb) h.

(** A frame the sweep can hand out when it reaches it: not valid, or valid
    with its reference bit clear and no pin. *)
Definition available d : Prop :=
  valid d = false \/ (valid d = true /\ refbit d = false /\ pinCnt d = 0%Z).

(** Every valid dirty frame knows the file its page goes back to. *)
Definition dirty_has_file s : Prop :=
  forall i d, bufDescTable s !! i = Some d -> valid d = true -> dirty d = true ->
    file d <> None.

(** What the destructor does to a descriptor and what it writes for a
    frame. *)
Definition destroy_desc d : BufDesc :=
  if valid d && dirty d then set_dirty false d else d.

Definition destroy_write (x : BufDesc * Page) : list FileEvent :=
  if valid x.1 && dirty x.1 then
    match file x.1 with
    | Some f => [EvWritePage f x.2]
    | None => []
    end
  else [].

(** No operation changes [numBufs], and each leaves the hand where it was
    or on a frame. *)
Definition hand_kept (s s' : State Disk) : Prop :=
  numBufs s' = numBufs s /\
  (clockHand s' = clockHand s \/ clockHand s' < numBufs s').

(** Clearing the reference bit of frame [i], and the frames the hand goes
    over in [k] advances from [h], in that order. *)
Definition clear_refbit_at (l : list BufDesc) (i : nat) : list BufDesc :=
  match l !! i with
  | Some d => <[i := set_refbit false d]> l
  | None => l
  end.

Definition hands_visited (k : nat) (nb h : N) : list nat :=
  (fun j => N.to_nat (hand_after j nb h)) <$> seq 1 k.

End Relations.

(** ** Properties *)

Section Properties.

Context {Disk : Type} `{FO : FileOps Disk}.

Implicit Types (s : State Disk) (d : BufDesc) (f : N) (p fr : N).

Ltac unfold_monad :=
  unfold readPage, unPinPage, disposePage, allocPage, flushFile_frame,
    destroy_frame, on_remove_fault, on_insert_fault, File_deletePage,
    File_readPage, File_allocatePage, File_writePage, advanceClock,
    ht_remove, ht_insert, ht_lookup, setPool, poolAt, modifyDesc, descAt,
    print_cerr, modify, gets, try_catch, undefined, throw, bind, ret in *.

(** What [disposePage] does on a non-null file, case by case. *)
Lemma disposePage_run f p s :
  disposePage (Some f) p s =
  match hashTable s !! (Some f, p) with
  | None => Ok tt (with_disk (file_deletePage f p (disk s)) (EvDeletePage f p) s)
  | Some fr =>
    match bufDescTable s !! N.to_nat fr with
    | None => Undefined
    | Some d =>
      Ok tt (with_disk (file_deletePage f p (disk s)) (EvDeletePage f p)
               (with_hash (delete (Some f, p) (hashTable s))
                  (with_descs (<[N.to_nat fr := Clear d]> (bufDescTable s)) s)))
    end
  end.
Proof.
  unfold_monad. cbn.
  destruct (hashTable s !! (Some f, p)) as [fr|] eqn:Hk; cbn; [|done].
  destruct (bufDescTable s !! N.to_nat fr) as [d|] eqn:Hd; cbn; [|done].
  by rewrite Hk.
Qed.

(** C10: disposing a resident page clears the descriptor its index entry
    names and removes the entry, whatever the pin count and the dirty flag;
    no page is written, and the only call on the file is [deletePage]. *)
Theorem disposePage_discards_without_write f p fr d s :
  hashTable s !! (Some f, p) = Some fr ->
  bufDescTable s !! N.to_nat fr = Some d ->
  exists s',
    disposePage (Some f) p s = Ok tt s' /\
    bufDescTable s' = <[N.to_nat fr := Clear d]> (bufDescTable s) /\
    hashTable s' = delete (Some f, p) (hashTable s) /\
    bufPool s' = bufPool s /\
    trace s' = trace s ++ [EvDeletePage f p] /\
    disk s' = file_deletePage f p (disk s) /\
    (forall g pg, EvWritePage g pg ∉ drop (length (trace s)) (trace s')).
Proof.
  intros Hk Hd. rewrite disposePage_run, Hk, Hd.
  eexists. split; [reflexivity|]. cbn. repeat split.
  intros g pg. rewrite drop_app_length. intros Hin.
  apply list_elem_of_singleton in Hin. discriminate.
Qed.

(** What [unPinPage] does on a non-null file, case by case. *)
Lemma unPinPage_run f p (isDirty : bool) s :
  unPinPage (Some f) p isDirty s =
  match hashTable s !! (Some f, p) with
  | None => Ok tt s
  | Some fr =>
    match bufDescTable s !! N.to_nat fr with
    | None => Undefined
    | Some d =>
      if (0 <? pinCnt d)%Z then
        Ok tt (with_descs
                 (<[N.to_nat fr :=
                      mkBufDesc (frameNo d) (file d) (pageNo d) (pinCnt d - 1)
                        (if isDirty then true else dirty d) (valid d) (refbit d)]>
                    (bufDescTable s)) s)
      else if (pinCnt d =? 0)%Z then
        Throw (PageNotPinnedException (file_filename f) p fr) s
      else Ok tt s
    end
  end.
Proof.
  unfold_monad. cbn.
  destruct (hashTable s !! (Some f, p)) as [fr|] eqn:Hk; cbn; [|done].
  destruct (bufDescTable s !! N.to_nat fr) as [d|] eqn:Hd; cbn; [|done].
  destruct (0 <? pinCnt d)%Z eqn:Hpos; cbn.
  - rewrite Hd. cbn.
    assert (Hlen : (N.to_nat fr < length (bufDescTable s))%nat)
      by (eapply lookup_lt_Some; eauto).
    destruct isDirty; cbn; [|done].
    rewrite list_lookup_insert_eq by done. cbn.
    by rewrite list_insert_insert_eq.
  - by destruct (pinCnt d =? 0)%Z.
Qed.

(** [unPinPage] goes by the index, not by the frames: for a non-null file
    it throws exactly when the index has an entry for the page that names a
    frame whose pin count is zero, and then the error is [PageNotPinned];
    without an entry the state is left as it is; with an entry that names a
    frame with a positive pin count, that frame loses exactly one pin,
    whichever page it holds. *)
Lemma unPinPage_cases f p (isDirty : bool) s :
  ((exists e s', unPinPage (Some f) p isDirty s = Throw e s') <->
   (exists fr d, hashTable s !! (Some f, p) = Some fr /\
                 bufDescTable s !! N.to_nat fr = Some d /\ pinCnt d = 0%Z)) /\
  (forall e s', unPinPage (Some f) p isDirty s = Throw e s' ->
     exists fr, hashTable s !! (Some f, p) = Some fr /\
                e = PageNotPinnedException (file_filename f) p fr /\ s' = s) /\
  (hashTable s !! (Some f, p) = None ->
     unPinPage (Some f) p isDirty s = Ok tt s) /\
  (forall fr d, hashTable s !! (Some f, p) = Some fr ->
     bufDescTable s !! N.to_nat fr = Some d -> (0 < pinCnt d)%Z ->
     exists s', unPinPage (Some f) p isDirty s = Ok tt s' /\
       bufDescTable s' =
         <[N.to_nat fr :=
             mkBufDesc (frameNo d) (file d) (pageNo d) (pinCnt d - 1)
                       (if isDirty then true else dirty d) (valid d) (refbit d)]>
           (bufDescTable s) /\
       hashTable s' = hashTable s /\ bufPool s' = bufPool s /\
       trace s' = trace s).
Proof.
  rewrite unPinPage_run.
  destruct (hashTable s !! (Some f, p)) as [fr|] eqn:Hk;
    [|split_and!; [naive_solver..]].
  destruct (bufDescTable s !! N.to_nat fr) as [d|] eqn:Hd;
    [|split_and!; [naive_solver..]].
  destruct (0 <? pinCnt d)%Z eqn:Hpos.
  { apply Z.ltb_lt in Hpos. split_and!; [naive_solver lia..|].
    intros fr' d' H H' _. simplify_eq. eexists. split; [reflexivity|]. done. }
  apply Z.ltb_ge in Hpos.
  destruct (pinCnt d =? 0)%Z eqn:Hz.
  - apply Z.eqb_eq in Hz. split_and!; [naive_solver lia..].
  - apply Z.eqb_neq in Hz. split_and!; [naive_solver lia..].
Qed.

(** *** The clock sweep *)

(** One iteration of the loop of [allocBuf], spelled out. *)
Lemma allocBuf_loop_S fuel n s :
  allocBuf_loop (S fuel) n s =
  if numBufs s =? 0 then Undefined else
  let h := nextHand s in
  let s1 := with_hand h s in
  match bufDescTable s !! N.to_nat h with
  | None => Undefined
  | Some d =>
    if valid d then
      if refbit d then
        allocBuf_loop fuel n
          (with_descs (<[N.to_nat h := set_refbit false d]> (bufDescTable s)) s1)
      else if (pinCnt d =? 0)%Z then
        if dirty d then
          match bufPool s !! N.to_nat h with
          | None => Undefined
          | Some pg =>
            match file d with
            | None => Undefined
            | Some f =>
              let s2 := with_disk (file_writePage f pg (disk s)) (EvWritePage f pg) s1 in
              match hashTable s !! (Some f, pageNo d) with
              | Some _ =>
                Ok (Some (frameNo d))
                   (with_descs (<[N.to_nat h := Clear d]> (bufDescTable s))
                      (with_hash (delete (Some f, pageNo d) (hashTable s)) s2))
              | None =>
                Ok None (with_cerr (HashNotFoundException (Some f) (pageNo d)) s2)
              end
            end
          end
        else
          Ok (Some (frameNo d))
             (with_descs (<[N.to_nat h := Clear d]> (bufDescTable s)) s1)
      else if (0 <? pinCnt d)%Z then
        if wrap32 (n + 1) =? numBufs s then Throw BufferExceededException s1
        else allocBuf_loop fuel (wrap32 (n + 1)) s1
      else allocBuf_loop fuel n s1
    else
      Ok (Some (frameNo d))
         (with_descs (<[N.to_nat h := Set_ (file d) (pageNo d) d]> (bufDescTable s)) s1)
  end.
Proof.
  cbn [allocBuf_loop]. unfold_monad. cbn.
  destruct (numBufs s =? 0); [done|]. cbn.
  destruct (bufDescTable s !! N.to_nat (nextHand s)) as [d|] eqn:Hd; cbn; [|done].
  assert (Hlen : (N.to_nat (nextHand s) < length (bufDescTable s))%nat)
    by (eapply lookup_lt_Some; eauto).
  destruct (valid d); cbn.
  2:{ rewrite Hd. cbn. by rewrite list_lookup_insert_eq. }
  destruct (refbit d); cbn.
  { by rewrite Hd. }
  destruct (pinCnt d =? 0)%Z; cbn.
  2:{ destruct (0 <? pinCnt d)%Z; cbn; [|done].
      by destruct (wrap32 (n + 1) =? numBufs s). }
  destruct (dirty d); cbn.
  2:{ rewrite Hd. cbn. by rewrite list_lookup_insert_eq. }
  destruct (bufPool s !! N.to_nat (nextHand s)) as [pg|]; cbn; [|done].
  destruct (file d) as [f|]; cbn; [|done].
  destruct (hashTable s !! (Some f, pageNo d)); cbn; [|done].
  rewrite Hd. cbn. by rewrite list_lookup_insert_eq.
Qed.

(** Every run of the loop is a sweep followed by one last iteration; a throw
    happens at the end of a sweep. *)
Lemma allocBuf_loop_sweeps fuel : forall n s,
  match allocBuf_loop fuel n s with
  | Ok r s' => exists s1 n1, rtc sweep_step s s1 /\ allocBuf_loop 1 n1 s1 = Ok r s'
  | Throw e s' => e = BufferExceededException /\ rtc sweep_step s s'
  | _ => True
  end.
Proof.
  induction fuel as [|fuel IH]; intros n s; [done|].
  rewrite allocBuf_loop_S.
  assert (Hone := allocBuf_loop_S 0 n s). cbn zeta in *.
  destruct (numBufs s =? 0) eqn:Hnb; [done|]. apply N.eqb_neq in Hnb.
  destruct (bufDescTable s !! N.to_nat (nextHand s)) as [d|] eqn:Hd; [|done].
  assert (Hlast : forall r s',
    allocBuf_loop 1 n s = Ok r s' ->
    exists s1 n1, rtc sweep_step s s1 /\ allocBuf_loop 1 n1 s1 = Ok r s')
    by (intros; exists s, n; split; [apply rtc_refl|done]).
  destruct (valid d) eqn:Hv; [|by apply Hlast].
  destruct (refbit d) eqn:Hr.
  { specialize (IH n (with_descs (<[N.to_nat (nextHand s) := set_refbit false d]>
                                    (bufDescTable s)) (with_hand (nextHand s) s))).
    assert (Hstep := sweep_refbit s d Hnb Hd Hv Hr).
    destruct (allocBuf_loop fuel n _) as [r s'|e s'| |]; [| |done..].
    - destruct IH as (s1 & n1 & Hrtc & Hrun). exists s1, n1.
      split; [|done]. eapply rtc_l; eauto.
    - destruct IH as [-> Hrtc]. split; [done|]. eapply rtc_l; eauto. }
  destruct (pinCnt d =? 0)%Z eqn:Hz.
  { destruct (dirty d); [|by apply Hlast].
    destruct (bufPool s !! N.to_nat (nextHand s)); [|done].
    destruct (file d); [|done].
    destruct (hashTable s !! (Some n0, pageNo d)); by apply Hlast. }
  apply Z.eqb_neq in Hz.
  assert (Hstep := sweep_pass s d Hnb Hd Hv Hr Hz).
  destruct (0 <? pinCnt d)%Z.
  - destruct (wrap32 (n + 1) =? numBufs s).
    { split; [done|]. by apply rtc_once. }
    specialize (IH (wrap32 (n + 1)) (with_hand (nextHand s) s)).
    destruct (allocBuf_loop fuel _ _) as [r s'|e s'| |]; [| |done..].
    + destruct IH as (s1 & n1 & Hrtc & Hrun). exists s1, n1.
      split; [|done]. eapply rtc_l; eauto.
    + destruct IH as [-> Hrtc]. split; [done|]. eapply rtc_l; eauto.
  - specialize (IH n (with_hand (nextHand s) s)).
    destruct (allocBuf_loop fuel _ _) as [r s'|e s'| |]; [| |done..].
    + destruct IH as (s1 & n1 & Hrtc & Hrun). exists s1, n1.
      split; [|done]. eapply rtc_l; eauto.
    + destruct IH as [-> Hrtc]. split; [done|]. eapply rtc_l; eauto.
Qed.

Lemma refbit_cleared_refl l : Forall2 refbit_cleared l l.
Proof. apply Forall2_same_length_lookup. split; [done|]. intros; simplify_eq. by left. Qed.

Lemma refbit_cleared_trans d1 d2 d3 :
  refbit_cleared d1 d2 -> refbit_cleared d2 d3 -> refbit_cleared d1 d3.
Proof.
  unfold refbit_cleared. intros [->| ->] [->| ->]; auto.
Qed.

Lemma sweep_frame_refl s : sweep_frame s s.
Proof. split; auto using refbit_cleared_refl. Qed.

Lemma sweep_frame_trans s1 s2 s3 :
  sweep_frame s1 s2 -> sweep_frame s2 s3 -> sweep_frame s1 s3.
Proof.
  intros [] []. split; try congruence.
  eapply Forall2_trans; [|done..]. apply refbit_cleared_trans.
Qed.

Lemma sweep_step_frame s s' : sweep_step s s' -> sweep_frame s s'.
Proof.
  destruct 1 as [s d Hnb Hd Hv Hr|s d Hnb Hd Hv Hr Hp]; split; try done; cbn.
  - apply Forall2_same_length_lookup. split; [by rewrite length_insert|].
    intros i x y Hx Hy. destruct (decide (i = N.to_nat (nextHand s))) as [->|Hne].
    + rewrite list_lookup_insert_eq in Hy by (eapply lookup_lt_Some; eauto).
      simplify_eq. by right.
    + rewrite list_lookup_insert_ne in Hy by done. simplify_eq. by left.
  - apply refbit_cleared_refl.
Qed.

Lemma sweeps_frame s s' : rtc sweep_step s s' -> sweep_frame s s'.
Proof.
  induction 1 as [|s1 s2 s3 Hstep _ IH]; [apply sweep_frame_refl|].
  eapply sweep_frame_trans; [by apply sweep_step_frame|done].
Qed.

(** *** The callers of [allocBuf] *)

(** [readPage] on a non-null file, by the outcome of the lookup and of
    [allocBuf]. *)
Lemma readPage_hit fuel f p fr s :
  hashTable s !! (Some f, p) = Some fr ->
  readPage fuel (Some f) p s =
  match bufDescTable s !! N.to_nat fr with
  | None => Undefined
  | Some d =>
    Ok tt (with_ref_page fr
             (with_descs
                (<[N.to_nat fr :=
                     mkBufDesc (frameNo d) (file d) (pageNo d)
                               (wrap_int (pinCnt d + 1))
                               (dirty d) (valid d) true]> (bufDescTable s)) s))
  end.
Proof.
  intros Hk. unfold_monad. cbn. rewrite Hk. cbn.
  destruct (bufDescTable s !! N.to_nat fr) as [d|] eqn:Hd; cbn; [|done].
  rewrite list_lookup_insert_eq by (eapply lookup_lt_Some; eauto). cbn.
  by rewrite list_insert_insert_eq.
Qed.

Lemma readPage_miss fuel f p s :
  hashTable s !! (Some f, p) = None ->
  readPage fuel (Some f) p s =
  match allocBuf fuel s with
  | Ok None _ => Undefined
  | Ok (Some fr) s1 =>
    match bufPool s1 !! N.to_nat fr with
    | None => Undefined
    | Some _ =>
      let s2 := with_pool (<[N.to_nat fr := file_readPage f p (disk s1)]> (bufPool s1))
                  (with_disk (disk s1) (EvReadPage f p) s1) in
      match hashTable s1 !! (Some f, p) with
      | Some _ => Ok tt (with_cerr (HashAlreadyPresentException (Some f) p fr) s2)
      | None =>
        match bufDescTable s1 !! N.to_nat fr with
        | None => Undefined
        | Some d =>
          Ok tt (with_ref_page fr
                   (with_descs (<[N.to_nat fr := Set_ (Some f) p d]> (bufDescTable s1))
                      (with_hash (<[(Some f, p) := fr]> (hashTable s1)) s2)))
        end
      end
    end
  | Throw BufferExceededException s1 => Ok tt (with_cerr BufferExceededException s1)
  | Throw e s1 => Throw e s1
  | Undefined => Undefined
  | OutOfFuel => OutOfFuel
  end.
Proof.
  intros Hk. unfold readPage. generalize (allocBuf fuel). intros m.
  unfold_monad. cbn. rewrite Hk. cbn.
  destruct (m s) as [[fr|] s1|e s1| |]; cbn; try done.
  - destruct (bufPool s1 !! N.to_nat fr); cbn; [|done].
    destruct (hashTable s1 !! (Some f, p)); cbn; [done|].
    by destruct (bufDescTable s1 !! N.to_nat fr).
  - by destruct e.
Qed.

(** [allocPage] on a non-null file, by the outcome of [allocBuf]. *)
Lemma allocPage_run fuel f s :
  allocPage fuel (Some f) s =
  let pg := (file_allocatePage f (disk s)).1 in
  let s0 := with_ref_pageNo (page_number pg)
              (with_disk (file_allocatePage f (disk s)).2
                 (EvAllocatePage f (page_number pg)) s) in
  match allocBuf fuel s0 with
  | Ok None _ => Undefined
  | Ok (Some fr) s1 =>
    match bufPool s1 !! N.to_nat fr with
    | None => Undefined
    | Some _ =>
      let s2 := with_pool (<[N.to_nat fr := pg]> (bufPool s1)) s1 in
      match hashTable s1 !! (Some f, page_number pg) with
      | Some _ =>
        Ok tt (with_cerr (HashAlreadyPresentException (Some f) (page_number pg) fr) s2)
      | None =>
        match bufDescTable s1 !! N.to_nat fr with
        | None => Undefined
        | Some d =>
          Ok tt (with_ref_page fr
                   (with_descs
                      (<[N.to_nat fr := Set_ (Some f) (page_number pg) d]> (bufDescTable s1))
                      (with_hash (<[(Some f, page_number pg) := fr]> (hashTable s1)) s2)))
        end
      end
    end
  | Throw e s1 => Throw e s1
  | Undefined => Undefined
  | OutOfFuel => OutOfFuel
  end.
Proof.
  unfold allocPage. generalize (allocBuf fuel). intros m.
  unfold_monad. cbn. destruct (file_allocatePage f (disk s)) as [pg dk]. cbn.
  destruct (m _) as [[fr|] s1|e s1| |]; cbn; try done.
  destruct (bufPool s1 !! N.to_nat fr); cbn; [|done].
  destruct (hashTable s1 !! (Some f, page_number pg)); cbn; [done|].
  by destruct (bufDescTable s1 !! N.to_nat fr).
Qed.

(** When the hand lands on an invalid frame the loop calls [Set] on it with
    the descriptor's own file and page number and returns its frame number,
    so the frame comes back valid, pinned once and referenced.  Where the
    index has no entry for the page they load, [readPage] and [allocPage]
    then call [Set] again with the identity of that page. *)
Lemma allocBuf_invalid_frame_is_Set fuel s d :
  numBufs s <> 0 ->
  bufDescTable s !! N.to_nat (nextHand s) = Some d ->
  valid d = false ->
  let h := nextHand s in
  (forall n,
     allocBuf_loop (S fuel) n s =
     Ok (Some (frameNo d))
        (with_descs (<[N.to_nat h := Set_ (file d) (pageNo d) d]> (bufDescTable s))
           (with_hand h s))) /\
  (frameNo d = h -> forall f p,
     hashTable s !! (Some f, p) = None -> is_Some (bufPool s !! N.to_nat h) ->
     exists s', readPage (S fuel) (Some f) p s = Ok tt s' /\
       bufDescTable s' = <[N.to_nat h := Set_ (Some f) p d]> (bufDescTable s) /\
       hashTable s' = <[(Some f, p) := h]> (hashTable s) /\
       ref_page s' = Some h) /\
  (frameNo d = h -> forall f,
     let pg := (file_allocatePage f (disk s)).1 in
     hashTable s !! (Some f, page_number pg) = None ->
     is_Some (bufPool s !! N.to_nat h) ->
     exists s', allocPage (S fuel) (Some f) s = Ok tt s' /\
       bufDescTable s' = <[N.to_nat h := Set_ (Some f) (page_number pg) d]> (bufDescTable s) /\
       hashTable s' = <[(Some f, page_number pg) := h]> (hashTable s) /\
       ref_pageNo s' = Some (page_number pg) /\ ref_page s' = Some h).
Proof.
  intros Hnb Hd Hv h. subst h. set (h := nextHand s) in *.
  assert (Hlen : (N.to_nat h < length (bufDescTable s))%nat)
    by (eapply lookup_lt_Some; eauto).
  assert (Hloop : forall n s0,
    numBufs s0 = numBufs s -> clockHand s0 = clockHand s ->
    bufDescTable s0 = bufDescTable s ->
    allocBuf_loop (S fuel) n s0 =
    Ok (Some (frameNo d))
       (with_descs (<[N.to_nat h := Set_ (file d) (pageNo d) d]> (bufDescTable s0))
          (with_hand h s0))).
  { intros n s0 E1 E2 E3. rewrite allocBuf_loop_S. cbn zeta.
    unfold nextHand. rewrite E1, E2, E3. fold (nextHand s). fold h.
    apply N.eqb_neq in Hnb. by rewrite Hnb, Hd, Hv. }
  split; [intros n; by apply Hloop|].
  split.
  - intros Hfr f p Hk [pg0 Hpool]. rewrite readPage_miss by done.
    unfold allocBuf. rewrite Hloop by done. cbn. rewrite Hfr, Hpool, Hk.
    rewrite list_lookup_insert_eq by done.
    eexists. split; [reflexivity|]. cbn. by rewrite list_insert_insert_eq.
  - intros Hfr f pg Hk [pg0 Hpool]. rewrite allocPage_run. cbn zeta. fold pg.
    unfold allocBuf. rewrite Hloop by done. cbn. rewrite Hfr, Hpool, Hk.
    rewrite list_lookup_insert_eq by done.
    eexists. split; [reflexivity|]. cbn. by rewrite list_insert_insert_eq.
Qed.

(** When the lookup misses and [allocBuf] throws [BufferExceeded],
    [readPage] catches the exception, prints its message and returns
    normally, handing no page to its caller. *)
Lemma readPage_swallows_BufferExceeded fuel f p s s1 :
  hashTable s !! (Some f, p) = None ->
  allocBuf fuel s = Throw BufferExceededException s1 ->
  readPage fuel (Some f) p s = Ok tt (with_cerr BufferExceededException s1) /\
  ref_page (with_cerr BufferExceededException s1) = ref_page s /\
  hashTable s1 = hashTable s /\ bufPool s1 = bufPool s /\ trace s1 = trace s.
Proof.
  intros Hk Hthrow. rewrite readPage_miss, Hthrow by done.
  split; [done|].
  pose proof (allocBuf_loop_sweeps fuel 0 s) as Hsw.
  unfold allocBuf in Hthrow. rewrite Hthrow in Hsw. destruct Hsw as [_ Hsw].
  apply sweeps_frame in Hsw. destruct Hsw. done.
Qed.

(** C9, as the code has it: [allocPage] reserves the page in the file and
    assigns [pageNo] before it calls [allocBuf]; if that throws
    [BufferExceeded] the exception reaches the caller with the page reserved
    and [pageNo] assigned, [page] is left as it was, and in the pool only the
    clock hand and reference bits have changed. *)
Theorem allocPage_not_atomic fuel f s s2 :
  let pg := (file_allocatePage f (disk s)).1 in
  let dk := (file_allocatePage f (disk s)).2 in
  allocBuf fuel (with_ref_pageNo (page_number pg)
                   (with_disk dk (EvAllocatePage f (page_number pg)) s))
    = Throw BufferExceededException s2 ->
  allocPage fuel (Some f) s = Throw BufferExceededException s2 /\
  disk s2 = dk /\
  trace s2 = trace s ++ [EvAllocatePage f (page_number pg)] /\
  ref_pageNo s2 = Some (page_number pg) /\
  ref_page s2 = ref_page s /\
  hashTable s2 = hashTable s /\
  bufPool s2 = bufPool s /\
  Forall2 refbit_cleared (bufDescTable s) (bufDescTable s2) /\
  numBufs s2 = numBufs s /\ cerr s2 = cerr s.
Proof.
  intros pg dk Hthrow. rewrite allocPage_run. cbn zeta. fold pg dk.
  rewrite Hthrow. split; [done|].
  match type of Hthrow with allocBuf _ ?s0 = _ =>
    pose proof (allocBuf_loop_sweeps fuel 0 s0) as Hsw end.
  unfold allocBuf in Hthrow. rewrite Hthrow in Hsw. destruct Hsw as [_ Hsw].
  apply sweeps_frame in Hsw. destruct Hsw. done.
Qed.

(** *** The dirty flag *)

Lemma dirty_safe_refl s : dirty_safe s s.
Proof.
  exists []. split; [by rewrite app_nil_r|].
  intros i d Hd Hv Hdy. left. exists d. done.
Qed.

Lemma dirty_safe_trans s1 s2 s3 :
  dirty_safe s1 s2 -> dirty_safe s2 s3 -> dirty_safe s1 s3.
Proof.
  intros (evs1 & Ht1 & H1) (evs2 & Ht2 & H2). exists (evs1 ++ evs2).
  split; [by rewrite Ht2, Ht1, app_assoc|].
  intros i d Hd Hv Hdy.
  destruct (H1 i d Hd Hv Hdy) as [(d2 & Hd2 & Hv2 & Hdy2 & Hf2 & Hp2)|(f & pg & Hf & Hp & Hin)].
  - destruct (H2 i d2 Hd2 Hv2 Hdy2) as [(d3 & Hd3 & Hv3 & Hdy3 & Hf3 & Hp3)|(f & pg & Hf & Hp & Hin)].
    + left. exists d3. split_and!; try done; congruence.
    + right. exists f, pg. split_and!; try congruence. apply elem_of_app. by right.
  - right. exists f, pg. split_and!; try done. apply elem_of_app. by left.
Qed.

(** A step that touches at most the descriptor and the slot of frame [j],
    whose page it has written back if the frame was valid and dirty. *)
Lemma dirty_safe_at (j : nat) s s' evs :
  trace s' = trace s ++ evs ->
  (forall d, bufDescTable s !! j = Some d -> valid d = true -> dirty d = true ->
     dirty_kept j d s s' \/ written_back j d s evs) ->
  (forall i, i <> j -> bufDescTable s' !! i = bufDescTable s !! i /\
                       bufPool s' !! i = bufPool s !! i) ->
  dirty_safe s s'.
Proof.
  intros Ht Hj Hother. exists evs. split; [done|]. intros i d Hd Hv Hdy.
  destruct (decide (i = j)) as [->|Hne]; [by apply Hj|].
  left. destruct (Hother i Hne) as [E1 E2]. exists d. by rewrite E1, E2.
Qed.

Lemma dirty_safe_keep s s' evs :
  trace s' = trace s ++ evs ->
  (forall i d, bufDescTable s !! i = Some d -> valid d = true -> dirty d = true ->
     dirty_kept i d s s') ->
  dirty_safe s s'.
Proof. intros Ht H. exists evs. split; [done|]. intros i d ? ? ?. left. by apply H. Qed.

Lemma sweep_frame_dirty_safe s s' : sweep_frame s s' -> dirty_safe s s'.
Proof.
  intros [? Hds Hpool ? ? Ht ? ? ?]. exists []. split; [by rewrite Ht, app_nil_r|].
  intros i d Hd Hv Hdy. left.
  destruct (Forall2_lookup_l _ _ _ _ _ Hds Hd) as (d' & Hd' & [->| ->]);
    eexists; rewrite Hpool; split_and!; try done.
Qed.

Lemma sweep_frame_numbered s s' :
  sweep_frame s s' -> frames_numbered s -> frames_numbered s'.
Proof.
  intros [? Hds ? ? ? ? ? ? ?] Hnum i d' Hd'.
  destruct (Forall2_lookup_r _ _ _ _ _ Hds Hd') as (d & Hd & [->| ->]);
    by apply Hnum in Hd.
Qed.

Lemma lookup_insert_other {A} (l : list A) (j i : nat) (x : A) :
  i <> j -> <[j := x]> l !! i = l !! i.
Proof. intros. by apply list_lookup_insert_ne. Qed.

(** The iteration that leaves the loop. *)
Lemma allocBuf_last_dirty_safe n s r s' :
  allocBuf_loop 1 n s = Ok r s' ->
  dirty_safe s s' /\
  (frames_numbered s -> forall fr, r = Some fr ->
     exists d', bufDescTable s' !! N.to_nat fr = Some d' /\ dirty d' = false).
Proof.
  rewrite allocBuf_loop_S. cbn zeta.
  destruct (numBufs s =? 0); [done|].
  set (h := nextHand s).
  destruct (bufDescTable s !! N.to_nat h) as [d|] eqn:Hd; [|done].
  assert (Hlen : (N.to_nat h < length (bufDescTable s))%nat)
    by (eapply lookup_lt_Some; eauto).
  assert (Hfr : frames_numbered s -> N.to_nat (frameNo d) = N.to_nat h).
  { intros Hnum. rewrite (Hnum _ _ Hd). by rewrite N2Nat.id. }
  destruct (valid d) eqn:Hv.
  2:{ intros [= <- <-]. split.
      - apply (dirty_safe_at (N.to_nat h) _ _ []); cbn; [by rewrite app_nil_r| |].
        + intros d0 Hd0. congruence.
        + intros i Hne. by rewrite lookup_insert_other.
      - intros Hnum fr [= <-]. rewrite (Hfr Hnum). cbn.
        rewrite list_lookup_insert_eq by done. by eexists. }
  destruct (refbit d); [done|].
  destruct (pinCnt d =? 0)%Z.
  2:{ destruct (0 <? pinCnt d)%Z; [|done]. by destruct (wrap32 (n + 1) =? numBufs s). }
  destruct (dirty d) eqn:Hdy.
  2:{ intros [= <- <-]. split.
      - apply (dirty_safe_at (N.to_nat h) _ _ []); cbn; [by rewrite app_nil_r| |].
        + intros d0 Hd0. congruence.
        + intros i Hne. by rewrite lookup_insert_other.
      - intros Hnum fr [= <-]. rewrite (Hfr Hnum). cbn.
        rewrite list_lookup_insert_eq by done. by eexists. }
  destruct (bufPool s !! N.to_nat h) as [pg|] eqn:Hpg; [|done].
  destruct (file d) as [f|] eqn:Hf; [|done].
  destruct (hashTable s !! (Some f, pageNo d)).
  - intros [= <- <-]. split.
    + apply (dirty_safe_at (N.to_nat h) _ _ [EvWritePage f pg]); cbn; [done| |].
      * intros d0 Hd0 _ _. right. exists f, pg. simplify_eq.
        split_and!; try done. by apply list_elem_of_singleton.
      * intros i Hne. by rewrite lookup_insert_other.
    + intros Hnum fr [= <-]. rewrite (Hfr Hnum). cbn.
      rewrite list_lookup_insert_eq by done. by eexists.
  - intros [= <- <-]. split; [|done].
    apply (dirty_safe_at (N.to_nat h) _ _ [EvWritePage f pg]); cbn; [done| |].
    + intros d0 Hd0 _ _. right. exists f, pg. simplify_eq.
      split_and!; try done. by apply list_elem_of_singleton.
    + done.
Qed.

(** [allocBuf] as a whole. *)
Lemma allocBuf_dirty_safe fuel s s' :
  final_state (allocBuf fuel s) = Some s' -> dirty_safe s s'.
Proof.
  unfold allocBuf. pose proof (allocBuf_loop_sweeps fuel 0 s) as Hsw.
  destruct (allocBuf_loop fuel 0 s) as [r s1|e s1| |]; cbn; intros [= <-].
  - destruct Hsw as (s0 & n0 & Hrtc & Hlast).
    eapply dirty_safe_trans;
      [apply sweep_frame_dirty_safe, sweeps_frame, Hrtc
      |eapply allocBuf_last_dirty_safe, Hlast].
  - destruct Hsw as [_ Hrtc]. apply sweep_frame_dirty_safe, sweeps_frame, Hrtc.
Qed.

Lemma allocBuf_frame_clean fuel s fr s' :
  frames_numbered s -> allocBuf fuel s = Ok (Some fr) s' ->
  exists d', bufDescTable s' !! N.to_nat fr = Some d' /\ dirty d' = false.
Proof.
  unfold allocBuf. intros Hnum Hrun.
  pose proof (allocBuf_loop_sweeps fuel 0 s) as Hsw. rewrite Hrun in Hsw.
  destruct Hsw as (s0 & n0 & Hrtc & Hlast).
  eapply allocBuf_last_dirty_safe; [exact Hlast| |done].
  eapply sweep_frame_numbered; [apply sweeps_frame, Hrtc|done].
Qed.

(** What the callers of [allocBuf] do with the frame they were given. *)
Lemma caller_dirty_safe (j : nat) s s' evs :
  trace s' = trace s ++ evs ->
  (exists d, bufDescTable s !! j = Some d /\ dirty d = false) ->
  (forall i, i <> j -> bufDescTable s' !! i = bufDescTable s !! i /\
                       bufPool s' !! i = bufPool s !! i) ->
  dirty_safe s s'.
Proof.
  intros Ht (d & Hd & Hdy) Hother. apply (dirty_safe_at j _ _ evs); [done| |done].
  intros d0 Hd0. congruence.
Qed.

Lemma readPage_dirty_safe fuel (f : option N) p s s' :
  frames_numbered s ->
  final_state (readPage fuel f p s) = Some s' -> dirty_safe s s'.
Proof.
  intros Hnum. destruct f as [f|]; [|intros [= <-]; apply dirty_safe_refl].
  destruct (hashTable s !! (Some f, p)) as [fr|] eqn:Hk.
  - rewrite (readPage_hit _ _ _ fr) by done.
    destruct (bufDescTable s !! N.to_nat fr) as [d|] eqn:Hd; [|done].
    cbn. intros [= <-].
    apply (dirty_safe_at (N.to_nat fr) _ _ []); cbn; [by rewrite app_nil_r| |].
    + intros d0 Hd0 Hv Hdy. left. simplify_eq. unfold dirty_kept. cbn.
      eexists. rewrite list_lookup_insert_eq by (eapply lookup_lt_Some; eauto).
      done.
    + intros i Hne. by rewrite lookup_insert_other.
  - rewrite readPage_miss by done.
    pose proof (allocBuf_dirty_safe fuel s) as Hsafe.
    pose proof (allocBuf_frame_clean fuel s) as Hclean.
    destruct (allocBuf fuel s) as [[fr|] s1|e s1| |]; [|done| |done..].
    + specialize (Hsafe s1 eq_refl). specialize (Hclean fr s1 Hnum eq_refl).
      destruct (bufPool s1 !! N.to_nat fr) eqn:Hpool; [|done].
      cbn zeta. intros Hfin. eapply dirty_safe_trans; [exact Hsafe|].
      destruct (hashTable s1 !! (Some f, p)).
      * injection Hfin as <-.
        apply (caller_dirty_safe (N.to_nat fr) _ _ [EvReadPage f p]); cbn; [done..|].
        intros i Hne. by rewrite lookup_insert_other.
      * destruct Hclean as (d' & Hd' & Hdy'). rewrite Hd' in Hfin.
        injection Hfin as <-.
        apply (caller_dirty_safe (N.to_nat fr) _ _ [EvReadPage f p]);
          cbn; [done|by eauto|].
        intros i Hne. by rewrite !lookup_insert_other.
    + specialize (Hsafe s1 eq_refl). intros Hfin.
      assert (s' = s1 \/ s' = with_cerr BufferExceededException s1) as [->| ->]
        by (destruct e; cbn in Hfin; simplify_eq; auto).
      * done.
      * eapply dirty_safe_trans; [exact Hsafe|].
        apply (dirty_safe_keep _ _ []); cbn; [by rewrite app_nil_r|].
        intros i d ? ? ?. by exists d.
Qed.

Lemma allocPage_dirty_safe fuel (f : option N) s s' :
  frames_numbered s ->
  final_state (allocPage fuel f s) = Some s' -> dirty_safe s s'.
Proof.
  intros Hnum. destruct f as [f|]; [|intros [= <-]; apply dirty_safe_refl].
  rewrite allocPage_run. cbn zeta.
  set (pg := (file_allocatePage f (disk s)).1).
  set (s0 := with_ref_pageNo _ _).
  assert (H0 : dirty_safe s s0).
  { apply (dirty_safe_keep _ _ [EvAllocatePage f (page_number pg)]); [done|].
    intros i d ? ? ?. by exists d. }
  assert (Hnum0 : frames_numbered s0) by done.
  pose proof (allocBuf_dirty_safe fuel s0) as Hsafe.
  pose proof (allocBuf_frame_clean fuel s0) as Hclean.
  destruct (allocBuf fuel s0) as [[fr|] s1|e s1| |]; [|done| |done..].
  - specialize (Hsafe s1 eq_refl). specialize (Hclean fr s1 Hnum0 eq_refl).
    destruct (bufPool s1 !! N.to_nat fr) eqn:Hpool; [|done].
    intros Hfin. eapply dirty_safe_trans; [exact H0|].
    eapply dirty_safe_trans; [exact Hsafe|].
    destruct (hashTable s1 !! (Some f, page_number pg)).
    + injection Hfin as <-.
      apply (caller_dirty_safe (N.to_nat fr) _ _ []); cbn;
        [by rewrite app_nil_r|done|].
      intros i Hne. by rewrite lookup_insert_other.
    + destruct Hclean as (d' & Hd' & Hdy'). rewrite Hd' in Hfin.
      injection Hfin as <-.
      apply (caller_dirty_safe (N.to_nat fr) _ _ []);
        cbn; [by rewrite app_nil_r|by eauto|].
      intros i Hne. by rewrite !lookup_insert_other.
  - intros [= <-]. eapply dirty_safe_trans; [exact H0|]. by apply Hsafe.
Qed.

(** [unPinPage] only ever sets the flag. *)
Lemma unPinPage_keeps_dirty (f : option N) p (isDirty : bool) s s' :
  final_state (unPinPage f p isDirty s) = Some s' ->
  forall i d, bufDescTable s !! i = Some d -> dirty d = true ->
    exists d', bufDescTable s' !! i = Some d' /\ dirty d' = true.
Proof.
  destruct f as [f|]; [|intros [= <-]; eauto].
  rewrite unPinPage_run.
  destruct (hashTable s !! (Some f, p)) as [fr|]; [|intros [= <-]; eauto].
  destruct (bufDescTable s !! N.to_nat fr) as [d0|] eqn:Hd0; [|done].
  destruct (0 <? pinCnt d0)%Z.
  2:{ destruct (pinCnt d0 =? 0)%Z; intros [= <-]; eauto. }
  cbn. intros [= <-] i d Hd Hdy. cbn.
  destruct (decide (i = N.to_nat fr)) as [->|Hne].
  - rewrite list_lookup_insert_eq by (eapply lookup_lt_Some; eauto).
    eexists. split; [done|]. cbn. simplify_eq. rewrite Hdy. by destruct isDirty.
  - rewrite list_lookup_insert_ne by done. eauto.
Qed.

(** *** [flushFile] *)

(** The body of the loop for one frame, spelled out. *)
Lemma flushFile_frame_run f (i : N) s :
  flushFile_frame f i s =
  match bufDescTable s !! N.to_nat i with
  | None => Undefined
  | Some d =>
    if decide (file d = Some f) then
      if valid d then
        if (0 <? pinCnt d)%Z then
          Throw (PagePinnedException (file_filename f) (pageNo d) (frameNo d)) s
        else if dirty d then
          match bufPool s !! N.to_nat i with
          | None => Undefined
          | Some pg =>
            let s1 := with_disk (file_writePage f pg (disk s)) (EvWritePage f pg) s in
            match hashTable s !! (Some f, pageNo d) with
            | Some _ =>
              Ok true (with_descs (<[N.to_nat i := Clear d]> (bufDescTable s))
                         (with_hash (delete (Some f, pageNo d) (hashTable s)) s1))
            | None =>
              Ok false (with_cerr (HashNotFoundException (Some f) (pageNo d))
                          (with_descs (<[N.to_nat i := set_dirty false d]> (bufDescTable s)) s1))
            end
          end
        else
          match hashTable s !! (Some f, pageNo d) with
          | Some _ =>
            Ok true (with_descs (<[N.to_nat i := Clear d]> (bufDescTable s))
                       (with_hash (delete (Some f, pageNo d) (hashTable s)) s))
          | None => Ok false (with_cerr (HashNotFoundException (Some f) (pageNo d)) s)
          end
      else Throw (BadBufferException (frameNo d) (dirty d) (valid d) (refbit d)) s
    else Ok true s
  end.
Proof.
  unfold_monad. cbn.
  destruct (bufDescTable s !! N.to_nat i) as [d|] eqn:Hd; cbn; [|done].
  assert (Hlen : (N.to_nat i < length (bufDescTable s))%nat)
    by (eapply lookup_lt_Some; eauto).
  destruct (decide (file d = Some f)) as [Hf|]; [|done].
  destruct (valid d); [|done].
  destruct (0 <? pinCnt d)%Z; [done|].
  destruct (dirty d); cbn.
  - destruct (bufPool s !! N.to_nat i) as [pg|]; cbn; [|done].
    rewrite Hf. cbn. rewrite Hd. cbn.
    destruct (hashTable s !! (Some f, pageNo d)); cbn; [|done].
    rewrite list_lookup_insert_eq by done. cbn.
    by rewrite list_insert_insert_eq.
  - destruct (hashTable s !! (Some f, pageNo d)); cbn; [|done].
    by rewrite Hd.
Qed.

Lemma flushFile_frame_dirty_safe f (i : N) s s' :
  final_state (flushFile_frame f i s) = Some s' -> dirty_safe s s'.
Proof.
  rewrite flushFile_frame_run.
  destruct (bufDescTable s !! N.to_nat i) as [d|] eqn:Hd; [|done].
  assert (Hlen : (N.to_nat i < length (bufDescTable s))%nat)
    by (eapply lookup_lt_Some; eauto).
  destruct (decide (file d = Some f)) as [Hf|]; [|intros [= <-]; apply dirty_safe_refl].
  destruct (valid d); [|intros [= <-]; apply dirty_safe_refl].
  destruct (0 <? pinCnt d)%Z; [intros [= <-]; apply dirty_safe_refl|].
  destruct (dirty d) eqn:Hdy.
  - destruct (bufPool s !! N.to_nat i) as [pg|] eqn:Hpg; [|done].
    cbn zeta.
    assert (Hw : forall d0, bufDescTable s !! N.to_nat i = Some d0 ->
              written_back (N.to_nat i) d0 s [EvWritePage f pg]).
    { intros d0 Hd0. exists f, pg. simplify_eq. split_and!; try done.
      by apply list_elem_of_singleton. }
    destruct (hashTable s !! (Some f, pageNo d)); intros [= <-];
      apply (dirty_safe_at (N.to_nat i) _ _ [EvWritePage f pg]); cbn;
      try done; try (by intros; right; apply Hw);
      intros j Hne; by rewrite lookup_insert_other.
  - destruct (hashTable s !! (Some f, pageNo d)); intros [= <-].
    + apply (dirty_safe_at (N.to_nat i) _ _ []); cbn; [by rewrite app_nil_r| |].
      * intros d0 Hd0. congruence.
      * intros j Hne. by rewrite lookup_insert_other.
    + apply (dirty_safe_keep _ _ []); cbn; [by rewrite app_nil_r|].
      intros j d0 ? ? ?. by exists d0.
Qed.

Lemma flushFile_from_dirty_safe f n : forall (i : N) s s',
  final_state (flushFile_from n i f s) = Some s' -> dirty_safe s s'.
Proof.
  induction n as [|n IH]; intros i s s'; cbn [flushFile_from].
  { intros [= <-]. apply dirty_safe_refl. }
  unfold bind at 1. pose proof (flushFile_frame_dirty_safe f i s) as Hstep.
  destruct (flushFile_frame f i s) as [[] s1|e s1| |]; cbn in *; try done.
  - intros Hfin. eapply dirty_safe_trans; [by apply Hstep|]. by eapply IH.
  - intros [= <-]. by apply Hstep.
  - intros [= <-]. by apply Hstep.
Qed.

Lemma flushFile_dirty_safe (f : option N) s s' :
  final_state (flushFile f s) = Some s' -> dirty_safe s s'.
Proof.
  destruct f as [f|]; [|intros [= <-]; apply dirty_safe_refl].
  apply flushFile_from_dirty_safe.
Qed.

(** *** The destructor *)

Lemma destroy_frame_dirty_safe (i : N) s s' :
  final_state (destroy_frame i s) = Some s' -> dirty_safe s s'.
Proof.
  unfold_monad. cbn.
  destruct (bufDescTable s !! N.to_nat i) as [d|] eqn:Hd; cbn; [|done].
  assert (Hlen : (N.to_nat i < length (bufDescTable s))%nat)
    by (eapply lookup_lt_Some; eauto).
  destruct (valid d && dirty d); cbn; [|intros [= <-]; apply dirty_safe_refl].
  destruct (bufPool s !! N.to_nat i) as [pg|] eqn:Hpg; cbn; [|done].
  destruct (file d) as [f|] eqn:Hf; cbn; [|done].
  rewrite Hd. cbn. intros [= <-].
  apply (dirty_safe_at (N.to_nat i) _ _ [EvWritePage f pg]); cbn; [done| |].
  - intros d0 Hd0 _ _. right. exists f, pg. simplify_eq. split_and!; try done.
    by apply list_elem_of_singleton.
  - intros j Hne. by rewrite lookup_insert_other.
Qed.

Lemma destroy_from_dirty_safe n : forall (i : N) s s',
  final_state (destroy_from n i s) = Some s' -> dirty_safe s s'.
Proof.
  induction n as [|n IH]; intros i s s'; cbn [destroy_from].
  { intros [= <-]. apply dirty_safe_refl. }
  unfold bind at 1. pose proof (destroy_frame_dirty_safe i s) as Hstep.
  destruct (destroy_frame i s) as [[] s1|e s1| |]; cbn in *; try done.
  - intros Hfin. eapply dirty_safe_trans; [by apply Hstep|]. by eapply IH.
  - intros [= <-]. by apply Hstep.
Qed.

(** C7, as the code has it: over [readPage], [allocPage], [flushFile], the
    destructor and [allocBuf] itself, a valid frame whose dirty flag is set
    keeps it unless the page in its slot is written to its file during the
    operation; [unPinPage] never clears the flag, whatever its [dirty]
    argument.  ([disposePage] is the exception: it clears the flag and
    writes nothing.) *)
Theorem dirty_flag_kept_or_written_back s :
  (forall (f : option N) p (isDirty : bool) s',
     final_state (unPinPage f p isDirty s) = Some s' ->
     forall i d, bufDescTable s !! i = Some d -> dirty d = true ->
       exists d', bufDescTable s' !! i = Some d' /\ dirty d' = true) /\
  (frames_numbered s ->
     (forall fuel (f : option N) p s',
        final_state (readPage fuel f p s) = Some s' -> dirty_safe s s') /\
     (forall fuel (f : option N) s',
        final_state (allocPage fuel f s) = Some s' -> dirty_safe s s')) /\
  (forall fuel s', final_state (allocBuf fuel s) = Some s' -> dirty_safe s s') /\
  (forall (f : option N) s', final_state (flushFile f s) = Some s' -> dirty_safe s s') /\
  (forall s', final_state (destroy s) = Some s' -> dirty_safe s s').
Proof.
  split_and!.
  - intros f p isDirty s'. apply unPinPage_keeps_dirty.
  - intros Hnum. split.
    + intros fuel f p s'. by apply readPage_dirty_safe.
    + intros fuel f s'. by apply allocPage_dirty_safe.
  - intros fuel s'. apply allocBuf_dirty_safe.
  - intros f s'. apply flushFile_dirty_safe.
  - intros s'. apply destroy_from_dirty_safe.
Qed.

(** *** [flushFile], frame by frame *)

Lemma flushed_nil f s : flushed f [] s s.
Proof. split; try done. cbn. by rewrite app_nil_r. Qed.

Lemma flushed_app f fs1 fs2 s1 s2 s3 :
  flushed f fs1 s1 s2 -> flushed f fs2 s2 s3 -> flushed f (fs1 ++ fs2) s1 s3.
Proof.
  intros [] []. split; try congruence.
  - rewrite foldl_app. congruence.
  - rewrite flat_map_app, app_assoc. congruence.
  - rewrite flat_map_app. unfold apply_writes in *. rewrite foldl_app. congruence.
Qed.

Lemma wrap32_succ (n : nat) :
  N.of_nat (S n) < 2 ^ 32 -> wrap32 (N.of_nat n + 1) = N.of_nat (S n).
Proof. intros H. unfold wrap32. rewrite N.mod_small by lia. lia. Qed.

Lemma flushFile_from_spec f : forall rest prest pre ppre s,
  bufDescTable s = pre ++ rest ->
  bufPool s = ppre ++ prest ->
  length ppre = length pre ->
  length prest = length rest ->
  N.of_nat (length (pre ++ rest)) < 2 ^ 32 ->
  indexed f s ->
  match flushFile_from (length rest) (N.of_nat (length pre)) f s with
  | Ok _ s' =>
    Forall (fun d => ~ flush_stops f d) rest /\
    bufDescTable s' = pre ++ (flush_desc f <$> rest) /\
    flushed f (zip rest prest) s s'
  | Throw e s' =>
    exists done d rest',
      rest = done ++ d :: rest' /\
      Forall (fun d => ~ flush_stops f d) done /\
      flush_stops f d /\ e = flush_error f d /\
      bufDescTable s' = pre ++ (flush_desc f <$> done) ++ d :: rest' /\
      flushed f (zip done prest) s s'
  | _ => False
  end.
Proof.
  induction rest as [|d rest IH]; intros prest pre ppre s Hds Hpool Hlp Hlr Hlt Hidx.
  { cbn. split_and!; [done|by rewrite Hds|]. apply flushed_nil. }
  destruct prest as [|pg prest]; [done|].
  cbn [length flushFile_from]. unfold bind at 1. rewrite flushFile_frame_run.
  rewrite Nat2N.id.
  assert (Hd : bufDescTable s !! length pre = Some d)
    by (rewrite Hds; by apply list_lookup_middle).
  assert (Hpg : bufPool s !! length pre = Some pg)
    by (rewrite Hpool; by apply list_lookup_middle).
  rewrite Hd.
  assert (Hnext : wrap32 (N.of_nat (length pre) + 1) = N.of_nat (length (pre ++ [d]))).
  { rewrite length_app. cbn [length]. rewrite Nat.add_1_r. apply wrap32_succ.
    rewrite length_app in Hlt. cbn [length] in Hlt. lia. }
  rewrite Hnext.
  assert (Hlt' : forall x, N.of_nat (length ((pre ++ [x]) ++ rest)) < 2 ^ 32).
  { intros x. rewrite !length_app in *. cbn [length] in *. lia. }
  assert (Hlp' : forall x, length (ppre ++ [pg]) = length (pre ++ [x])).
  { intros x. rewrite !length_app. cbn. lia. }
  assert (Hlr' : length prest = length rest) by (cbn in Hlr; lia).
  (* what the rest of the loop gives, once frame [length pre] is done *)
  assert (Hrest : forall s1 x,
    bufDescTable s1 = pre ++ x :: rest -> bufPool s1 = bufPool s ->
    indexed f s1 -> ~ flush_stops f d -> x = flush_desc f d ->
    flushed f [(d, pg)] s s1 ->
    match flushFile_from (length rest) (N.of_nat (length (pre ++ [d]))) f s1 with
    | Ok _ s' =>
      Forall (fun d => ~ flush_stops f d) (d :: rest) /\
      bufDescTable s' = pre ++ (flush_desc f <$> d :: rest) /\
      flushed f (zip (d :: rest) (pg :: prest)) s s'
    | Throw e s' =>
      exists done d0 rest',
        d :: rest = done ++ d0 :: rest' /\
        Forall (fun d => ~ flush_stops f d) done /\
        flush_stops f d0 /\ e = flush_error f d0 /\
        bufDescTable s' = pre ++ (flush_desc f <$> done) ++ d0 :: rest' /\
        flushed f (zip done (pg :: prest)) s s'
    | _ => False
    end).
  { intros s1 x Hds1 Hpool1 Hidx1 Hns -> Hfl.
    specialize (IH prest (pre ++ [flush_desc f d]) (ppre ++ [pg]) s1).
    replace (length (pre ++ [flush_desc f d])) with (length (pre ++ [d])) in IH
      by (rewrite !length_app; done).
    assert (E1 : bufDescTable s1 = (pre ++ [flush_desc f d]) ++ rest)
      by (by rewrite Hds1, <- app_assoc).
    assert (E2 : bufPool s1 = (ppre ++ [pg]) ++ prest)
      by (by rewrite Hpool1, Hpool, <- app_assoc).
    specialize (IH E1 E2 (Hlp' _) Hlr' (Hlt' _) Hidx1).
    destruct (flushFile_from _ _ _ _) as [[] s'|e s'| |]; [| |done..].
    - destruct IH as (Hall & Hds' & Hfl'). split_and!.
      + by constructor.
      + rewrite Hds', <- app_assoc. done.
      + apply (flushed_app f [(d, pg)] _ _ _ _ Hfl Hfl').
    - destruct IH as (done & d0 & rest' & -> & Hall & Hst & -> & Hds' & Hfl').
      exists (d :: done), d0, rest'. split_and!; try done.
      + by constructor.
      + rewrite Hds', <- app_assoc. done.
      + apply (flushed_app f [(d, pg)] _ _ _ _ Hfl Hfl'). }
  assert (Hstop : forall s', flush_stops f d ->
    exists done d0 rest',
      d :: rest = done ++ d0 :: rest' /\
      Forall (fun d => ~ flush_stops f d) done /\
      flush_stops f d0 /\ flush_error f d = flush_error f d0 /\
      bufDescTable s = pre ++ (flush_desc f <$> done) ++ d0 :: rest' /\
      flushed f (zip done (pg :: prest)) s s).
  { intros _ Hst. exists [], d, rest. split_and!; try done. apply flushed_nil. }
  destruct (decide (file d = Some f)) as [Hf|Hf].
  2:{ apply (Hrest s d); try done.
      - intros [? _]. done.
      - unfold flush_desc. by rewrite decide_False.
      - split; try done; cbn; unfold flush_key, flush_write; cbn;
          rewrite ?decide_False by done; try done. by rewrite app_nil_r. }
  destruct (valid d) eqn:Hv.
  2:{ unfold flush_error in *. rewrite Hv in *. apply (Hstop s). split; auto. }
  destruct (0 <? pinCnt d)%Z eqn:Hpin.
  { unfold flush_error in *. rewrite Hv in *. apply (Hstop s).
    apply Z.ltb_lt in Hpin. split; auto. }
  apply Z.ltb_ge in Hpin.
  assert (Hns : ~ flush_stops f d).
  { intros [_ [?|?]]; [congruence|lia]. }
  assert (Hk := Hidx _ _ Hd Hf Hv).
  assert (Hins : <[length pre := Clear d]> (bufDescTable s) = pre ++ flush_desc f d :: rest).
  { rewrite Hds. unfold flush_desc. rewrite decide_True by done.
    replace (length pre) with (length pre + 0)%nat at 1 by lia.
    by rewrite insert_app_r. }
  assert (Hidx1 : forall s1,
    bufDescTable s1 = <[length pre := Clear d]> (bufDescTable s) ->
    hashTable s1 = delete (Some f, pageNo d) (hashTable s) -> indexed f s1).
  { intros s1 E1 E2 i di Hdi Hfi Hvi. rewrite E1 in Hdi. rewrite E2.
    destruct (decide (i = length pre)) as [->|Hne].
    - rewrite list_lookup_insert_eq in Hdi by (eapply lookup_lt_Some; eauto).
      by simplify_eq.
    - rewrite list_lookup_insert_ne in Hdi by done.
      assert (Hki := Hidx _ _ Hdi Hfi Hvi).
      rewrite lookup_delete_ne; [done|]. intros [= Heq].
      rewrite <- Heq, Hk in Hki. injection Hki as Hki. lia. }
  rewrite Hk. destruct (dirty d) eqn:Hdy.
  - rewrite Hpg. cbn zeta.
    apply (Hrest _ (flush_desc f d)); try done.
    + by apply Hidx1.
    + split; try done; cbn; unfold flush_key, flush_write; cbn;
        rewrite ?decide_True, ?Hdy by done; try done.
  - apply (Hrest _ (flush_desc f d)); try done.
    + by apply Hidx1.
    + split; try done; cbn; unfold flush_key, flush_write; cbn;
        rewrite ?decide_True, ?Hdy by done; try done. by rewrite app_nil_r.
Qed.

Lemma foldl_flush_key_None f fs : forall (h : gmap (option N * N) N) k,
  h !! k = None -> foldl (flush_key f) h fs !! k = None.
Proof.
  induction fs as [|x fs IH]; intros h k Hk; [done|].
  cbn. apply IH. unfold flush_key. destruct (decide _); [|done].
  rewrite lookup_delete. by destruct (decide _).
Qed.

Lemma foldl_flush_key_removed f fs : forall (h : gmap (option N * N) N) x,
  x ∈ fs -> file x.1 = Some f ->
  foldl (flush_key f) h fs !! (Some f, pageNo x.1) = None.
Proof.
  induction fs as [|y fs IH]; intros h x Hin Hf; [by apply elem_of_nil in Hin|].
  apply elem_of_cons in Hin as [->|Hin]; [|by apply IH].
  cbn. apply foldl_flush_key_None. unfold flush_key. rewrite decide_True by done.
  apply lookup_delete_eq.
Qed.

Lemma foldl_flush_key_other f fs : forall (h : gmap (option N * N) N) k,
  (forall x, x ∈ fs -> file x.1 = Some f -> k <> (Some f, pageNo x.1)) ->
  foldl (flush_key f) h fs !! k = h !! k.
Proof.
  induction fs as [|y fs IH]; intros h k Hne; [done|].
  cbn. rewrite IH by (intros x Hx; apply Hne; by right).
  unfold flush_key. destruct (decide _) as [Hf|]; [|done].
  apply lookup_delete_ne. intros Heq. by apply (Hne y (list_elem_of_here _ _) Hf).
Qed.

Lemma elem_of_zip_l {A B} (l : list A) (k : list B) x :
  x ∈ l -> (length l <= length k)%nat -> exists y, (x, y) ∈ zip l k.
Proof.
  intros [i Hi]%list_elem_of_lookup Hlen.
  destruct (lookup_lt_is_Some_2 k i) as [y Hy].
  { apply lookup_lt_Some in Hi. lia. }
  exists y. apply list_elem_of_lookup. exists i.
  apply lookup_zip_with_Some. eauto.
Qed.

(** C6: [flushFile] on a non-null file goes through the frames in ascending
    order.  The first frame of the file that is not valid stops it with
    [BadBuffer], the first that is valid and pinned stops it with
    [PagePinned]; every frame of the file before that point (all of them, if
    the flush returns) has had its page written back if it was dirty, its
    index entry removed and its descriptor cleared, and nothing else has
    changed.  The index is assumed to hold the entries of the valid frames
    of the file. *)
Theorem flushFile_per_frame f s :
  well_formed s -> indexed f s ->
  match flushFile (Some f) s with
  | Ok _ s' =>
    Forall (fun d => ~ flush_stops f d) (bufDescTable s) /\
    bufDescTable s' = flush_desc f <$> bufDescTable s /\
    flushed f (zip (bufDescTable s) (bufPool s)) s s' /\
    (forall d, d ∈ bufDescTable s -> file d = Some f ->
       hashTable s' !! (Some f, pageNo d) = None)
  | Throw e s' =>
    exists done d rest,
      bufDescTable s = done ++ d :: rest /\
      Forall (fun d => ~ flush_stops f d) done /\
      flush_stops f d /\
      e = (if valid d
           then PagePinnedException (file_filename f) (pageNo d) (frameNo d)
           else BadBufferException (frameNo d) (dirty d) (valid d) (refbit d)) /\
      bufDescTable s' = (flush_desc f <$> done) ++ d :: rest /\
      flushed f (zip done (bufPool s)) s s' /\
      (forall d0, d0 ∈ done -> file d0 = Some f ->
         hashTable s' !! (Some f, pageNo d0) = None)
  | _ => False
  end.
Proof.
  intros [Hnb Hld Hlp _] Hidx. unfold flushFile, bind, gets.
  rewrite <- Hld.
  pose proof (flushFile_from_spec f (bufDescTable s) (bufPool s) [] [] s) as H.
  cbn [length app] in H. change (N.of_nat 0) with 0 in H.
  specialize (H eq_refl eq_refl eq_refl).
  assert (Hl : length (bufPool s) = length (bufDescTable s)) by congruence.
  assert (Hlt : N.of_nat (length (bufDescTable s)) < 2 ^ 32)
    by (by rewrite Hld, N2Nat.id).
  specialize (H Hl Hlt Hidx).
  destruct (flushFile_from _ _ _ _) as [[] s'|e s'| |]; [| |done..].
  - destruct H as (Hall & Hds & Hfl). split_and!; try done.
    intros d Hin Hf.
    destruct (elem_of_zip_l _ (bufPool s) _ Hin) as [pg Hpg]; [lia|].
    rewrite (fl_hash _ _ _ _ Hfl).
    by apply (foldl_flush_key_removed f _ _ (d, pg)).
  - destruct H as (done & d & rest & Hds & Hall & Hst & He & Hds' & Hfl).
    exists done, d, rest. split_and!; try done.
    intros d0 Hin Hf.
    destruct (elem_of_zip_l _ (bufPool s) _ Hin) as [pg Hpg].
    { rewrite Hl, Hds, length_app. lia. }
    rewrite (fl_hash _ _ _ _ Hfl).
    by apply (foldl_flush_key_removed f _ _ (d0, pg)).
Qed.

(** *** What every reachable state satisfies *)

(** Replacing the descriptor of frame [i], the other frames keeping their
    index entries. *)
Lemma sound_update (i : nat) d d' s s' :
  sound s ->
  numBufs s' = numBufs s ->
  length (bufPool s') = length (bufPool s) ->
  bufDescTable s !! i = Some d ->
  bufDescTable s' = <[i := d']> (bufDescTable s) ->
  frameNo d' = frameNo d ->
  (valid d' = false -> file d' = None) ->
  (forall f, file d' = Some f -> valid d' = true ->
     hashTable s' !! (Some f, pageNo d') = Some (N.of_nat i)) ->
  (forall j dj f, j <> i -> bufDescTable s !! j = Some dj ->
     file dj = Some f -> valid dj = true ->
     hashTable s !! (Some f, pageNo dj) = Some (N.of_nat j) ->
     hashTable s' !! (Some f, pageNo dj) = Some (N.of_nat j)) ->
  sound s'.
Proof.
  intros [[Hnb Hld Hlp Hnum] Hidx Hfree] Enb Elp Hd Eds Hfr Hfree' Hidx' Hothers.
  assert (Hlen : (i < length (bufDescTable s))%nat) by (eapply lookup_lt_Some; eauto).
  assert (Hcase : forall j dj, bufDescTable s' !! j = Some dj ->
            (j = i /\ dj = d') \/ (j <> i /\ bufDescTable s !! j = Some dj)).
  { intros j dj. rewrite Eds. destruct (decide (j = i)) as [->|Hne].
    - rewrite list_lookup_insert_eq by done. intros [= <-]. by left.
    - rewrite list_lookup_insert_ne by done. by right. }
  split; [split|..].
  - by rewrite Enb.
  - by rewrite Eds, length_insert, Enb.
  - by rewrite Elp, Enb.
  - intros j dj [[-> ->]|[Hne Hdj]]%Hcase.
    + rewrite Hfr. by apply Hnum.
    + by apply Hnum.
  - intros f j dj [[-> ->]|[Hne Hdj]]%Hcase Hf Hv.
    + by apply Hidx'.
    + apply Hothers; try done. by apply Hidx.
  - intros j dj [[-> ->]|[Hne Hdj]]%Hcase Hv; [by apply Hfree'|by eapply Hfree].
Qed.

(** Changing neither the descriptors nor the index. *)
Lemma sound_same s s' :
  sound s ->
  numBufs s' = numBufs s ->
  length (bufPool s') = length (bufPool s) ->
  bufDescTable s' = bufDescTable s ->
  hashTable s' = hashTable s ->
  sound s'.
Proof.
  intros [[Hnb Hld Hlp Hnum] Hidx Hfree] Enb Elp Eds Eh.
  split; [split|..]; unfold frames_numbered, indexed in *;
    rewrite ?Enb, ?Elp, ?Eds, ?Eh; done.
Qed.

Lemma sweep_frame_sound s s' : sweep_frame s s' -> sound s -> sound s'.
Proof.
  intros [Enb Hds Epool Eh _ _ _ _ _] [[Hnb Hld Hlp Hnum] Hidx Hfree].
  assert (Hback : forall j dj', bufDescTable s' !! j = Some dj' ->
            exists dj, bufDescTable s !! j = Some dj /\ frameNo dj' = frameNo dj /\
              file dj' = file dj /\ pageNo dj' = pageNo dj /\
              valid dj' = valid dj /\ pinCnt dj' = pinCnt dj).
  { intros j dj' Hdj'.
    destruct (Forall2_lookup_r _ _ _ _ _ Hds Hdj') as (dj & Hdj & [->| ->]);
      by exists dj. }
  split; [split|..].
  - by rewrite Enb.
  - by rewrite <- (Forall2_length _ _ _ Hds), Enb.
  - by rewrite Epool, Enb.
  - intros j dj' (dj & Hdj & -> & _)%Hback. by apply Hnum.
  - intros f j dj' (dj & Hdj & _ & Ef & Ep & Ev & _)%Hback Hf Hv.
    rewrite Eh, Ep. apply (Hidx f j dj); congruence.
  - intros j dj' (dj & Hdj & _ & Ef & _ & Ev & _)%Hback Hv.
    rewrite Ef. eapply Hfree; [done|congruence].
Qed.

(** Deleting the key that names frame [i] does not touch the entries of the
    other valid frames. *)
Lemma delete_keeps_others (h : gmap (option N * N) N) k (i j : nat) k' :
  h !! k = Some (N.of_nat i) -> j <> i -> h !! k' = Some (N.of_nat j) ->
  delete k h !! k' = Some (N.of_nat j).
Proof.
  intros Hk Hne Hk'. rewrite lookup_delete_ne; [done|].
  intros ->. rewrite Hk in Hk'. injection Hk' as Hk'. lia.
Qed.

Lemma allocBuf_last_sound n s r s' :
  sound s -> allocBuf_loop 1 n s = Ok r s' ->
  sound s' /\ forall fr, r = Some fr -> is_Some (bufDescTable s' !! N.to_nat fr).
Proof.
  intros Hs. rewrite allocBuf_loop_S. cbn zeta.
  destruct (numBufs s =? 0); [done|].
  set (h := nextHand s).
  destruct (bufDescTable s !! N.to_nat h) as [d|] eqn:Hd; [|done].
  assert (Hlen : (N.to_nat h < length (bufDescTable s))%nat)
    by (eapply lookup_lt_Some; eauto).
  assert (Hfr : N.to_nat (frameNo d) = N.to_nat h).
  { rewrite (wf_frameNo _ (snd_wf _ Hs) _ _ Hd). by rewrite N2Nat.id. }
  assert (Hres : forall s1 d1, bufDescTable s1 = <[N.to_nat h := d1]> (bufDescTable s) ->
            is_Some (bufDescTable s1 !! N.to_nat (frameNo d))).
  { intros s1 d1 ->. rewrite Hfr. apply lookup_lt_is_Some_2. by rewrite length_insert. }
  destruct (valid d) eqn:Hv.
  2:{ intros [= <- <-]. split; [|intros fr [= <-]; by eapply Hres].
      assert (Hnone := snd_free _ Hs _ _ Hd Hv).
      eapply (sound_update (N.to_nat h) d); try done; cbn; try done.
      intros f. by rewrite Hnone. }
  destruct (refbit d); [done|].
  destruct (pinCnt d =? 0)%Z.
  2:{ destruct (0 <? pinCnt d)%Z; [|done]. by destruct (wrap32 (n + 1) =? numBufs s). }
  destruct (dirty d) eqn:Hdy.
  2:{ intros [= <- <-]. split; [|intros fr [= <-]; by eapply Hres].
      eapply (sound_update (N.to_nat h) d); try done; cbn; done. }
  destruct (bufPool s !! N.to_nat h) as [pg|] eqn:Hpg; [|done].
  destruct (file d) as [f|] eqn:Hf; [|done].
  assert (Hk := snd_indexed _ Hs f _ _ Hd Hf Hv).
  rewrite Hk. intros [= <- <-]. split; [|intros fr [= <-]; by eapply Hres].
  eapply (sound_update (N.to_nat h) d); try done; cbn; try done.
  intros j dj g Hne _ _ _ Hkj. by eapply delete_keeps_others.
Qed.

Lemma allocBuf_sound fuel s s' :
  sound s -> final_state (allocBuf fuel s) = Some s' ->
  sound s' /\ forall fr, allocBuf fuel s = Ok (Some fr) s' ->
                is_Some (bufDescTable s' !! N.to_nat fr).
Proof.
  unfold allocBuf. intros Hs. pose proof (allocBuf_loop_sweeps fuel 0 s) as Hsw.
  destruct (allocBuf_loop fuel 0 s) as [r s1|e s1| |]; cbn; intros [= <-].
  - destruct Hsw as (s0 & n0 & Hrtc & Hlast).
    assert (Hs0 : sound s0) by (eapply sweep_frame_sound; [apply sweeps_frame|]; done).
    destruct (allocBuf_last_sound _ _ _ _ Hs0 Hlast) as [Hs1 Hfr].
    split; [done|]. intros fr [= ->]. by apply Hfr.
  - destruct Hsw as [_ Hrtc]. split; [|done].
    eapply sweep_frame_sound; [apply sweeps_frame|]; done.
Qed.

(** The frame a caller of [allocBuf] fills in: slot, index entry and
    descriptor. *)
Lemma sound_load f p (fr : N) d pg s :
  sound s -> hashTable s !! (Some f, p) = None ->
  bufDescTable s !! N.to_nat fr = Some d ->
  forall s', numBufs s' = numBufs s ->
    bufPool s' = <[N.to_nat fr := pg]> (bufPool s) ->
    hashTable s' = <[(Some f, p) := fr]> (hashTable s) ->
    bufDescTable s' = <[N.to_nat fr := Set_ (Some f) p d]> (bufDescTable s) ->
    sound s'.
Proof.
  intros Hs Hk Hd s' Enb Epool Eh Eds.
  eapply (sound_update (N.to_nat fr) d); try done.
  - by rewrite Epool, length_insert.
  - cbn. intros g [= <-] _. rewrite Eh, N2Nat.id. apply lookup_insert_eq.
  - intros j dj g Hne _ _ _ Hkj. rewrite Eh. rewrite lookup_insert_ne; [done|].
    intros Heq. rewrite <- Heq in Hkj. congruence.
Qed.

Lemma readPage_sound fuel (f : option N) p s s' :
  sound s -> final_state (readPage fuel f p s) = Some s' -> sound s'.
Proof.
  intros Hs. destruct f as [f|]; [|by intros [= <-]].
  destruct (hashTable s !! (Some f, p)) as [fr|] eqn:Hk.
  - rewrite (readPage_hit _ _ _ fr) by done.
    destruct (bufDescTable s !! N.to_nat fr) as [d|] eqn:Hd; [|done].
    cbn. intros [= <-].
    eapply (sound_update (N.to_nat fr) d); try done; cbn; try done.
    + apply (snd_free _ Hs _ _ Hd).
    + intros g. apply (snd_indexed _ Hs g _ _ Hd).
  - rewrite readPage_miss by done.
    pose proof (allocBuf_sound fuel s) as Hsnd.
    destruct (allocBuf fuel s) as [[fr|] s1|e s1| |]; [|done| |done..].
    + destruct (Hsnd s1 Hs eq_refl) as [Hs1 _].
      destruct (bufPool s1 !! N.to_nat fr) eqn:Hpool; [|done]. cbn zeta.
      destruct (hashTable s1 !! (Some f, p)) eqn:Hk1.
      * intros [= <-]. eapply (sound_same s1); try done; cbn. by rewrite length_insert.
      * destruct (bufDescTable s1 !! N.to_nat fr) as [d|] eqn:Hd; [|done].
        intros [= <-]. by eapply (sound_load f p fr d _ s1).
    + destruct (Hsnd s1 Hs eq_refl) as [Hs1 _]. intros Hfin.
      assert (s' = s1 \/ s' = with_cerr BufferExceededException s1) as [->| ->]
        by (destruct e; cbn in Hfin; simplify_eq; auto); [done|].
      by eapply (sound_same s1).
Qed.

Lemma allocPage_sound fuel (f : option N) s s' :
  sound s -> final_state (allocPage fuel f s) = Some s' -> sound s'.
Proof.
  intros Hs. destruct f as [f|]; [|by intros [= <-]].
  rewrite allocPage_run. cbn zeta.
  set (pg := (file_allocatePage f (disk s)).1).
  set (s0 := with_ref_pageNo _ _).
  assert (Hs0 : sound s0) by (by eapply (sound_same s)).
  pose proof (allocBuf_sound fuel s0) as Hsnd.
  destruct (allocBuf fuel s0) as [[fr|] s1|e s1| |]; [|done| |done..].
  - destruct (Hsnd s1 Hs0 eq_refl) as [Hs1 _].
    destruct (bufPool s1 !! N.to_nat fr) eqn:Hpool; [|done].
    destruct (hashTable s1 !! (Some f, page_number pg)) eqn:Hk1.
    + intros [= <-]. eapply (sound_same s1); try done; cbn. by rewrite length_insert.
    + destruct (bufDescTable s1 !! N.to_nat fr) as [d|] eqn:Hd; [|done].
      intros [= <-]. by eapply (sound_load f (page_number pg) fr d _ s1).
  - intros [= <-]. by apply (Hsnd s1 Hs0).
Qed.

Lemma unPinPage_sound (f : option N) p (isDirty : bool) s s' :
  sound s -> final_state (unPinPage f p isDirty s) = Some s' -> sound s'.
Proof.
  intros Hs. destruct f as [f|]; [|by intros [= <-]].
  rewrite unPinPage_run.
  destruct (hashTable s !! (Some f, p)) as [fr|]; [|by intros [= <-]].
  destruct (bufDescTable s !! N.to_nat fr) as [d|] eqn:Hd; [|done].
  destruct (0 <? pinCnt d)%Z eqn:Hpos.
  2:{ by destruct (pinCnt d =? 0)%Z; intros [= <-]. }
  apply Z.ltb_lt in Hpos. cbn. intros [= <-].
  eapply (sound_update (N.to_nat fr) d); try done; cbn; try done.
  - apply (snd_free _ Hs _ _ Hd).
  - intros g. apply (snd_indexed _ Hs g _ _ Hd).
Qed.

Lemma flushFile_frame_sound f (i : N) s s' :
  sound s -> final_state (flushFile_frame f i s) = Some s' -> sound s'.
Proof.
  intros Hs. rewrite flushFile_frame_run.
  destruct (bufDescTable s !! N.to_nat i) as [d|] eqn:Hd; [|done].
  destruct (decide (file d = Some f)) as [Hf|]; [|by intros [= <-]].
  destruct (valid d) eqn:Hv; [|by intros [= <-]].
  destruct (0 <? pinCnt d)%Z; [by intros [= <-]|].
  assert (Hk := snd_indexed _ Hs f _ _ Hd Hf Hv). rewrite N2Nat.id in Hk.
  rewrite Hk.
  assert (Hclear : forall s1, numBufs s1 = numBufs s -> bufPool s1 = bufPool s ->
            bufDescTable s1 = <[N.to_nat i := Clear d]> (bufDescTable s) ->
            hashTable s1 = delete (Some f, pageNo d) (hashTable s) -> sound s1).
  { intros s1 Enb Epool Eds Eh.
    eapply (sound_update (N.to_nat i) d); try done; [by rewrite Epool|].
    intros j dj g Hne _ _ _ Hkj. rewrite Eh.
    eapply delete_keeps_others; [|done..]. by rewrite N2Nat.id. }
  destruct (dirty d).
  - destruct (bufPool s !! N.to_nat i); [|done]. intros [= <-]. by apply Hclear.
  - intros [= <-]. by apply Hclear.
Qed.

Lemma flushFile_sound (f : option N) s s' :
  sound s -> final_state (flushFile f s) = Some s' -> sound s'.
Proof.
  destruct f as [f|]; [|by intros ? [= <-]].
  unfold flushFile, bind, gets. generalize (N.to_nat (numBufs s)) 0.
  intros n. revert s s'.
  induction n as [|n IH]; intros s s' i Hs; cbn [flushFile_from];
    [by intros [= <-]|].
  unfold bind at 1. pose proof (flushFile_frame_sound f i s) as Hstep.
  destruct (flushFile_frame f i s) as [[] s1|e s1| |]; cbn in *; try done.
  - intros Hfin. eapply IH; [|exact Hfin]. by apply Hstep.
  - intros [= <-]. by apply Hstep.
  - intros [= <-]. by apply Hstep.
Qed.

Lemma disposePage_sound (f : option N) p s s' :
  sound s -> final_state (disposePage f p s) = Some s' -> sound s'.
Proof.
  intros Hs. destruct f as [f|]; [|by intros [= <-]].
  rewrite disposePage_run.
  destruct (hashTable s !! (Some f, p)) as [fr|] eqn:Hk.
  2:{ intros [= <-]. by eapply (sound_same s). }
  destruct (bufDescTable s !! N.to_nat fr) as [d|] eqn:Hd; [|done].
  intros [= <-].
  eapply (sound_update (N.to_nat fr) d); try done; cbn; try done.
  intros j dj g Hne _ _ _ Hkj.
  eapply delete_keeps_others; [|done..]. by rewrite N2Nat.id.
Qed.

Lemma BufMgr_new_sound bufs (dk : Disk) :
  bufs < 2 ^ 32 -> sound (BufMgr_new bufs dk).
Proof.
  intros Hlt.
  assert (Hd : forall i d, bufDescTable (BufMgr_new bufs dk) !! i = Some d ->
            d = mkBufDesc (N.of_nat i) None INVALID_NUMBER 0 false false false).
  { intros i d. cbn. rewrite list_lookup_fmap.
    destruct (seq 0 (N.to_nat bufs) !! i) as [j|] eqn:Hj; [|done].
    apply lookup_seq in Hj as [-> _]. by intros [= <-]. }
  split; [split|..]; cbn.
  - done.
  - by rewrite length_fmap, length_seq.
  - by rewrite length_replicate.
  - intros i d ->%Hd. done.
  - intros f i d ->%Hd. done.
  - intros i d ->%Hd. done.
Qed.

(** Every reachable state is sound. *)
Lemma reachable_sound s : reachable s -> sound s.
Proof.
  induction 1 as [bufs dk _ Hlt| | | | |].
  - by apply BufMgr_new_sound.
  - by eapply readPage_sound.
  - by eapply unPinPage_sound.
  - by eapply allocPage_sound.
  - by eapply flushFile_sound.
  - by eapply disposePage_sound.
Qed.

(** In particular the assumptions of the theorems on [flushFile] and on
    the dirty flag hold in every reachable state. *)
Lemma reachable_ready s f :
  reachable s -> well_formed s /\ indexed f s /\ frames_numbered s.
Proof.
  intros [Hwf Hidx _]%reachable_sound. split_and!; [done|apply Hidx|apply Hwf].
Qed.

(** *** Fuel *)

(** More fuel does not change a run that has ended. *)
Lemma allocBuf_loop_fuel_mono fuel : forall fuel' n s,
  (fuel <= fuel')%nat -> allocBuf_loop fuel n s <> OutOfFuel ->
  allocBuf_loop fuel' n s = allocBuf_loop fuel n s.
Proof.
  induction fuel as [|fuel IH]; intros fuel' n s Hle; [done|].
  destruct fuel' as [|fuel']; [lia|].
  rewrite !allocBuf_loop_S. cbn zeta.
  destruct (numBufs s =? 0); [done|].
  destruct (bufDescTable s !! N.to_nat (nextHand s)) as [d|]; [|done].
  destruct (valid d); [|done].
  destruct (refbit d); [apply IH; lia|].
  destruct (pinCnt d =? 0)%Z; [done|].
  destruct (0 <? pinCnt d)%Z; [|apply IH; lia].
  destruct (wrap32 (n + 1) =? numBufs s); [done|apply IH; lia].
Qed.

Lemma refbits_set_clear l : forall (i : nat) d,
  l !! i = Some d -> refbit d = true ->
  (refbits_set (<[i := set_refbit false d]> l) + 1 = refbits_set l)%nat.
Proof.
  unfold refbits_set.
  induction l as [|x l IH]; intros [|i] d Hd Hr; try done.
  - injection Hd as ->. cbn. rewrite Hr. lia.
  - specialize (IH i d Hd Hr). cbn [insert list_insert sum_list_with].
    rewrite <- IH. symmetry. apply Nat.add_assoc.
Qed.

Lemma refbits_set_le l : (refbits_set l <= length l)%nat.
Proof.
  unfold refbits_set. induction l as [|x l IH]; cbn; [done|].
  destruct (refbit x); lia.
Qed.

(** With no negative pin count the loop ends: every iteration that stays in
    the loop clears a reference bit or counts a pinned frame. *)
Lemma allocBuf_loop_terminates fuel : forall n s,
  (forall i d, bufDescTable s !! i = Some d -> (0 <= pinCnt d)%Z) ->
  n < numBufs s -> numBufs s < 2 ^ 32 ->
  (refbits_set (bufDescTable s) + N.to_nat (numBufs s - n) <= fuel)%nat ->
  allocBuf_loop fuel n s <> OutOfFuel.
Proof.
  induction fuel as [|fuel IH]; intros n s Hpin Hn Hnb Hfuel; [lia|].
  rewrite allocBuf_loop_S. cbn zeta.
  destruct (numBufs s =? 0); [done|].
  destruct (bufDescTable s !! N.to_nat (nextHand s)) as [d|] eqn:Hd; [|done].
  destruct (valid d); [|done].
  destruct (refbit d) eqn:Hr.
  { apply IH; cbn -[refbits_set]; try done.
    - intros i di Hdi. destruct (decide (i = N.to_nat (nextHand s))) as [->|Hne].
      + rewrite list_lookup_insert_eq in Hdi by (eapply lookup_lt_Some; eauto).
        injection Hdi as <-. cbn. by eapply Hpin.
      + rewrite list_lookup_insert_ne in Hdi by done. by eapply Hpin.
    - pose proof (refbits_set_clear _ _ _ Hd Hr). lia. }
  destruct (pinCnt d =? 0)%Z eqn:Hz.
  { destruct (dirty d); [|done].
    destruct (bufPool s !! N.to_nat (nextHand s)); [|done].
    destruct (file d); [|done].
    by destruct (hashTable s !! (Some n0, pageNo d)). }
  apply Z.eqb_neq in Hz.
  destruct (0 <? pinCnt d)%Z eqn:Hpos.
  2:{ apply Z.ltb_ge in Hpos. pose proof (Hpin _ _ Hd). lia. }
  assert (Hw : wrap32 (n + 1) = n + 1) by (unfold wrap32; apply N.mod_small; lia).
  rewrite Hw. destruct (n + 1 =? numBufs s) eqn:Heq; [done|].
  apply N.eqb_neq in Heq.
  apply IH; cbn [bufDescTable numBufs with_hand]; try done; lia.
Qed.

(** In a well-formed state with no negative pin count, [2 * numBufs]
    iterations are enough. *)
Lemma allocBuf_terminates s :
  well_formed s -> pins_nonneg s -> 0 < numBufs s ->
  allocBuf (2 * N.to_nat (numBufs s)) s <> OutOfFuel.
Proof.
  intros [Hnb Hld _ _] Hpin Hpos. apply allocBuf_loop_terminates; try done.
  pose proof (refbits_set_le (bufDescTable s)). lia.
Qed.

(** ** Further properties of the code *)

(** *** The clock hand *)

Lemma wrap32_small (x : N) : x < 2 ^ 32 -> wrap32 x = x.
Proof. intros H. unfold wrap32. by apply N.mod_small. Qed.

Lemma wrap_int_small (x : Z) :
  (- INT_MAX - 1 <= x < INT_MAX)%Z -> wrap_int (x + 1) = (x + 1)%Z.
Proof.
  unfold wrap_int, INT_MAX. intros H. rewrite Z.mod_small; lia.
Qed.

Lemma hand_after_add (k : nat) (nb h : N) :
  nb <> 0 -> nb < 2 ^ 32 -> h < nb ->
  hand_after k nb h = (h + N.of_nat k) mod nb.
Proof.
  intros Hnb Hlt Hh. induction k as [|k IH].
  - cbn. rewrite N.add_0_r. symmetry. by apply N.mod_small.
  - change (hand_after (S k) nb h) with (wrap32 (hand_after k nb h + 1) mod nb).
    rewrite IH.
    assert (Hm : (h + N.of_nat k) mod nb < nb) by (by apply N.mod_lt).
    rewrite wrap32_small by lia.
    rewrite N.Div0.add_mod_idemp_l. f_equal. lia.
Qed.

Lemma advanceClock_n_run (k : nat) : forall s,
  numBufs s <> 0 ->
  advanceClock_n k s = Ok tt (with_hand (hand_after k (numBufs s) (clockHand s)) s).
Proof.
  induction k as [|k IH]; intros s Hnb.
  - cbn. unfold ret. by destruct s.
  - cbn [advanceClock_n]. unfold bind, advanceClock.
    apply N.eqb_neq in Hnb as Hnb'. rewrite Hnb'. rewrite IH by done.
    unfold hand_after. rewrite Nat.iter_succ_r. done.
Qed.

(** Fewer than [numBufs] advances never bring the hand back to a frame it
    has been on. *)
Lemma hand_after_inj (j k : nat) (nb h : N) :
  nb <> 0 -> nb < 2 ^ 32 -> h < nb ->
  (j < k)%nat -> (k <= N.to_nat nb)%nat ->
  hand_after j nb h = hand_after k nb h ->
  j = 0%nat /\ k = N.to_nat nb.
Proof.
  intros Hnb Hlt Hh Hjk Hk. rewrite !hand_after_add by done. intros Heq.
  assert (Hj : (h + N.of_nat j) mod nb =
               if h + N.of_nat j <? nb then h + N.of_nat j else h + N.of_nat j - nb).
  { destruct (h + N.of_nat j <? nb) eqn:E.
    - apply N.ltb_lt in E. by apply N.mod_small.
    - apply N.ltb_ge in E. symmetry. apply (N.mod_unique _ _ 1); lia. }
  assert (Hk' : (h + N.of_nat k) mod nb =
               if h + N.of_nat k <? nb then h + N.of_nat k
               else if h + N.of_nat k <? 2 * nb then h + N.of_nat k - nb
               else h + N.of_nat k - 2 * nb).
  { destruct (h + N.of_nat k <? nb) eqn:E.
    - apply N.ltb_lt in E. by apply N.mod_small.
    - apply N.ltb_ge in E. destruct (h + N.of_nat k <? 2 * nb) eqn:E2.
      + apply N.ltb_lt in E2. symmetry. apply (N.mod_unique _ _ 1); lia.
      + apply N.ltb_ge in E2. symmetry. apply (N.mod_unique _ _ 2); lia. }
  rewrite Hj, Hk' in Heq.
  destruct (h + N.of_nat j <? nb) eqn:E1;
    destruct (h + N.of_nat k <? nb) eqn:E2;
    destruct (h + N.of_nat k <? 2 * nb) eqn:E3;
    rewrite ?N.ltb_lt, ?N.ltb_ge in *; lia.
Qed.

(** X1: [advanceClock] walks the frames in a circle.  With the hand on a
    frame, [k] advances put it on frame [(clockHand + k) mod numBufs]; after
    [numBufs] advances it is back where it started, and fewer advances
    never land twice on the same frame. *)
Theorem advanceClock_cycle s :
  numBufs s <> 0 -> numBufs s < 2 ^ 32 -> clockHand s < numBufs s ->
  (forall k, advanceClock_n k s =
     Ok tt (with_hand ((clockHand s + N.of_nat k) mod numBufs s) s)) /\
  advanceClock_n (N.to_nat (numBufs s)) s = Ok tt s /\
  (forall j k s1 s2, (j < k)%nat -> (k < N.to_nat (numBufs s))%nat ->
     advanceClock_n j s = Ok tt s1 -> advanceClock_n k s = Ok tt s2 ->
     clockHand s1 <> clockHand s2).
Proof.
  intros Hnb Hlt Hh.
  assert (Hrun : forall k, advanceClock_n k s =
     Ok tt (with_hand ((clockHand s + N.of_nat k) mod numBufs s) s)).
  { intros k. rewrite advanceClock_n_run by done. by rewrite hand_after_add. }
  split; [done|]. split.
  - rewrite Hrun, N2Nat.id.
    replace (clockHand s + numBufs s) with (clockHand s + 1 * numBufs s) by lia.
    rewrite N.Div0.mod_add, N.mod_small by done. by destruct s.
  - intros j k s1 s2 Hjk Hk. rewrite !advanceClock_n_run by done.
    intros [= <-] [= <-]. cbn. intros Heq.
    apply hand_after_inj in Heq; try done; lia.
Qed.

(** *** The constructor *)

Lemma BufMgr_new_frame bufs (dk : Disk) i d :
  bufDescTable (BufMgr_new bufs dk) !! i = Some d ->
  d = mkBufDesc (N.of_nat i) None INVALID_NUMBER 0 false false false.
Proof.
  cbn. rewrite list_lookup_fmap.
  destruct (seq 0 (N.to_nat bufs) !! i) as [j|] eqn:Hj; [|done].
  apply lookup_seq in Hj as [-> _]. by intros [= <-].
Qed.

(** X2: a manager built with at least one frame starts well formed and
    with invariants 1 to 6: every frame is invalid, unpinned, clean and
    unreferenced, the index is empty, the hand is on the last frame, and
    the first advance of the clock visits frame 0. *)
Theorem BufMgr_new_invariants bufs (dk : Disk) :
  0 < bufs -> bufs < 2 ^ 32 ->
  let s := BufMgr_new bufs dk in
  well_formed s /\ invariants s /\
  clockHand s = bufs - 1 /\ nextHand s = 0 /\
  hashTable s = ∅ /\ trace s = [] /\
  Forall (fun d => valid d = false) (bufDescTable s).
Proof.
  intros Hpos Hlt s.
  assert (Hhand : clockHand s = bufs - 1).
  { cbn. unfold wrap32. symmetry. apply (N.mod_unique _ _ 1); lia. }
  assert (Hk : forall k fr, hashTable s !! k = Some fr -> False).
  { intros k fr. cbn. by rewrite lookup_empty. }
  split; [apply (snd_wf _ (BufMgr_new_sound bufs dk Hlt))|].
  split; [|split_and!; try done].
  - unfold invariants, inv_index, inv_distinct, inv_pin, inv_dirty,
      inv_invalid, inv_hand. split_and!.
    + intros i d ->%BufMgr_new_frame. done.
    + intros k fr []%Hk.
    + intros i j d1 d2 ->%BufMgr_new_frame ->%BufMgr_new_frame. done.
    + intros i d ->%BufMgr_new_frame. done.
    + intros i d ->%BufMgr_new_frame. done.
    + intros i d ->%BufMgr_new_frame _. split_and!; try done;
        try (intros k H; by apply Hk in H).
    + rewrite Hhand. cbn. lia.
  - unfold nextHand. rewrite Hhand. cbn [numBufs s BufMgr_new].
    rewrite wrap32_small by lia. replace (bufs - 1 + 1) with bufs by lia.
    by apply N.Div0.mod_same.
  - apply Forall_forall. intros d [i Hd]%list_elem_of_lookup.
    by apply BufMgr_new_frame in Hd as ->.
Qed.

(** *** What the sweep hands out *)

(** The iteration that returns a frame, by the state of the frame under
    the hand. *)
Lemma allocBuf_last_frame n s fr s' :
  allocBuf_loop 1 n s = Ok (Some fr) s' ->
  exists d, bufDescTable s !! N.to_nat (nextHand s) = Some d /\ fr = frameNo d /\
    ((valid d = false /\
      bufDescTable s' =
        <[N.to_nat (nextHand s) := Set_ (file d) (pageNo d) d]> (bufDescTable s)) \/
     (valid d = true /\ refbit d = false /\ pinCnt d = 0%Z /\
      bufDescTable s' = <[N.to_nat (nextHand s) := Clear d]> (bufDescTable s))).
Proof.
  rewrite allocBuf_loop_S. cbn zeta.
  destruct (numBufs s =? 0); [done|].
  destruct (bufDescTable s !! N.to_nat (nextHand s)) as [d|] eqn:Hd; [|done].
  destruct (valid d) eqn:Hv.
  2:{ intros [= <- <-]. exists d. split_and!; try done. by left. }
  destruct (refbit d) eqn:Hr; [done|].
  destruct (pinCnt d =? 0)%Z eqn:Hz.
  2:{ destruct (0 <? pinCnt d)%Z; [|done]. by destruct (wrap32 (n + 1) =? numBufs s). }
  apply Z.eqb_eq in Hz.
  destruct (dirty d).
  2:{ intros [= <- <-]. exists d. split_and!; try done. by right. }
  destruct (bufPool s !! N.to_nat (nextHand s)); [|done].
  destruct (file d) as [f|]; [|done].
  destruct (hashTable s !! (Some f, pageNo d)); [|done].
  intros [= <- <-]. exists d. split_and!; try done. by right.
Qed.

(** X3: which frame [allocBuf] hands out.  The frame it returns was either
    not valid, and then it is taken whatever its pin count is and comes back
    [Set] with its own stale identity, or valid with pin count zero, and
    then it comes back cleared.  So a valid frame that is pinned is never
    evicted, and where the frames that are not valid have pin count zero the
    frame handed out had no pin.  Every other descriptor is as before
    except that its reference bit may have been cleared. *)
Theorem allocBuf_takes_invalid_or_unpinned fuel s fr s' :
  frames_numbered s ->
  allocBuf fuel s = Ok (Some fr) s' ->
  exists d, bufDescTable s !! N.to_nat fr = Some d /\
    ((valid d = false /\
      bufDescTable s' !! N.to_nat fr = Some (Set_ (file d) (pageNo d) d)) \/
     (valid d = true /\ pinCnt d = 0%Z /\
      bufDescTable s' !! N.to_nat fr = Some (Clear d))) /\
    ((forall i di, bufDescTable s !! i = Some di -> valid di = false ->
        pinCnt di = 0%Z) -> pinCnt d = 0%Z) /\
    forall i di, i <> N.to_nat fr -> bufDescTable s !! i = Some di ->
      exists di', bufDescTable s' !! i = Some di' /\ refbit_cleared di di'.
Proof.
  intros Hnum Hrun. unfold allocBuf in Hrun.
  pose proof (allocBuf_loop_sweeps fuel 0 s) as Hsw. rewrite Hrun in Hsw.
  destruct Hsw as (s1 & n1 & Hrtc & Hlast).
  apply sweeps_frame in Hrtc. destruct Hrtc as [_ Hds _ _ _ _ _ _ _].
  apply allocBuf_last_frame in Hlast as (d1 & Hd1 & -> & Hcase).
  destruct (Forall2_lookup_r _ _ _ _ _ Hds Hd1) as (d & Hd & Hrel).
  assert (Hfr : N.to_nat (frameNo d1) = N.to_nat (nextHand s1)).
  { assert (frameNo d1 = frameNo d) as -> by (by destruct Hrel as [->| ->]).
    rewrite (Hnum _ _ Hd). by rewrite N2Nat.id. }
  assert (Hlen : (N.to_nat (nextHand s1) < length (bufDescTable s1))%nat)
    by (eapply lookup_lt_Some; eauto).
  rewrite Hfr. exists d. split; [done|].
  assert (Hsame : pinCnt d1 = pinCnt d /\ valid d1 = valid d)
    by (by destruct Hrel as [->| ->]).
  destruct Hsame as [Epin Eval]. split_and!.
  - destruct Hcase as [[Hv ->]|(Hv & Hr & Hp & ->)];
      rewrite list_lookup_insert_eq by done.
    + left. destruct Hrel as [->| ->]; by split.
    + right. destruct Hrel as [->| ->]; by split_and!.
  - intros Hfree. destruct Hcase as [[Hv _]|(_ & _ & Hp & _)]; [|congruence].
    apply (Hfree _ _ Hd). congruence.
  - intros i di Hne Hdi.
    destruct (Forall2_lookup_l _ _ _ _ _ Hds Hdi) as (di' & Hdi' & Hrel').
    exists di'. split; [|done].
    destruct Hcase as [[_ ->]|(_ & _ & _ & ->)];
      by rewrite list_lookup_insert_ne.
Qed.

(** *** When every frame is pinned *)

Lemma allocBuf_loop_all_pinned fuel : forall n s,
  numBufs s <> 0 -> length (bufDescTable s) = N.to_nat (numBufs s) ->
  (forall i d, bufDescTable s !! i = Some d -> valid d = true /\ (0 < pinCnt d)%Z) ->
  match allocBuf_loop fuel n s with
  | OutOfFuel | Throw BufferExceededException _ => True
  | _ => False
  end.
Proof.
  induction fuel as [|fuel IH]; intros n s Hnb Hlen Hall; [done|].
  rewrite allocBuf_loop_S. cbn zeta.
  apply N.eqb_neq in Hnb as Hnb'. rewrite Hnb'.
  assert (Hh : (N.to_nat (nextHand s) < length (bufDescTable s))%nat).
  { rewrite Hlen. unfold nextHand.
    pose proof (N.mod_lt (wrap32 (clockHand s + 1)) (numBufs s) Hnb). lia. }
  destruct (lookup_lt_is_Some_2 _ _ Hh) as [d Hd]. rewrite Hd.
  destruct (Hall _ _ Hd) as [Hv Hp]. rewrite Hv.
  destruct (refbit d).
  { apply IH; cbn; try done.
    - by rewrite length_insert.
    - intros i di Hdi.
      destruct (decide (i = N.to_nat (nextHand s))) as [->|Hne].
      + rewrite list_lookup_insert_eq in Hdi by done. injection Hdi as <-.
        cbn. by split.
      + rewrite list_lookup_insert_ne in Hdi by done. by eapply Hall. }
  assert ((pinCnt d =? 0)%Z = false) as -> by (apply Z.eqb_neq; lia).
  assert ((0 <? pinCnt d)%Z = true) as -> by (apply Z.ltb_lt; lia).
  destruct (wrap32 (n + 1) =? numBufs s); [done|].
  by apply IH.
Qed.

(** X4: when every frame is valid and pinned, [allocBuf] throws
    [BufferExceeded] within [2 * numBufs] iterations, having changed nothing
    but the hand and reference bits. *)
Theorem allocBuf_all_pinned_throws fuel s :
  well_formed s -> 0 < numBufs s ->
  (forall i d, bufDescTable s !! i = Some d -> valid d = true /\ (0 < pinCnt d)%Z) ->
  (2 * N.to_nat (numBufs s) <= fuel)%nat ->
  exists s', allocBuf fuel s = Throw BufferExceededException s' /\ sweep_frame s s'.
Proof.
  intros [Hnb Hld Hlp Hnum] Hpos Hall Hfuel.
  assert (Hne : numBufs s <> 0) by lia.
  pose proof (allocBuf_loop_all_pinned fuel 0 s Hne Hld Hall) as Hcase.
  pose proof (allocBuf_loop_sweeps fuel 0 s) as Hsw.
  assert (Hterm : allocBuf_loop fuel 0 s <> OutOfFuel).
  { apply allocBuf_loop_terminates; try done.
    - intros i d Hd. destruct (Hall _ _ Hd). lia.
    - pose proof (refbits_set_le (bufDescTable s)). lia. }
  unfold allocBuf. destruct (allocBuf_loop fuel 0 s) as [r s'|e s'| |]; try done.
  destruct e; try done. exists s'. split; [done|].
  apply sweeps_frame. apply Hsw.
Qed.

(** X5: the loop of [allocBuf] has no branch for a negative pin count.  If
    every frame is valid, unreferenced and has a negative pin count, no
    number of iterations ends the loop. *)
Theorem allocBuf_negative_pins_never_ends fuel : forall n s,
  numBufs s <> 0 -> length (bufDescTable s) = N.to_nat (numBufs s) ->
  (forall i d, bufDescTable s !! i = Some d ->
     valid d = true /\ refbit d = false /\ (pinCnt d < 0)%Z) ->
  allocBuf_loop fuel n s = OutOfFuel.
Proof.
  induction fuel as [|fuel IH]; intros n s Hnb Hlen Hall; [done|].
  rewrite allocBuf_loop_S. cbn zeta.
  apply N.eqb_neq in Hnb as Hnb'. rewrite Hnb'.
  assert (Hh : (N.to_nat (nextHand s) < length (bufDescTable s))%nat).
  { rewrite Hlen. unfold nextHand.
    pose proof (N.mod_lt (wrap32 (clockHand s + 1)) (numBufs s) Hnb). lia. }
  destruct (lookup_lt_is_Some_2 _ _ Hh) as [d Hd]. rewrite Hd.
  destruct (Hall _ _ Hd) as (Hv & Hr & Hp). rewrite Hv, Hr.
  assert ((pinCnt d =? 0)%Z = false) as -> by (apply Z.eqb_neq; lia).
  assert ((0 <? pinCnt d)%Z = false) as -> by (apply Z.ltb_ge; lia).
  by apply IH.
Qed.

(** *** When some frame is free or evictable *)

Lemma sweep_frame_dirty_has_file s s' :
  sweep_frame s s' -> dirty_has_file s -> dirty_has_file s'.
Proof.
  intros [_ Hds _ _ _ _ _ _ _] H i d' Hd' Hv Hdy.
  destruct (Forall2_lookup_r _ _ _ _ _ Hds Hd') as (d & Hd & [->| ->]);
    by apply (H i d).
Qed.

Lemma hand_after_S (k : nat) (nb h : N) :
  hand_after (S k) nb h = hand_after k nb (wrap32 (h + 1) mod nb).
Proof. unfold hand_after. by rewrite Nat.iter_succ_r. Qed.

(** If the frame [k] advances away is available, the loop returns a frame
    within [k] iterations: it cannot count [numBufs] pinned frames before
    it gets there. *)
Lemma allocBuf_loop_reaches k : forall n s t,
  sound s -> dirty_has_file s -> numBufs s <> 0 ->
  (1 <= k)%nat -> n + N.of_nat k <= numBufs s ->
  bufDescTable s !! N.to_nat (hand_after k (numBufs s) (clockHand s)) = Some t ->
  available t ->
  exists fr s', allocBuf_loop k n s = Ok (Some fr) s'.
Proof.
  induction k as [|k IH]; intros n s t Hs Hdf Hnb Hk Hn Ht Hav; [lia|].
  rewrite allocBuf_loop_S. cbn zeta.
  apply N.eqb_neq in Hnb as Hnb'. rewrite Hnb'.
  pose proof (snd_wf _ Hs) as [Hlt Hld Hlp Hnum].
  assert (Hh : (N.to_nat (nextHand s) < length (bufDescTable s))%nat).
  { rewrite Hld. unfold nextHand.
    pose proof (N.mod_lt (wrap32 (clockHand s + 1)) (numBufs s) Hnb). lia. }
  destruct (lookup_lt_is_Some_2 _ _ Hh) as [d Hd]. rewrite Hd.
  rewrite hand_after_S in Ht. fold (nextHand s) in Ht.
  (* the frame under the hand is the target when [k = 0] *)
  assert (Hhere : k = 0%nat -> t = d).
  { intros ->. cbn in Ht. congruence. }
  (* going on from a state that differs in the hand and in this frame *)
  assert (Hgo : forall n' s1,
    (k = 0%nat -> False) ->
    sweep_step s s1 -> clockHand s1 = nextHand s ->
    (forall i, i <> N.to_nat (nextHand s) ->
       bufDescTable s1 !! i = bufDescTable s !! i) ->
    ~ available d ->
    n' + N.of_nat k <= numBufs s ->
    exists fr s', allocBuf_loop k n' s1 = Ok (Some fr) s').
  { intros n' s1 Hk0 Hstep Ehand Eother Hnav Hn'.
    pose proof (sweep_step_frame _ _ Hstep) as Hfr.
    pose proof (sweep_numBufs _ _ Hfr) as Enb.
    apply (IH n' s1 t).
    - by eapply sweep_frame_sound.
    - by eapply sweep_frame_dirty_has_file.
    - by rewrite Enb.
    - lia.
    - by rewrite Enb.
    - rewrite Enb, Ehand.
      destruct (decide (N.to_nat (hand_after k (numBufs s) (nextHand s))
                        = N.to_nat (nextHand s))) as [Heq|Hne].
      + rewrite Heq in Ht. assert (t = d) by congruence. by subst.
      + by rewrite Eother.
    - done. }
  destruct (valid d) eqn:Hv; [|eauto].
  destruct (refbit d) eqn:Hr.
  { assert (Hnav : ~ available d) by (intros [?|(_ & ? & _)]; congruence).
    eapply (Hgo n).
    - intros Hk0. apply Hnav. by rewrite <- (Hhere Hk0).
    - by eapply sweep_refbit.
    - done.
    - intros i Hne. cbn. by rewrite list_lookup_insert_ne.
    - done.
    - lia. }
  destruct (pinCnt d =? 0)%Z eqn:Hz.
  { destruct (dirty d) eqn:Hdy; [|eauto].
    destruct (lookup_lt_is_Some_2 (bufPool s) (N.to_nat (nextHand s))) as [pg ->];
      [lia|].
    destruct (file d) as [f|] eqn:Hf; [|by destruct (Hdf _ _ Hd Hv Hdy)].
    rewrite (snd_indexed _ Hs f _ _ Hd Hf Hv). eauto. }
  apply Z.eqb_neq in Hz.
  assert (Hnav : ~ available d) by (intros [?|(_ & _ & ?)]; congruence).
  assert (Hk0 : k = 0%nat -> False).
  { intros Hk0. apply Hnav. by rewrite <- (Hhere Hk0). }
  assert (Hstep : sweep_step s (with_hand (nextHand s) s)) by (by eapply sweep_pass).
  destruct (0 <? pinCnt d)%Z.
  - rewrite wrap32_small by lia.
    assert ((n + 1 =? numBufs s) = false) as -> by (apply N.eqb_neq; lia).
    eapply Hgo; try done. lia.
  - eapply Hgo; try done. lia.
Qed.

(** Every frame is some number of advances, between 1 and [numBufs], away
    from the hand. *)
Lemma hand_reaches (nb h i : N) :
  nb <> 0 -> nb < 2 ^ 32 -> h < nb -> i < nb ->
  exists k, (1 <= k <= N.to_nat nb)%nat /\ hand_after k nb h = i.
Proof.
  intros Hnb Hlt Hh Hi.
  destruct (decide (h < i)) as [Hlt'|Hge].
  - exists (N.to_nat (i - h)). split; [lia|].
    rewrite hand_after_add by done. rewrite N2Nat.id.
    replace (h + (i - h)) with i by lia. by apply N.mod_small.
  - exists (N.to_nat (nb - h + i)). split; [lia|].
    rewrite hand_after_add by done. rewrite N2Nat.id.
    replace (h + (nb - h + i)) with (i + 1 * nb) by lia.
    rewrite N.Div0.mod_add. by apply N.mod_small.
Qed.

(** X6: [allocBuf] returns a frame, and does not throw, whenever some frame
    is not valid or is valid, unreferenced and unpinned; it needs at most
    [numBufs] iterations.  (The index holds the entries of the valid frames
    and dirty frames have a file, so that an eviction on the way goes
    through.) *)
Theorem allocBuf_finds_available_frame fuel s i t :
  sound s -> dirty_has_file s -> clockHand s < numBufs s ->
  bufDescTable s !! i = Some t -> available t ->
  (N.to_nat (numBufs s) <= fuel)%nat ->
  exists fr s', allocBuf fuel s = Ok (Some fr) s'.
Proof.
  intros Hs Hdf Hh Ht Hav Hfuel.
  pose proof (snd_wf _ Hs) as [Hlt Hld Hlp Hnum].
  assert (Hnb : numBufs s <> 0) by lia.
  assert (Hi : N.of_nat i < numBufs s).
  { apply lookup_lt_Some in Ht. lia. }
  destruct (hand_reaches (numBufs s) (clockHand s) (N.of_nat i)) as (k & Hk & Hka);
    try done.
  destruct (allocBuf_loop_reaches k 0 s t) as (fr & s' & Hrun); try done.
  - lia.
  - lia.
  - by rewrite Hka, Nat2N.id.
  - exists fr, s'. unfold allocBuf.
    rewrite (allocBuf_loop_fuel_mono k fuel); [done|lia|by rewrite Hrun].
Qed.

(** *** What the operations keep *)

Lemma nextHand_lt s : numBufs s <> 0 -> nextHand s < numBufs s.
Proof. intros H. unfold nextHand. by apply N.mod_lt. Qed.

(** A run of the loop that leaves a state has moved the hand onto a frame. *)
Lemma allocBuf_loop_hand fuel : forall n s s',
  final_state (allocBuf_loop fuel n s) = Some s' ->
  numBufs s' = numBufs s /\ clockHand s' < numBufs s'.
Proof.
  induction fuel as [|fuel IH]; intros n s s'; [done|].
  rewrite allocBuf_loop_S. cbn zeta.
  destruct (numBufs s =? 0) eqn:Hnb; [done|]. apply N.eqb_neq in Hnb.
  pose proof (nextHand_lt s Hnb) as Hlt.
  destruct (bufDescTable s !! N.to_nat (nextHand s)) as [d|]; [|done].
  destruct (valid d); [|by intros [= <-]].
  destruct (refbit d).
  { intros H. by apply IH in H. }
  destruct (pinCnt d =? 0)%Z.
  { destruct (dirty d); [|by intros [= <-]].
    destruct (bufPool s !! N.to_nat (nextHand s)); [|done].
    destruct (file d); [|done].
    by destruct (hashTable s !! (Some n0, pageNo d)); intros [= <-]. }
  destruct (0 <? pinCnt d)%Z.
  - destruct (wrap32 (n + 1) =? numBufs s); [by intros [= <-]|].
    intros H. by apply IH in H.
  - intros H. by apply IH in H.
Qed.

Lemma readPage_hand fuel (f : option N) p s s' :
  final_state (readPage fuel f p s) = Some s' -> hand_kept s s'.
Proof.
  unfold hand_kept. destruct f as [f|]; [|intros [= <-]; auto].
  destruct (hashTable s !! (Some f, p)) as [fr|] eqn:Hk.
  - rewrite (readPage_hit _ _ _ fr) by done.
    destruct (bufDescTable s !! N.to_nat fr); [|done]. intros [= <-]. auto.
  - rewrite readPage_miss by done. unfold allocBuf.
    pose proof (allocBuf_loop_hand fuel 0 s) as Hh.
    destruct (allocBuf_loop fuel 0 s) as [[fr|] s1|e s1| |]; [|done| |done..].
    + destruct (Hh s1 eq_refl) as [E1 E2].
      destruct (bufPool s1 !! N.to_nat fr); [|done]. cbn zeta.
      destruct (hashTable s1 !! (Some f, p)); [intros [= <-]; cbn; auto|].
      destruct (bufDescTable s1 !! N.to_nat fr); [|done].
      intros [= <-]. cbn. auto.
    + destruct (Hh s1 eq_refl) as [E1 E2]. intros Hfin.
      assert (s' = s1 \/ s' = with_cerr BufferExceededException s1) as [->| ->]
        by (destruct e; cbn in Hfin; simplify_eq; auto); cbn; auto.
Qed.

Lemma allocPage_hand fuel (f : option N) s s' :
  final_state (allocPage fuel f s) = Some s' -> hand_kept s s'.
Proof.
  unfold hand_kept. destruct f as [f|]; [|intros [= <-]; auto].
  rewrite allocPage_run. cbn zeta. unfold allocBuf.
  set (s0 := with_ref_pageNo _ _).
  pose proof (allocBuf_loop_hand fuel 0 s0) as Hh.
  destruct (allocBuf_loop fuel 0 s0) as [[fr|] s1|e s1| |]; [|done| |done..].
  - destruct (Hh s1 eq_refl) as [E1 E2].
    destruct (bufPool s1 !! N.to_nat fr); [|done].
    destruct (hashTable s1 !! _); [intros [= <-]; cbn; auto|].
    destruct (bufDescTable s1 !! N.to_nat fr); [|done].
    intros [= <-]. cbn. auto.
  - destruct (Hh s1 eq_refl) as [E1 E2]. intros [= <-]. auto.
Qed.

Lemma unPinPage_hand (f : option N) p (isDirty : bool) s s' :
  final_state (unPinPage f p isDirty s) = Some s' -> hand_kept s s'.
Proof.
  unfold hand_kept. destruct f as [f|]; [|intros [= <-]; auto].
  rewrite unPinPage_run.
  destruct (hashTable s !! (Some f, p)) as [fr|]; [|intros [= <-]; auto].
  destruct (bufDescTable s !! N.to_nat fr) as [d|]; [|done].
  destruct (0 <? pinCnt d)%Z; [intros [= <-]; auto|].
  destruct (pinCnt d =? 0)%Z; intros [= <-]; auto.
Qed.

Lemma disposePage_hand (f : option N) p s s' :
  final_state (disposePage f p s) = Some s' -> hand_kept s s'.
Proof.
  unfold hand_kept. destruct f as [f|]; [|intros [= <-]; auto].
  rewrite disposePage_run.
  destruct (hashTable s !! (Some f, p)) as [fr|]; [|intros [= <-]; auto].
  destruct (bufDescTable s !! N.to_nat fr) as [d|]; [|done].
  intros [= <-]. auto.
Qed.

Lemma flushFile_hand (f : option N) s s' :
  final_state (flushFile f s) = Some s' -> hand_kept s s'.
Proof.
  unfold hand_kept. destruct f as [f|]; [|intros [= <-]; auto].
  unfold flushFile, bind, gets. generalize (N.to_nat (numBufs s)) 0.
  intros n. revert s s'.
  induction n as [|n IH]; intros s s' i; cbn [flushFile_from];
    [intros [= <-]; auto|].
  unfold bind at 1. rewrite flushFile_frame_run.
  assert (Hgo : forall s1, numBufs s1 = numBufs s -> clockHand s1 = clockHand s ->
            final_state (flushFile_from n (wrap32 (i + 1)) f s1) = Some s' ->
            numBufs s' = numBufs s /\
            (clockHand s' = clockHand s \/ clockHand s' < numBufs s')).
  { intros s1 E1 E2 H. apply IH in H. rewrite <- E1, <- E2. done. }
  destruct (bufDescTable s !! N.to_nat i) as [d|]; [|done].
  destruct (decide (file d = Some f)); [|by apply Hgo].
  destruct (valid d); [|intros [= <-]; auto].
  destruct (0 <? pinCnt d)%Z; [intros [= <-]; auto|].
  destruct (dirty d).
  - destruct (bufPool s !! N.to_nat i); [|done]. cbn zeta.
    destruct (hashTable s !! (Some f, pageNo d)); [by apply Hgo|].
    intros [= <-]. auto.
  - destruct (hashTable s !! (Some f, pageNo d)); [by apply Hgo|].
    intros [= <-]. auto.
Qed.

Lemma reachable_hand s : reachable s -> clockHand s < numBufs s.
Proof.
  assert (Hkeep : forall s s', clockHand s < numBufs s -> hand_kept s s' ->
            clockHand s' < numBufs s').
  { intros s0 s' H [E [->|?]]; [by rewrite E|done]. }
  induction 1 as [bufs dk Hpos Hlt|? ? ? ? ? ? ? H|? ? ? ? ? ? ? H
                 |? ? ? ? ? ? H|? ? ? ? ? H|? ? ? ? ? ? H].
  - cbn. unfold wrap32.
    assert ((bufs + 2 ^ 32 - 1) mod 2 ^ 32 = bufs - 1) as ->
      by (symmetry; apply (N.mod_unique _ _ 1); lia).
    lia.
  - eapply Hkeep; [done|]. by eapply readPage_hand.
  - eapply Hkeep; [done|]. by eapply unPinPage_hand.
  - eapply Hkeep; [done|]. by eapply allocPage_hand.
  - eapply Hkeep; [done|]. by eapply flushFile_hand.
  - eapply Hkeep; [done|]. by eapply disposePage_hand.
Qed.

(** X7: what holds in every state the public operations can reach from a
    freshly built manager, each operation having returned or thrown: the
    arrays have [numBufs] entries and each descriptor its own frame number;
    the hand is on a frame; every valid frame of a file has its index
    entry, so no two valid frames hold the same page of a file; a frame
    that is not valid has no file.  The sign of the pin counts is not among
    them: a hit of [readPage] at [INT_MAX] makes the count negative. *)
Theorem reachable_invariants s :
  reachable s ->
  well_formed s /\ inv_hand s /\
  (forall i d f, bufDescTable s !! i = Some d -> valid d = true ->
     file d = Some f -> hashTable s !! (Some f, pageNo d) = Some (N.of_nat i)) /\
  (forall i j d1 d2 f, bufDescTable s !! i = Some d1 -> bufDescTable s !! j = Some d2 ->
     valid d1 = true -> valid d2 = true -> file d1 = Some f ->
     (file d1, pageNo d1) = (file d2, pageNo d2) -> i = j) /\
  (forall i d, bufDescTable s !! i = Some d -> valid d = false -> file d = None).
Proof.
  intros Hr. pose proof (reachable_sound _ Hr) as [Hwf Hidx Hfree].
  split_and!; try done.
  - by apply reachable_hand.
  - intros i d f Hd Hv Hf. by apply (Hidx f).
  - intros i j d1 d2 f Hd1 Hd2 Hv1 Hv2 Hf [= Ef Ep].
    pose proof (Hidx f _ _ Hd1 Hf Hv1) as H1.
    assert (Hf2 : file d2 = Some f) by congruence.
    pose proof (Hidx f _ _ Hd2 Hf2 Hv2) as H2.
    rewrite Ep, H2 in H1. injection H1 as H1. lia.
Qed.

(** In a sound state whose dirty frames have a file, the loop has no
    undefined step and returns no null frame. *)
Lemma allocBuf_loop_defined fuel : forall n s,
  sound s -> dirty_has_file s -> numBufs s <> 0 ->
  match allocBuf_loop fuel n s with
  | Ok (Some _) _ | Throw BufferExceededException _ | OutOfFuel => True
  | _ => False
  end.
Proof.
  induction fuel as [|fuel IH]; intros n s Hs Hdf Hnb; [done|].
  rewrite allocBuf_loop_S. cbn zeta.
  apply N.eqb_neq in Hnb as Hnb'. rewrite Hnb'.
  pose proof (snd_wf _ Hs) as [Hlt Hld Hlp Hnum].
  assert (Hh : (N.to_nat (nextHand s) < length (bufDescTable s))%nat).
  { rewrite Hld. unfold nextHand.
    pose proof (N.mod_lt (wrap32 (clockHand s + 1)) (numBufs s) Hnb). lia. }
  destruct (lookup_lt_is_Some_2 _ _ Hh) as [d Hd]. rewrite Hd.
  assert (Hgo : forall n' s1, sweep_step s s1 ->
            match allocBuf_loop fuel n' s1 with
            | Ok (Some _) _ | Throw BufferExceededException _ | OutOfFuel => True
            | _ => False
            end).
  { intros n' s1 Hstep. pose proof (sweep_step_frame _ _ Hstep) as Hfr.
    apply IH.
    - by eapply sweep_frame_sound.
    - by eapply sweep_frame_dirty_has_file.
    - by rewrite (sweep_numBufs _ _ Hfr). }
  destruct (valid d) eqn:Hv; [|done].
  destruct (refbit d) eqn:Hr; [apply Hgo; by eapply sweep_refbit|].
  destruct (pinCnt d =? 0)%Z eqn:Hz.
  { destruct (dirty d) eqn:Hdy; [|done].
    destruct (lookup_lt_is_Some_2 (bufPool s) (N.to_nat (nextHand s))) as [pg ->];
      [lia|].
    destruct (file d) as [f|] eqn:Hf; [|by destruct (Hdf _ _ Hd Hv Hdy)].
    by rewrite (snd_indexed _ Hs f _ _ Hd Hf Hv). }
  apply Z.eqb_neq in Hz.
  assert (Hstep := sweep_pass s d Hnb Hd Hv Hr Hz).
  destruct (0 <? pinCnt d)%Z; [|by apply Hgo].
  destruct (wrap32 (n + 1) =? numBufs s); [done|by apply Hgo].
Qed.

(** X8: where no pin count is negative, every valid frame has its index
    entry and every valid dirty frame a file, [allocBuf] ends within
    [2 * numBufs] iterations, and it ends by returning a frame or by
    throwing [BufferExceeded]: it does not go on for ever, makes no
    undefined step and returns no null frame; more iterations change
    nothing. *)
Theorem allocBuf_returns_or_throws fuel s :
  sound s -> pins_nonneg s -> dirty_has_file s -> 0 < numBufs s ->
  (2 * N.to_nat (numBufs s) <= fuel)%nat ->
  allocBuf fuel s = allocBuf (2 * N.to_nat (numBufs s)) s /\
  ((exists fr s', allocBuf fuel s = Ok (Some fr) s') \/
   (exists s', allocBuf fuel s = Throw BufferExceededException s')).
Proof.
  intros Hs Hpin Hdf Hpos Hfuel.
  pose proof (allocBuf_terminates s (snd_wf _ Hs) Hpin Hpos) as Hterm.
  assert (Heq : allocBuf fuel s = allocBuf (2 * N.to_nat (numBufs s)) s).
  { unfold allocBuf in *. by apply allocBuf_loop_fuel_mono. }
  split; [done|]. rewrite Heq.
  assert (Hnb : numBufs s <> 0) by lia.
  pose proof (allocBuf_loop_defined (2 * N.to_nat (numBufs s)) 0 s Hs Hdf Hnb) as Hdef.
  unfold allocBuf in *.
  destruct (allocBuf_loop _ 0 s) as [[fr|] s'|e s'| |]; try done.
  - left. by exists fr, s'.
  - destruct e; try done. right. by exists s'.
Qed.

(** *** What [readPage] and [allocPage] hand back *)

(** A run of [allocBuf] that returns a frame prints nothing and adds no
    index entry. *)
Lemma allocBuf_last_quiet n s fr s' :
  allocBuf_loop 1 n s = Ok (Some fr) s' ->
  cerr s' = cerr s /\ bufPool s' = bufPool s /\ ref_pageNo s' = ref_pageNo s /\
  forall k, hashTable s !! k = None -> hashTable s' !! k = None.
Proof.
  rewrite allocBuf_loop_S. cbn zeta.
  destruct (numBufs s =? 0); [done|].
  destruct (bufDescTable s !! N.to_nat (nextHand s)) as [d|]; [|done].
  destruct (valid d); [|by intros [= <- <-]].
  destruct (refbit d); [done|].
  destruct (pinCnt d =? 0)%Z.
  2:{ destruct (0 <? pinCnt d)%Z; [|done]. by destruct (wrap32 (n + 1) =? numBufs s). }
  destruct (dirty d); [|by intros [= <- <-]].
  destruct (bufPool s !! N.to_nat (nextHand s)); [|done].
  destruct (file d) as [f|]; [|done].
  destruct (hashTable s !! (Some f, pageNo d)); [|done].
  intros [= <- <-]. cbn. split_and!; try done.
  intros k Hk. rewrite lookup_delete. by destruct (decide _).
Qed.

Lemma allocBuf_quiet fuel s fr s' :
  allocBuf fuel s = Ok (Some fr) s' ->
  cerr s' = cerr s /\ bufPool s' = bufPool s /\ ref_pageNo s' = ref_pageNo s /\
  forall k, hashTable s !! k = None -> hashTable s' !! k = None.
Proof.
  unfold allocBuf. intros Hrun.
  pose proof (allocBuf_loop_sweeps fuel 0 s) as Hsw. rewrite Hrun in Hsw.
  destruct Hsw as (s1 & n1 & Hrtc & Hlast).
  apply sweeps_frame in Hrtc. destruct Hrtc as [_ _ Ep Eh _ _ Ec Er _].
  apply allocBuf_last_quiet in Hlast as (Ec' & Ep' & Er' & Hk).
  split_and!; [congruence..|]. intros k Hnone. apply Hk. by rewrite Eh.
Qed.

Lemma app_singleton_ne {A} (l : list A) x : l ++ [x] <> l.
Proof.
  intros H. apply (f_equal length) in H. rewrite length_app in H. cbn in H. lia.
Qed.

(** X9: when [readPage] of a non-null file returns without printing a
    diagnostic, the caller holds a frame that the index names for the page
    and whose reference bit is set.  On a hit the pin count is the [int]
    successor of what it was -- one more below [INT_MAX], and
    [-INT_MAX - 1] at [INT_MAX] -- and no file was touched; on a miss the
    frame is valid for the page, pinned once and clean, its slot holds what
    the file returned, and the read is the last call made on a file. *)
Theorem readPage_pins_page fuel f p s s' :
  readPage fuel (Some f) p s = Ok tt s' -> cerr s' = cerr s ->
  exists fr d', ref_page s' = Some fr /\
    hashTable s' !! (Some f, p) = Some fr /\
    bufDescTable s' !! N.to_nat fr = Some d' /\ refbit d' = true /\
    ((exists d, hashTable s !! (Some f, p) = Some fr /\
        bufDescTable s !! N.to_nat fr = Some d /\
        pinCnt d' = wrap_int (pinCnt d + 1) /\
        ((- INT_MAX - 1 <= pinCnt d < INT_MAX)%Z -> pinCnt d' = (pinCnt d + 1)%Z) /\
        (pinCnt d = INT_MAX -> pinCnt d' = (- INT_MAX - 1)%Z) /\
        dirty d' = dirty d /\ valid d' = valid d /\
        trace s' = trace s /\ bufPool s' = bufPool s /\ hashTable s' = hashTable s) \/
     (hashTable s !! (Some f, p) = None /\
      d' = mkBufDesc (frameNo d') (Some f) p 1 false true true /\
      bufPool s' !! N.to_nat fr = Some (file_readPage f p (disk s')) /\
      exists evs, trace s' = evs ++ [EvReadPage f p])).
Proof.
  destruct (hashTable s !! (Some f, p)) as [fr|] eqn:Hk.
  - rewrite (readPage_hit _ _ _ fr) by done.
    destruct (bufDescTable s !! N.to_nat fr) as [d|] eqn:Hd; [|done].
    intros [= <-] _. exists fr. eexists. cbn.
    rewrite list_lookup_insert_eq by (eapply lookup_lt_Some; eauto).
    split_and!; try done. left. exists d. split_and!; try done.
    + intros Hp. by apply wrap_int_small.
    + intros ->. done.
  - rewrite readPage_miss by done.
    pose proof (allocBuf_quiet fuel s) as Hq.
    pose proof (allocBuf_loop_sweeps fuel 0 s) as Hsw. unfold allocBuf in *.
    destruct (allocBuf_loop fuel 0 s) as [[fr|] s1|e s1| |]; [|done| |done..].
    + destruct (Hq fr s1 eq_refl) as (Ec & Ep & _ & Hnone).
      destruct (bufPool s1 !! N.to_nat fr) as [pg0|] eqn:Hpool; [|done]. cbn zeta.
      rewrite (Hnone _ Hk).
      destruct (bufDescTable s1 !! N.to_nat fr) as [d1|] eqn:Hd1; [|done].
      intros [= <-] _. exists fr. eexists. cbn.
      rewrite lookup_insert_eq.
      rewrite !list_lookup_insert_eq by (eapply lookup_lt_Some; eauto).
      split_and!; try done. right. split_and!; try done. by eexists.
    + destruct Hsw as [-> Hrtc]. apply sweeps_frame in Hrtc.
      intros [= <-] Hc. cbn in Hc. rewrite (sweep_cerr _ _ Hrtc) in Hc.
      by apply app_singleton_ne in Hc.
Qed.

(** X10: when [allocPage] on a non-null file returns without printing a
    diagnostic, [pageNo] is the number of the page the file allocated, and
    the caller holds a frame that the index names for it: valid for the
    page, pinned once, clean and referenced, with the new page in its
    slot. *)
Theorem allocPage_pins_new_page fuel f s s' :
  allocPage fuel (Some f) s = Ok tt s' -> cerr s' = cerr s ->
  let pg := (file_allocatePage f (disk s)).1 in
  exists fr d', ref_pageNo s' = Some (page_number pg) /\ ref_page s' = Some fr /\
    hashTable s' !! (Some f, page_number pg) = Some fr /\
    bufDescTable s' !! N.to_nat fr = Some d' /\
    d' = mkBufDesc (frameNo d') (Some f) (page_number pg) 1 false true true /\
    bufPool s' !! N.to_nat fr = Some pg.
Proof.
  rewrite allocPage_run. cbn zeta.
  set (pg := (file_allocatePage f (disk s)).1).
  set (s0 := with_ref_pageNo _ _).
  pose proof (allocBuf_quiet fuel s0) as Hq. unfold allocBuf in *.
  destruct (allocBuf_loop fuel 0 s0) as [[fr|] s1|e s1| |] eqn:Hrun; try done.
  destruct (Hq fr s1 eq_refl) as (Ec & Ep & Er & Hnone).
  destruct (bufPool s1 !! N.to_nat fr) as [pg0|] eqn:Hpool; [|done].
  destruct (hashTable s1 !! (Some f, page_number pg)) eqn:Hk1.
  { intros [= <-] Hc. cbn in Hc. rewrite Ec in Hc. by apply app_singleton_ne in Hc. }
  destruct (bufDescTable s1 !! N.to_nat fr) as [d1|] eqn:Hd1; [|done].
  intros [= <-] _. exists fr. eexists. cbn.
  rewrite lookup_insert_eq.
  rewrite !list_lookup_insert_eq by (eapply lookup_lt_Some; eauto).
  split_and!; try done.
Qed.

(** X11: pin and unpin balance.  Reading a page the index has an entry for,
    the pin count of the frame being neither negative nor [INT_MAX], and
    then unpinning it brings the descriptor back to what it was, except
    that the reference bit is set and the dirty flag is set if the unpin
    said so; nothing else changes but the caller's page handle. *)
Theorem readPage_unPinPage_round_trip fuel f p (isDirty : bool) fr d s :
  hashTable s !! (Some f, p) = Some fr ->
  bufDescTable s !! N.to_nat fr = Some d ->
  (0 <= pinCnt d < INT_MAX)%Z ->
  exists s1, readPage fuel (Some f) p s = Ok tt s1 /\
    unPinPage (Some f) p isDirty s1 =
    Ok tt (with_ref_page fr
             (with_descs
                (<[N.to_nat fr :=
                     mkBufDesc (frameNo d) (file d) (pageNo d) (pinCnt d)
                       (if isDirty then true else dirty d) (valid d) true]>
                   (bufDescTable s)) s)).
Proof.
  intros Hk Hd Hp. rewrite (readPage_hit _ _ _ fr), Hd by done.
  eexists. split; [done|]. rewrite unPinPage_run. cbn.
  rewrite Hk. rewrite list_lookup_insert_eq by (eapply lookup_lt_Some; eauto).
  cbn. rewrite wrap_int_small by (unfold INT_MAX in *; lia).
  assert ((0 <? pinCnt d + 1)%Z = true) as -> by (apply Z.ltb_lt; lia).
  rewrite list_insert_insert_eq. by rewrite Z.add_simpl_r.
Qed.

(** X12: after [disposePage] of a non-null file has returned (it never
    throws and prints nothing), the index has no entry for the page,
    whether or not it had one, the last call on a file is [deletePage],
    and an [unPinPage] of the page does nothing. *)
Theorem disposePage_leaves_page_absent f p s s' (isDirty : bool) :
  final_state (disposePage (Some f) p s) = Some s' ->
  disposePage (Some f) p s = Ok tt s' /\
  hashTable s' !! (Some f, p) = None /\
  trace s' = trace s ++ [EvDeletePage f p] /\
  disk s' = file_deletePage f p (disk s) /\
  cerr s' = cerr s /\ bufPool s' = bufPool s /\
  unPinPage (Some f) p isDirty s' = Ok tt s'.
Proof.
  rewrite disposePage_run.
  assert (Hun : forall s1, hashTable s1 !! (Some f, p) = None ->
            unPinPage (Some f) p isDirty s1 = Ok tt s1).
  { intros s1 H. by rewrite unPinPage_run, H. }
  destruct (hashTable s !! (Some f, p)) as [fr|] eqn:Hk.
  - destruct (bufDescTable s !! N.to_nat fr) as [d|]; [|done].
    intros [= <-]. cbn. split_and!; try done.
    + apply lookup_delete_eq.
    + apply Hun. cbn. apply lookup_delete_eq.
  - intros [= <-]. cbn. split_and!; try done. by apply Hun.
Qed.

(** *** [flushFile] and the destructor, as a whole *)

(** With no frame of the file in the table, the loop visits every frame and
    changes nothing. *)
Lemma flushFile_from_none f n : forall (i : nat) s,
  (forall j d, bufDescTable s !! j = Some d -> file d <> Some f) ->
  (i + n <= length (bufDescTable s))%nat ->
  N.of_nat (length (bufDescTable s)) < 2 ^ 32 ->
  flushFile_from n (N.of_nat i) f s = Ok tt s.
Proof.
  induction n as [|n IH]; intros i s Hnone Hlen Hlt; [done|].
  cbn [flushFile_from]. unfold bind at 1. rewrite flushFile_frame_run, Nat2N.id.
  destruct (lookup_lt_is_Some_2 (bufDescTable s) i) as [d Hd]; [lia|].
  rewrite Hd. rewrite decide_False by (by eapply Hnone).
  rewrite wrap32_succ by lia. apply IH; try done. lia.
Qed.

(** X13: when [flushFile] of a non-null file returns, no frame belongs to
    the file any more, and a second [flushFile] of the same file returns
    with the state unchanged.  (Well-formed table, index holding the
    entries of the file's valid frames.) *)
Theorem flushFile_twice f s s' :
  well_formed s -> indexed f s ->
  flushFile (Some f) s = Ok tt s' ->
  Forall (fun d => file d <> Some f) (bufDescTable s') /\
  flushFile (Some f) s' = Ok tt s'.
Proof.
  intros [Hnb Hld Hlp _] Hidx. unfold flushFile, bind, gets.
  assert (Hl : length (bufPool s) = length (bufDescTable s)) by congruence.
  assert (Hlt : N.of_nat (length (bufDescTable s)) < 2 ^ 32)
    by (by rewrite Hld, N2Nat.id).
  pose proof (flushFile_from_spec f (bufDescTable s) (bufPool s) [] [] s
                eq_refl eq_refl eq_refl Hl Hlt Hidx) as H.
  cbn [length app] in H. change (N.of_nat 0) with 0 in H. rewrite Hld in H.
  intros Hrun. rewrite Hrun in H. destruct H as (_ & Hds & Hfl).
  assert (Hnone : forall j d, bufDescTable s' !! j = Some d -> file d <> Some f).
  { intros j d'. rewrite Hds, list_lookup_fmap.
    destruct (bufDescTable s !! j) as [d|]; [|done]. intros [= <-].
    unfold flush_desc. by destruct (decide (file d = Some f)). }
  split.
  - apply Forall_forall. intros d [j Hd]%list_elem_of_lookup. by eapply Hnone.
  - rewrite (fl_numBufs _ _ _ _ Hfl).
    assert (Hlen' : length (bufDescTable s') = N.to_nat (numBufs s))
      by (by rewrite Hds, length_fmap).
    apply (flushFile_from_none f _ 0%nat); try done; [lia|].
    by rewrite Hlen', N2Nat.id.
Qed.

Lemma destroy_from_spec : forall rest prest pre ppre s,
  bufDescTable s = pre ++ rest ->
  bufPool s = ppre ++ prest ->
  length ppre = length pre ->
  length prest = length rest ->
  N.of_nat (length (pre ++ rest)) < 2 ^ 32 ->
  Forall (fun d => valid d = true -> dirty d = true -> file d <> None) rest ->
  exists s',
    destroy_from (length rest) (N.of_nat (length pre)) s = Ok tt s' /\
    bufDescTable s' = pre ++ (destroy_desc <$> rest) /\
    trace s' = trace s ++ flat_map destroy_write (zip rest prest) /\
    disk s' = apply_writes (flat_map destroy_write (zip rest prest)) (disk s) /\
    bufPool s' = bufPool s /\ hashTable s' = hashTable s /\
    numBufs s' = numBufs s /\ clockHand s' = clockHand s /\ cerr s' = cerr s.
Proof.
  induction rest as [|d rest IH]; intros prest pre ppre s Hds Hpool Hlp Hlr Hlt Hfile.
  { cbn. exists s. split_and!; try done; by rewrite ?Hds, ?app_nil_r. }
  destruct prest as [|pg prest]; [done|].
  apply Forall_cons in Hfile as [Hfd Hfile].
  cbn [length destroy_from]. unfold bind at 1.
  assert (Hd : bufDescTable s !! length pre = Some d)
    by (rewrite Hds; by apply list_lookup_middle).
  assert (Hpg : bufPool s !! length pre = Some pg)
    by (rewrite Hpool; by apply list_lookup_middle).
  assert (Hnext : wrap32 (N.of_nat (length pre) + 1) = N.of_nat (length (pre ++ [d]))).
  { rewrite length_app. cbn [length]. rewrite Nat.add_1_r. apply wrap32_succ.
    rewrite length_app in Hlt. cbn [length] in Hlt. lia. }
  rewrite Hnext.
  assert (Hstep : exists s1,
    destroy_frame (N.of_nat (length pre)) s = Ok tt s1 /\
    bufDescTable s1 = pre ++ destroy_desc d :: rest /\
    trace s1 = trace s ++ destroy_write (d, pg) /\
    disk s1 = apply_writes (destroy_write (d, pg)) (disk s) /\
    bufPool s1 = bufPool s /\ hashTable s1 = hashTable s /\
    numBufs s1 = numBufs s /\ clockHand s1 = clockHand s /\ cerr s1 = cerr s).
  { unfold_monad. cbn. rewrite Nat2N.id, Hd. cbn.
    unfold destroy_desc, destroy_write. cbn.
    destruct (valid d && dirty d) eqn:Hvd; cbn.
    - apply andb_prop in Hvd as [Hv Hdy].
      rewrite Hpg. cbn. destruct (file d) as [f|] eqn:Hf; [|by destruct Hfd].
      cbn. rewrite Hd. cbn. eexists. split; [done|]. cbn. split_and!; try done.
      rewrite Hds. replace (length pre) with (length pre + 0)%nat at 1 by lia.
      by rewrite insert_app_r.
    - exists s. split_and!; try done. by rewrite app_nil_r. }
  destruct Hstep as (s1 & -> & Hds1 & Htr1 & Hdk1 & Hp1 & Hh1 & Hn1 & Hc1 & He1).
  specialize (IH prest (pre ++ [destroy_desc d]) (ppre ++ [pg]) s1).
  replace (length (pre ++ [destroy_desc d])) with (length (pre ++ [d])) in IH
    by (by rewrite !length_app).
  destruct IH as (s' & Hrun & Hds' & Htr' & Hdk' & Hp' & Hh' & Hn' & Hc' & He').
  - by rewrite Hds1, <- app_assoc.
  - by rewrite Hp1, Hpool, <- app_assoc.
  - rewrite !length_app. cbn. lia.
  - cbn in Hlr. lia.
  - rewrite !length_app in *. cbn [length] in *. lia.
  - done.
  - exists s'. split; [done|]. cbn [zip zip_with flat_map fmap list_fmap].
    split_and!; try congruence.
    + by rewrite Hds', <- app_assoc.
    + rewrite Htr', Htr1, <- app_assoc. done.
    + rewrite Hdk', Hdk1. unfold apply_writes. by rewrite foldl_app.
Qed.

(** X14: the destructor never throws, pinned frames included.  It writes
    back the page of every valid dirty frame, in ascending frame order, and
    clears those dirty flags; descriptors are otherwise untouched, and so
    are the index and the page slots.  (Well-formed table whose valid
    dirty frames have a file.) *)
Theorem destroy_writes_dirty_pages s :
  well_formed s -> dirty_has_file s ->
  exists s', destroy s = Ok tt s' /\
    bufDescTable s' = destroy_desc <$> bufDescTable s /\
    Forall (fun d => valid d && dirty d = false) (bufDescTable s') /\
    trace s' = trace s ++ flat_map destroy_write (zip (bufDescTable s) (bufPool s)) /\
    disk s' =
      apply_writes (flat_map destroy_write (zip (bufDescTable s) (bufPool s))) (disk s) /\
    bufPool s' = bufPool s /\ hashTable s' = hashTable s.
Proof.
  intros [Hnb Hld Hlp _] Hdf. unfold destroy, bind, gets. rewrite <- Hld.
  destruct (destroy_from_spec (bufDescTable s) (bufPool s) [] [] s)
    as (s' & Hrun & Hds & Htr & Hdk & Hp & Hh & _); try done.
  - congruence.
  - cbn. by rewrite Hld, N2Nat.id.
  - apply Forall_forall. intros d [i Hd]%list_elem_of_lookup. by apply (Hdf i).
  - exists s'. split; [done|]. split_and!; try done.
    rewrite Hds. apply Forall_forall. intros d' [d [-> _]]%list_elem_of_fmap.
    unfold destroy_desc. destruct (valid d && dirty d) eqn:E; [|done].
    cbn. apply andb_false_r.
Qed.

(** *** Second chance *)

Lemma lookup_foldl_clear_refbit (L : list nat) : forall (l : list BufDesc) i,
  foldl clear_refbit_at l L !! i =
  if decide (i ∈ L) then set_refbit false <$> l !! i else l !! i.
Proof.
  induction L as [|x L IH]; intros l i; [done|].
  cbn [foldl]. rewrite IH.
  assert (Hx : clear_refbit_at l x !! i =
               if decide (i = x) then set_refbit false <$> l !! i else l !! i).
  { unfold clear_refbit_at. destruct (l !! x) as [d|] eqn:Hd.
    - destruct (decide (i = x)) as [->|Hne].
      + rewrite list_lookup_insert_eq by (eapply lookup_lt_Some; eauto).
        by rewrite Hd.
      + by rewrite list_lookup_insert_ne.
    - destruct (decide (i = x)) as [->|Hne]; [by rewrite Hd|done]. }
  rewrite Hx.
  destruct (decide (i = x)) as [->|Hne].
  - rewrite (decide_True (P := x ∈ x :: L)) by apply list_elem_of_here.
    destruct (decide (x ∈ L)); [|done]. by destruct (l !! x).
  - destruct (decide (i ∈ L)) as [Hin|Hnin].
    + rewrite decide_True; [done|]. by right.
    + rewrite decide_False; [done|]. intros [?|?]%elem_of_cons; done.
Qed.

Lemma hands_visited_S (k : nat) (nb h : N) :
  hands_visited (S k) nb h =
  N.to_nat (wrap32 (h + 1) mod nb) :: hands_visited k nb (wrap32 (h + 1) mod nb).
Proof.
  unfold hands_visited. cbn [seq fmap list_fmap]. f_equal.
  rewrite <- fmap_S_seq, <- list_fmap_compose. apply list_fmap_ext.
  intros _ j _. unfold compose. by rewrite hand_after_S.
Qed.

(** A stretch of valid frames with their reference bits set: the loop
    clears the bits one after the other and goes on. *)
Lemma allocBuf_loop_referenced k : forall m n s,
  numBufs s <> 0 ->
  (forall j, (1 <= j <= k)%nat ->
     exists d, bufDescTable s !! N.to_nat (hand_after j (numBufs s) (clockHand s)) = Some d /\
               valid d = true /\ refbit d = true) ->
  (forall j j', (1 <= j)%nat -> (j < j')%nat -> (j' <= k)%nat ->
     hand_after j (numBufs s) (clockHand s) <> hand_after j' (numBufs s) (clockHand s)) ->
  allocBuf_loop (k + m) n s =
  allocBuf_loop m n
    (with_descs (foldl clear_refbit_at (bufDescTable s)
                   (hands_visited k (numBufs s) (clockHand s)))
       (with_hand (hand_after k (numBufs s) (clockHand s)) s)).
Proof.
  induction k as [|k IH]; intros m n s Hnb Hall Hinj.
  { cbn. by destruct s. }
  cbn [Nat.add]. rewrite allocBuf_loop_S. cbn zeta.
  apply N.eqb_neq in Hnb as Hnb'. rewrite Hnb'.
  destruct (Hall 1%nat) as (d & Hd & Hv & Hr); [lia|].
  change (hand_after 1 (numBufs s) (clockHand s)) with (nextHand s) in Hd.
  rewrite Hd, Hv, Hr.
  set (s1 := with_descs _ _).
  rewrite (IH m n s1); cbn [s1 numBufs clockHand with_descs with_hand bufDescTable].
  - rewrite hands_visited_S, hand_after_S. fold (nextHand s). cbn [foldl].
    assert (Ec : clear_refbit_at (bufDescTable s) (N.to_nat (nextHand s)) =
                 <[N.to_nat (nextHand s) := set_refbit false d]> (bufDescTable s))
      by (unfold clear_refbit_at; by rewrite Hd).
    rewrite Ec. done.
  - done.
  - intros j Hj.
    replace (hand_after j (numBufs s) (nextHand s))
      with (hand_after (S j) (numBufs s) (clockHand s))
      by (by rewrite hand_after_S).
    destruct (Hall (S j)) as (dj & Hdj & Hvj & Hrj); [lia|].
    exists dj. split; [|done]. rewrite list_lookup_insert_ne; [done|].
    intros Heq. apply N2Nat.inj in Heq.
    apply (Hinj 1%nat (S j)); [lia..|]. done.
  - intros j j' Hj Hjj' Hj'.
    replace (hand_after j (numBufs s) (nextHand s))
      with (hand_after (S j) (numBufs s) (clockHand s))
      by (by rewrite hand_after_S).
    replace (hand_after j' (numBufs s) (nextHand s))
      with (hand_after (S j') (numBufs s) (clockHand s))
      by (by rewrite hand_after_S).
    apply Hinj; lia.
Qed.

(** X15: second chance.  When every frame is valid with its reference bit
    set, the first [numBufs] iterations of [allocBuf] only clear the
    reference bits, whatever the pin counts, and bring the hand back to
    where it was; the loop goes on from there.  If the frame after the hand
    is unpinned and clean, it is the victim: [allocBuf] returns it cleared
    after [numBufs + 1] iterations, every other frame having lost its
    reference bit. *)
Theorem allocBuf_second_chance m s :
  well_formed s -> clockHand s < numBufs s ->
  (forall i d, bufDescTable s !! i = Some d -> valid d = true /\ refbit d = true) ->
  let s1 := with_descs (set_refbit false <$> bufDescTable s) s in
  allocBuf (N.to_nat (numBufs s) + m) s = allocBuf_loop m 0 s1 /\
  forall d, bufDescTable s !! N.to_nat (nextHand s) = Some d ->
    pinCnt d = 0%Z -> dirty d = false ->
    allocBuf (N.to_nat (numBufs s) + 1) s =
    Ok (Some (frameNo d))
       (with_descs (<[N.to_nat (nextHand s) := Clear d]> (set_refbit false <$> bufDescTable s))
          (with_hand (nextHand s) s)).
Proof.
  intros [Hlt Hld Hlp Hnum] Hh Hall s1.
  assert (Hnb : numBufs s <> 0) by lia.
  assert (Hrun : forall m', allocBuf (N.to_nat (numBufs s) + m') s = allocBuf_loop m' 0 s1).
  { intros m'. unfold allocBuf. rewrite allocBuf_loop_referenced; try done.
    - f_equal.
      assert (Eh : hand_after (N.to_nat (numBufs s)) (numBufs s) (clockHand s) = clockHand s).
      { rewrite hand_after_add by done. rewrite N2Nat.id.
        replace (clockHand s + numBufs s) with (clockHand s + 1 * numBufs s) by lia.
        rewrite N.Div0.mod_add. by apply N.mod_small. }
      rewrite Eh. unfold s1.
      assert (El : foldl clear_refbit_at (bufDescTable s)
                     (hands_visited (N.to_nat (numBufs s)) (numBufs s) (clockHand s))
                   = set_refbit false <$> bufDescTable s).
      { apply list_eq. intros i. rewrite lookup_foldl_clear_refbit, list_lookup_fmap.
        destruct (decide _) as [Hin|Hnin]; [done|].
        destruct (bufDescTable s !! i) as [d|] eqn:Hd; [|done].
        exfalso. apply Hnin. apply lookup_lt_Some in Hd.
        destruct (hand_reaches (numBufs s) (clockHand s) (N.of_nat i))
          as (k & Hk & Hka); try done; [lia|].
        unfold hands_visited. apply list_elem_of_fmap. exists k.
        split; [by rewrite Hka, Nat2N.id|]. apply elem_of_seq. lia. }
      rewrite El. by destruct s.
    - intros j Hj.
      assert (Hj' : hand_after j (numBufs s) (clockHand s) < numBufs s).
      { rewrite hand_after_add by done. by apply N.mod_lt. }
      destruct (lookup_lt_is_Some_2 (bufDescTable s)
                  (N.to_nat (hand_after j (numBufs s) (clockHand s)))) as [d Hd]; [lia|].
      exists d. split; [done|]. by eapply Hall.
    - intros j j' Hj Hjj' Hj' Heq.
      apply hand_after_inj in Heq; try done; lia. }
  split; [apply Hrun|].
  intros d Hd Hp Hdy. rewrite Hrun, allocBuf_loop_S. cbn zeta.
  apply N.eqb_neq in Hnb as Hnb'.
  change (numBufs s1) with (numBufs s). change (nextHand s1) with (nextHand s).
  rewrite Hnb'. cbn [s1 bufDescTable with_descs].
  rewrite list_lookup_fmap, Hd. cbn.
  destruct (Hall _ _ Hd) as [Hv _]. rewrite Hv, Hp, Hdy. cbn. done.
Qed.

End Properties.

(** ** The scenarios, run *)

Section Runs.

Import Toy Scenario.

(** Equal outcomes leave equal states. *)
Lemma Ok_state_inj {A} (a b : A) (s s' : State Disk) :
  Ok a s = Ok b s' -> s' = s.
Proof. intros H. congruence. Qed.

Lemma Throw_state_inj {A} e e' (s s' : State Disk) :
  @Throw Disk A e s = Throw e' s' -> s' = s.
Proof. intros H. congruence. Qed.

(** The constructor establishes the invariants. *)
Lemma invariants_one_0 : invariants one_0.
Proof.
  assert (Hd : forall i d, bufDescTable one_0 !! i = Some d ->
            i = 0%nat /\ d = mkBufDesc 0 None 0 0 false false false).
  { intros [|i] d H; vm_compute in H; by simplify_eq. }
  assert (Hk : forall k fr, hashTable one_0 !! k = Some fr -> False).
  { intros k fr. change (hashTable one_0) with (∅ : gmap (option N * N) N).
    by rewrite lookup_empty. }
  unfold invariants, inv_index, inv_distinct, inv_pin, inv_dirty, inv_invalid,
    inv_hand.
  split_and!.
  - intros i d [-> ->]%Hd. done.
  - intros k fr []%Hk.
  - intros i j d1 d2 [-> _]%Hd [-> _]%Hd. done.
  - intros i d [-> ->]%Hd. done.
  - intros i d [-> ->]%Hd. done.
  - intros i d [-> ->]%Hd _. split_and!; try done;
      try (intros k H; by apply Hk in H).
  - vm_compute. reflexivity.
Qed.

(** The end of the one-frame scenario. *)
Lemma one_5_stale_entry : hashTable one_5 !! (Some 7, 1) = Some 0.
Proof. vm_compute; reflexivity. Qed.

Lemma one_5_frame :
  bufDescTable one_5 !! 0%nat = Some (mkBufDesc 0 None 0 0 false false false).
Proof. vm_compute; reflexivity. Qed.

Lemma one_5_inv_index : ~ inv_index one_5.
Proof.
  intros [_ H]. destruct (H _ _ one_5_stale_entry) as (d & Hd & Hv).
  change (N.to_nat 0) with 0%nat in Hd. rewrite one_5_frame in Hd.
  injection Hd as <-. discriminate Hv.
Qed.

Lemma one_5_inv_invalid : ~ inv_invalid one_5.
Proof.
  intros H. destruct (H _ _ one_5_frame eq_refl) as (_ & _ & _ & Hno).
  exact (Hno _ one_5_stale_entry).
Qed.

(** C1 on the code: every operation of the one-frame scenario returns
    normally from a state built by the constructor, yet the index ends with
    the entry of page 1, which was evicted clean, naming a frame that is not
    valid: invariants 1 and 5 do not hold. *)
Theorem invariants_broken_after_clean_eviction :
  invariants one_0 /\
  readPage 1 F 1 one_0 = Ok tt one_1 /\
  unPinPage F 1 false one_1 = Ok tt one_2 /\
  readPage 2 F 2 one_2 = Ok tt one_3 /\
  unPinPage F 2 false one_3 = Ok tt one_4 /\
  flushFile F one_4 = Ok tt one_5 /\
  hashTable one_5 !! (Some 7, 1) = Some 0 /\
  (valid <$> bufDescTable one_5 !! 0%nat) = Some false /\
  ~ inv_index one_5 /\ ~ inv_invalid one_5 /\ ~ invariants one_5.
Proof.
  split; [exact invariants_one_0|].
  do 5 (split; [vm_compute; reflexivity|]).
  split; [exact one_5_stale_entry|].
  split; [rewrite one_5_frame; reflexivity|].
  split; [exact one_5_inv_index|]. split; [exact one_5_inv_invalid|].
  intros [H _]. exact (one_5_inv_index H).
Qed.

(** C2 on the code: the victim of [allocBuf] in [one_2] is valid, clean and
    unpinned; it comes back cleared while its index entry stays.  On the
    dirty path, from [one_2d], the entry is removed. *)
Theorem clean_eviction_keeps_index_entry :
  bufDescTable one_2 !! 0%nat = Some (mkBufDesc 0 (Some 7) 1 0 false true true) /\
  hashTable one_2 !! (Some 7, 1) = Some 0 /\
  (exists s', allocBuf 2 one_2 = Ok (Some 0) s' /\
     bufDescTable s' !! 0%nat = Some (Clear (mkBufDesc 0 (Some 7) 1 0 false true false)) /\
     hashTable s' !! (Some 7, 1) = Some 0) /\
  bufDescTable one_2d !! 0%nat = Some (mkBufDesc 0 (Some 7) 1 0 true true true) /\
  (exists s', allocBuf 2 one_2d = Ok (Some 0) s' /\
     hashTable s' !! (Some 7, 1) = None).
Proof.
  split; [vm_compute; reflexivity|]. split; [vm_compute; reflexivity|].
  split; [eexists; split; [vm_compute; reflexivity|split; vm_compute; reflexivity]|].
  split; [vm_compute; reflexivity|].
  eexists; split; vm_compute; reflexivity.
Qed.

(** C4 on the code: in [two_5] frame 1 is valid and unpinned, yet
    [allocBuf] throws [BufferExceeded]: the pinned frame 0 is counted twice,
    before and after the reference bit of frame 1 is cleared. *)
Theorem BufferExceeded_with_unpinned_frame :
  numBufs two_5 = 2 /\ clockHand two_5 = 1 /\
  bufDescTable two_5 =
    [mkBufDesc 0 (Some 7) 1 1 false true false;
     mkBufDesc 1 (Some 7) 3 0 false true true] /\
  exists s', allocBuf 3 two_5 = Throw BufferExceededException s' /\
    bufDescTable s' =
      [mkBufDesc 0 (Some 7) 1 1 false true false;
       mkBufDesc 1 (Some 7) 3 0 false true false].
Proof.
  do 3 (split; [vm_compute; reflexivity|]).
  eexists; split; vm_compute; reflexivity.
Qed.

(** C3 on the code: from the fresh pool the hand lands on frame 0, which is
    not valid, and [allocBuf] hands it back [Set] with its stale identity:
    valid, pinned once and referenced, not with the descriptors left as they
    were.  The other way out of the loop, the eviction from [one_2], hands
    the frame back cleared and not valid.  The difference shows when the
    caller does not get to its own [Set]: in [two_1] the page that
    [allocPage] reserves is already in the index, the insertion fails, and
    [allocPage] returns with frame 1 valid and pinned for no page at all,
    named by no index entry. *)
Theorem allocBuf_modifies_invalid_frame :
  bufDescTable one_0 !! 0%nat = Some (mkBufDesc 0 None 0 0 false false false) /\
  (exists s', allocBuf 1 one_0 = Ok (Some 0) s' /\
     bufDescTable s' !! 0%nat = Some (mkBufDesc 0 None 0 1 false true true)) /\
  ~ (exists s', allocBuf 1 one_0 = Ok (Some 0) s' /\
       bufDescTable s' = bufDescTable one_0) /\
  (exists s', allocBuf 2 one_2 = Ok (Some 0) s' /\
     bufDescTable s' !! 0%nat = Some (mkBufDesc 0 None 0 0 false false false)) /\
  bufDescTable two_1 !! 1%nat = Some (mkBufDesc 1 None 0 0 false false false) /\
  (exists s', allocPage 2 F two_1 = Ok tt s' /\
     cerr s' = [HashAlreadyPresentException (Some 7) 1 1] /\
     bufDescTable s' !! 1%nat = Some (mkBufDesc 1 None 0 1 false true true) /\
     hashTable s' = {[ (Some 7, 1) := 0 ]}).
Proof.
  assert (E : allocBuf 1 one_0 = Ok (Some 0) (exec (allocBuf 1) one_0))
    by (vm_compute; reflexivity).
  split; [vm_compute; reflexivity|]. split; [|split; [|split; [|split]]].
  - eexists. split; [exact E|]. vm_compute; reflexivity.
  - intros (s' & Hrun & Heq). rewrite E in Hrun. apply Ok_state_inj in Hrun. subst s'.
    assert (E0 : bufDescTable one_0 = [mkBufDesc 0 None 0 0 false false false])
      by (vm_compute; reflexivity).
    assert (E1 : bufDescTable (exec (allocBuf 1) one_0) =
                 [mkBufDesc 0 None 0 1 false true true])
      by (vm_compute; reflexivity).
    rewrite E0, E1 in Heq. discriminate Heq.
  - eexists. split; vm_compute; reflexivity.
  - vm_compute; reflexivity.
  - eexists. split; [vm_compute; reflexivity|]. split_and!; vm_compute; reflexivity.
Qed.

(** C5 on the code: in [two_2] both frames are pinned and page 3 is not in
    the index.  [allocBuf] throws [BufferExceeded], and [allocPage] lets it
    reach its caller; [readPage] catches it, prints it and returns normally,
    with the caller's page handle as it was and page 3 in no frame: no
    exception reaches the caller of [readPage]. *)
Theorem readPage_does_not_report_BufferExceeded :
  bufDescTable two_2 =
    [mkBufDesc 0 (Some 7) 1 1 false true true; mkBufDesc 1 (Some 7) 2 1 false true true] /\
  hashTable two_2 !! (Some 7, 3) = None /\
  thrown (allocBuf 4) two_2 = Some BufferExceededException /\
  thrown (allocPage 4 F) two_2 = Some BufferExceededException /\
  (exists s', readPage 4 F 3 two_2 = Ok tt s' /\
     cerr s' = [BufferExceededException] /\
     ref_page s' = ref_page two_2 /\
     hashTable s' !! (Some 7, 3) = None /\
     ~ resident 7 3 s') /\
  ~ (exists e s', readPage 4 F 3 two_2 = Throw e s').
Proof.
  assert (E : readPage 4 F 3 two_2 = Ok tt (exec (readPage 4 F 3) two_2))
    by (vm_compute; reflexivity).
  do 4 (split; [vm_compute; reflexivity|]). split.
  - eexists. split; [exact E|]. do 3 (split; [vm_compute; reflexivity|]).
    assert (Ed : bufDescTable (exec (readPage 4 F 3) two_2) =
                 [mkBufDesc 0 (Some 7) 1 1 false true false;
                  mkBufDesc 1 (Some 7) 2 1 false true false])
      by (vm_compute; reflexivity).
    intros (i & d & Hd & _ & _ & Hp). rewrite Ed in Hd.
    destruct i as [|[|i]]; cbn in Hd; [| |discriminate Hd];
      injection Hd as <-; discriminate Hp.
  - intros (e & s' & Hrun). rewrite E in Hrun. discriminate Hrun.
Qed.

(** C8 on the code: [unPinPage] goes by the index, and the index keeps the
    entry of a page that was evicted clean.  In [one_3] and [one_4] the one
    frame holds page 2 and page 1 is in no frame, but the index still has
    the entry of page 1.  In [one_4], where the frame is unpinned,
    [unPinPage] of page 1 throws [PageNotPinned] instead of returning
    silently; in [one_3], where page 2 is pinned, [unPinPage] of page 1
    takes the pin of page 2 away and marks its frame dirty. *)
Theorem unPinPage_through_stale_entry :
  readPage 1 F 1 one_0 = Ok tt one_1 /\
  unPinPage F 1 false one_1 = Ok tt one_2 /\
  readPage 2 F 2 one_2 = Ok tt one_3 /\
  unPinPage F 2 false one_3 = Ok tt one_4 /\
  bufDescTable one_4 = [mkBufDesc 0 (Some 7) 2 0 false true true] /\
  ~ resident 7 1 one_4 /\
  unPinPage F 1 false one_4 = Throw (PageNotPinnedException "F" 1 0) one_4 /\
  bufDescTable one_3 = [mkBufDesc 0 (Some 7) 2 1 false true true] /\
  ~ resident 7 1 one_3 /\
  (exists s', unPinPage F 1 true one_3 = Ok tt s' /\ s' <> one_3 /\
     bufDescTable s' = [mkBufDesc 0 (Some 7) 2 0 true true true]).
Proof.
  assert (E4 : bufDescTable one_4 = [mkBufDesc 0 (Some 7) 2 0 false true true])
    by (vm_compute; reflexivity).
  assert (E3 : bufDescTable one_3 = [mkBufDesc 0 (Some 7) 2 1 false true true])
    by (vm_compute; reflexivity).
  do 4 (split; [vm_compute; reflexivity|]).
  split; [exact E4|]. split; [|split; [vm_compute; reflexivity|]].
  { intros (i & d & Hd & _ & _ & Hp). rewrite E4 in Hd.
    destruct i as [|i]; cbn in Hd; [|discriminate Hd].
    injection Hd as <-. discriminate Hp. }
  split; [exact E3|]. split.
  { intros (i & d & Hd & _ & _ & Hp). rewrite E3 in Hd.
    destruct i as [|i]; cbn in Hd; [|discriminate Hd].
    injection Hd as <-. discriminate Hp. }
  assert (E : bufDescTable (exec (unPinPage F 1 true) one_3) =
              [mkBufDesc 0 (Some 7) 2 0 true true true])
    by (vm_compute; reflexivity).
  eexists. split; [vm_compute; reflexivity|]. split; [|exact E].
  intros Heq. apply (f_equal bufDescTable) in Heq.
  rewrite E3 in Heq.
  change (bufDescTable (exec (unPinPage F 1 true) one_3) =
          [mkBufDesc 0 (Some 7) 2 1 false true true]) in Heq.
  rewrite E in Heq. discriminate Heq.
Qed.

(** C9 fails as stated: when [allocPage] fails in [two_5], [pageNo] has
    been assigned and the reference bit of frame 1 has been cleared; the
    outputs and the pool are not as they were. *)
Lemma allocPage_failure_assigns_pageNo :
  ref_pageNo two_5 = None /\
  (refbit <$> bufDescTable two_5 !! 1%nat) = Some true /\
  (exists s', allocPage 3 F two_5 = Throw BufferExceededException s' /\
     ref_pageNo s' = Some 1 /\
     (refbit <$> bufDescTable s' !! 1%nat) = Some false) /\
  ~ (exists s', allocPage 3 F two_5 = Throw BufferExceededException s' /\
       ref_pageNo s' = ref_pageNo two_5) /\
  ~ (exists s', allocPage 3 F two_5 = Throw BufferExceededException s' /\
       bufDescTable s' = bufDescTable two_5).
Proof.
  assert (E : allocPage 3 F two_5 =
              Throw BufferExceededException (exec (allocPage 3 F) two_5))
    by (vm_compute; reflexivity).
  do 2 (split; [vm_compute; reflexivity|]). split; [|split].
  - eexists. split; [exact E|]. split; vm_compute; reflexivity.
  - intros (s' & Hrun & Heq). rewrite E in Hrun. apply Throw_state_inj in Hrun. subst s'.
    assert (E0 : ref_pageNo two_5 = None) by (vm_compute; reflexivity).
    assert (E1 : ref_pageNo (exec (allocPage 3 F) two_5) = Some 1)
      by (vm_compute; reflexivity).
    rewrite E0, E1 in Heq. discriminate Heq.
  - intros (s' & Hrun & Heq). rewrite E in Hrun. apply Throw_state_inj in Hrun. subst s'.
    assert (E0 : bufDescTable two_5 !! 1%nat =
                 Some (mkBufDesc 1 (Some 7) 3 0 false true true))
      by (vm_compute; reflexivity).
    assert (E1 : bufDescTable (exec (allocPage 3 F) two_5) !! 1%nat =
                 Some (mkBufDesc 1 (Some 7) 3 0 false true false))
      by (vm_compute; reflexivity).
    rewrite Heq, E0 in E1. discriminate E1.
Qed.

(** C7 fails as stated: the frame of page 1 is valid and dirty in
    [one_2d]; [disposePage] clears the flag and writes nothing, so the flag
    is neither kept nor cleared by a write-back. *)
Lemma disposePage_clears_dirty_without_write :
  bufDescTable one_2d !! 0%nat = Some (mkBufDesc 0 (Some 7) 1 0 true true true) /\
  (exists s', disposePage F 1 one_2d = Ok tt s' /\
     (dirty <$> bufDescTable s' !! 0%nat) = Some false /\
     trace s' = trace one_2d ++ [EvDeletePage 7 1]) /\
  ~ (exists s', disposePage F 1 one_2d = Ok tt s' /\ dirty_safe one_2d s').
Proof.
  assert (E : disposePage F 1 one_2d = Ok tt (exec (disposePage F 1) one_2d))
    by (vm_compute; reflexivity).
  assert (Hd : bufDescTable one_2d !! 0%nat =
               Some (mkBufDesc 0 (Some 7) 1 0 true true true))
    by (vm_compute; reflexivity).
  split; [exact Hd|]. split.
  - eexists. split; [exact E|]. split; vm_compute; reflexivity.
  - intros (s' & Hrun & evs & Htr & Hsafe). rewrite E in Hrun.
    apply Ok_state_inj in Hrun. subst s'.
    destruct (Hsafe _ _ Hd eq_refl eq_refl)
      as [(d' & Hd' & _ & Hdy & _)|(g & pg & _ & _ & Hin)].
    + assert (E1 : bufDescTable (exec (disposePage F 1) one_2d) !! 0%nat =
                   Some (mkBufDesc 0 None 0 0 false false false))
        by (vm_compute; reflexivity).
      rewrite E1 in Hd'. injection Hd' as <-. discriminate Hdy.
    + assert (E1 : trace (exec (disposePage F 1) one_2d) =
                   trace one_2d ++ [EvDeletePage 7 1])
        by (vm_compute; reflexivity).
      rewrite E1 in Htr. apply app_inv_head in Htr. subst evs.
      apply list_elem_of_singleton in Hin. discriminate Hin.
Qed.

(** *** The general theorems at concrete inputs *)

(** Disposing the dirty page 1 of [one_2d]. *)
Lemma disposePage_discards_without_write_witness :
  hashTable one_2d !! (Some 7, 1) = Some 0 /\
  exists s', disposePage F 1 one_2d = Ok tt s' /\
    trace s' = trace one_2d ++ [EvDeletePage 7 1].
Proof.
  assert (Hk : hashTable one_2d !! (Some 7, 1) = Some 0) by (vm_compute; reflexivity).
  split; [exact Hk|].
  destruct (disposePage_discards_without_write 7 1 0
              (mkBufDesc 0 (Some 7) 1 0 true true true) one_2d Hk)
    as (s' & Hrun & _ & _ & _ & Htr & _).
  - vm_compute; reflexivity.
  - exists s'. split; assumption.
Defined.

(** [allocPage] in [two_5], where [allocBuf] throws. *)
Lemma allocPage_not_atomic_witness :
  exists s2, allocPage 3 F two_5 = Throw BufferExceededException s2 /\
    ref_pageNo s2 = Some 1 /\ hashTable s2 = hashTable two_5.
Proof.
  pose (s0 := with_ref_pageNo 1 (with_disk [(7, mkPage 1 0)] (EvAllocatePage 7 1) two_5)).
  destruct (allocPage_not_atomic 3 7 two_5 (exec (allocBuf 3) s0))
    as (Hrun & _ & _ & Hp & _ & Hh & _).
  - vm_compute; reflexivity.
  - eexists. split; [exact Hrun|]. split; [exact Hp|exact Hh].
Defined.

(** The state [one_2d]: one frame, holding page 1 of the file, dirty. *)
Lemma one_2d_frame i d :
  bufDescTable one_2d !! i = Some d ->
  i = 0%nat /\ d = mkBufDesc 0 (Some 7) 1 0 true true true.
Proof.
  destruct i as [|i]; intros H; vm_compute in H.
  - injection H as <-. split; reflexivity.
  - discriminate H.
Qed.

Lemma one_2d_well_formed : well_formed one_2d.
Proof.
  split; try (vm_compute; reflexivity).
  intros i d [-> ->]%one_2d_frame. reflexivity.
Qed.

Lemma one_2d_indexed : indexed 7 one_2d.
Proof.
  intros i d [-> ->]%one_2d_frame _ _. vm_compute; reflexivity.
Qed.

(** Flushing the file in [one_2d]: its one frame is dirty and unpinned. *)
Lemma flushFile_per_frame_witness :
  well_formed one_2d /\ indexed 7 one_2d /\
  exists s', flushFile F one_2d = Ok tt s' /\
    bufDescTable s' = [mkBufDesc 0 None 0 0 false false false] /\
    hashTable s' !! (Some 7, 1) = None /\
    trace s' = trace one_2d ++ [EvWritePage 7 (mkPage 1 0)].
Proof.
  split; [exact one_2d_well_formed|]. split; [exact one_2d_indexed|].
  pose proof (flushFile_per_frame 7 one_2d one_2d_well_formed one_2d_indexed) as H.
  assert (E : flushFile F one_2d = Ok tt (exec (flushFile F) one_2d))
    by (vm_compute; reflexivity).
  change (flushFile (Some 7) one_2d) with (flushFile F one_2d) in H.
  rewrite E in H. destruct H as (_ & Hds & Hfl & Hk).
  eexists. split; [exact E|]. split; [|split].
  - rewrite Hds. vm_compute; reflexivity.
  - apply (Hk (mkBufDesc 0 (Some 7) 1 0 true true true)); [|reflexivity].
    change (bufDescTable one_2d) with [mkBufDesc 0 (Some 7) 1 0 true true true].
    apply list_elem_of_here.
  - rewrite (fl_trace _ _ _ _ Hfl). vm_compute; reflexivity.
Defined.

(** Reading page 2 in [one_2d] evicts the dirty page 1, which is written. *)
Lemma dirty_flag_kept_or_written_back_witness :
  frames_numbered one_2d /\
  final_state (readPage 2 F 2 one_2d) = Some (exec (readPage 2 F 2) one_2d) /\
  dirty_safe one_2d (exec (readPage 2 F 2) one_2d) /\
  trace (exec (readPage 2 F 2) one_2d) =
    trace one_2d ++ [EvWritePage 7 (mkPage 1 0); EvReadPage 7 2].
Proof.
  assert (Hnum : frames_numbered one_2d) by apply one_2d_well_formed.
  assert (E : final_state (readPage 2 F 2 one_2d) = Some (exec (readPage 2 F 2) one_2d))
    by (vm_compute; reflexivity).
  split; [exact Hnum|]. split; [exact E|]. split; [|vm_compute; reflexivity].
  destruct (dirty_flag_kept_or_written_back one_2d) as (_ & H & _).
  destruct (H Hnum) as [Hread _]. exact (Hread 2%nat F 2 _ E).
Defined.

(** *** The further properties at concrete inputs *)

(** The scenario states are reachable. *)
Lemma one_2_reachable : reachable one_2.
Proof.
  apply (reach_unPinPage F 1 false one_1); [|vm_compute; reflexivity].
  apply (reach_readPage 1 F 1 one_0); [|vm_compute; reflexivity].
  apply reach_new; vm_compute; reflexivity.
Qed.

Lemma two_2_reachable : reachable two_2.
Proof.
  apply (reach_readPage 1 F 2 two_1); [|vm_compute; reflexivity].
  apply (reach_readPage 1 F 1 two_0); [|vm_compute; reflexivity].
  apply reach_new; vm_compute; reflexivity.
Qed.

Lemma two_3_reachable : reachable two_3.
Proof.
  apply (reach_unPinPage F 2 false two_2); [|vm_compute; reflexivity].
  apply two_2_reachable.
Qed.

Lemma two_5_reachable : reachable two_5.
Proof.
  apply (reach_unPinPage F 3 false two_4); [|vm_compute; reflexivity].
  apply (reach_readPage 4 F 3 two_3); [|vm_compute; reflexivity].
  apply two_3_reachable.
Qed.

Lemma three_6_reachable : reachable three_6.
Proof.
  apply (reach_unPinPage F 3 false three_5); [|vm_compute; reflexivity].
  apply (reach_unPinPage F 2 false three_4); [|vm_compute; reflexivity].
  apply (reach_unPinPage F 1 false three_3); [|vm_compute; reflexivity].
  apply (reach_readPage 1 F 3 three_2); [|vm_compute; reflexivity].
  apply (reach_readPage 1 F 2 three_1); [|vm_compute; reflexivity].
  apply (reach_readPage 1 F 1 three_0); [|vm_compute; reflexivity].
  apply reach_new; vm_compute; reflexivity.
Qed.

(** Two advances in [two_5] bring the hand back. *)
Lemma advanceClock_cycle_witness :
  clockHand two_5 < numBufs two_5 /\
  advanceClock_n 2 two_5 = Ok tt two_5.
Proof.
  assert (H1 : numBufs two_5 <> 0) by (vm_compute; discriminate).
  assert (H2 : numBufs two_5 < 2 ^ 32) by (vm_compute; reflexivity).
  assert (H3 : clockHand two_5 < numBufs two_5) by (vm_compute; reflexivity).
  split; [exact H3|].
  destruct (advanceClock_cycle two_5 H1 H2 H3) as (_ & H & _). exact H.
Defined.

(** A manager of three frames. *)
Lemma BufMgr_new_invariants_witness :
  invariants (BufMgr_new 3 ([] : Disk)) /\ nextHand (BufMgr_new 3 ([] : Disk)) = 0.
Proof.
  destruct (BufMgr_new_invariants 3 ([] : Disk)) as (_ & Hinv & _ & Hn & _).
  - vm_compute; reflexivity.
  - vm_compute; reflexivity.
  - split; [exact Hinv|exact Hn].
Defined.

(** The victim in [two_3] is frame 1, unpinned; frame 0 stays pinned. *)
Lemma allocBuf_takes_invalid_or_unpinned_witness :
  frames_numbered two_3 /\
  exists s', allocBuf 4 two_3 = Ok (Some 1) s' /\
    exists d, bufDescTable two_3 !! 1%nat = Some d /\ pinCnt d = 0%Z.
Proof.
  assert (Hnum : frames_numbered two_3)
    by apply (wf_frameNo _ (snd_wf _ (reachable_sound _ two_3_reachable))).
  split; [exact Hnum|].
  assert (E : allocBuf 4 two_3 = Ok (Some 1) (exec (allocBuf 4) two_3))
    by (vm_compute; reflexivity).
  eexists. split; [exact E|].
  destruct (allocBuf_takes_invalid_or_unpinned 4 two_3 1 _ Hnum E)
    as (d & Hd & Hcase & _).
  exists d. split; [exact Hd|].
  destruct Hcase as [[Hv _]|(_ & Hp & _)]; [|exact Hp].
  assert (E1 : bufDescTable two_3 !! 1%nat =
               Some (mkBufDesc 1 (Some 7) 2 0 false true true))
    by (vm_compute; reflexivity).
  change (N.to_nat 1) with 1%nat in Hd. rewrite E1 in Hd.
  injection Hd as <-. reflexivity.
Defined.

Lemma two_2_frames :
  bufDescTable two_2 =
  [mkBufDesc 0 (Some 7) 1 1 false true true; mkBufDesc 1 (Some 7) 2 1 false true true].
Proof. vm_compute; reflexivity. Qed.

(** Both frames of [two_2] are pinned. *)
Lemma allocBuf_all_pinned_throws_witness :
  well_formed two_2 /\
  exists s', allocBuf 4 two_2 = Throw BufferExceededException s'.
Proof.
  assert (Hwf : well_formed two_2) by apply (snd_wf _ (reachable_sound _ two_2_reachable)).
  split; [exact Hwf|].
  destruct (allocBuf_all_pinned_throws 4 two_2 Hwf) as (s' & Hrun & _).
  - vm_compute; reflexivity.
  - intros i d. rewrite two_2_frames.
    destruct i as [|[|i]]; cbn; intros H; [| |discriminate H];
      injection H as <-; split; reflexivity.
  - vm_compute. lia.
  - exists s'. exact Hrun.
Defined.

(** Ten iterations on [negative_pin] do not end the loop. *)
Lemma allocBuf_negative_pins_never_ends_witness :
  allocBuf_loop 10 0 negative_pin = OutOfFuel.
Proof.
  apply allocBuf_negative_pins_never_ends.
  - vm_compute; discriminate.
  - vm_compute; reflexivity.
  - intros i d. change (bufDescTable negative_pin)
      with [mkBufDesc 0 (Some 7) 1 (-1) false true false].
    destruct i as [|i]; cbn; intros H; [|discriminate H].
    injection H as <-. split_and!; reflexivity.
Defined.

(** In [two_1] frame 0 is pinned and frame 1 is free. *)
Lemma allocBuf_finds_available_frame_witness :
  exists fr s', allocBuf 2 two_1 = Ok (Some fr) s'.
Proof.
  assert (Hr : reachable two_1).
  { apply (reach_readPage 1 F 1 two_0); [|vm_compute; reflexivity].
    apply reach_new; vm_compute; reflexivity. }
  apply (allocBuf_finds_available_frame 2 two_1 1
           (mkBufDesc 1 None 0 0 false false false)).
  - by apply reachable_sound.
  - intros i d.
    assert (E : bufDescTable two_1 =
                [mkBufDesc 0 (Some 7) 1 1 false true true;
                 mkBufDesc 1 None 0 0 false false false])
      by (vm_compute; reflexivity).
    rewrite E. destruct i as [|[|i]]; cbn; intros H; [| |discriminate H];
      injection H as <-; intros _ Hd; discriminate Hd.
  - vm_compute; reflexivity.
  - vm_compute; reflexivity.
  - left. reflexivity.
  - vm_compute. lia.
Defined.

(** The invariants in [two_5]. *)
Lemma reachable_invariants_witness :
  reachable two_5 /\ well_formed two_5 /\ inv_hand two_5.
Proof.
  split; [exact two_5_reachable|].
  destruct (reachable_invariants two_5 two_5_reachable) as (Hwf & Hh & _).
  split; [exact Hwf|exact Hh].
Defined.

Lemma two_5_frames :
  bufDescTable two_5 =
  [mkBufDesc 0 (Some 7) 1 1 false true false; mkBufDesc 1 (Some 7) 3 0 false true true].
Proof. vm_compute; reflexivity. Qed.

(** In [two_5] no pin count is negative and no frame is dirty; four
    iterations end the loop. *)
Lemma allocBuf_returns_or_throws_witness :
  sound two_5 /\ pins_nonneg two_5 /\ dirty_has_file two_5 /\
  ((exists fr s', allocBuf 4 two_5 = Ok (Some fr) s') \/
   (exists s', allocBuf 4 two_5 = Throw BufferExceededException s')).
Proof.
  assert (Hs : sound two_5) by apply (reachable_sound _ two_5_reachable).
  assert (Hpin : pins_nonneg two_5).
  { intros i d. rewrite two_5_frames.
    destruct i as [|[|i]]; cbn; intros H; [| |discriminate H];
      injection H as <-; cbn; lia. }
  assert (Hdf : dirty_has_file two_5).
  { intros i d. rewrite two_5_frames.
    destruct i as [|[|i]]; cbn; intros H; [| |discriminate H];
      injection H as <-; intros _ Hd; discriminate Hd. }
  split; [exact Hs|]. split; [exact Hpin|]. split; [exact Hdf|].
  destruct (allocBuf_returns_or_throws 4 two_5 Hs Hpin Hdf) as (_ & H).
  - vm_compute; reflexivity.
  - vm_compute. lia.
  - exact H.
Defined.

(** Reading page 3 in [two_3] loads it into frame 1. *)
Lemma readPage_pins_page_witness :
  readPage 4 F 3 two_3 = Ok tt two_4 /\ cerr two_4 = cerr two_3 /\
  exists fr, ref_page two_4 = Some fr /\ hashTable two_4 !! (Some 7, 3) = Some fr.
Proof.
  assert (E : readPage 4 F 3 two_3 = Ok tt two_4) by (vm_compute; reflexivity).
  assert (Ec : cerr two_4 = cerr two_3) by (vm_compute; reflexivity).
  split; [exact E|]. split; [exact Ec|].
  destruct (readPage_pins_page 4 7 3 two_3 two_4 E Ec) as (fr & d' & Hr & Hk & _).
  exists fr. split; [exact Hr|exact Hk].
Defined.

(** Allocating a page in the fresh one-frame pool. *)
Lemma allocPage_pins_new_page_witness :
  exists s' fr, allocPage 1 F one_0 = Ok tt s' /\
    ref_pageNo s' = Some 1 /\ ref_page s' = Some fr /\
    hashTable s' !! (Some 7, 1) = Some fr.
Proof.
  assert (E : allocPage 1 F one_0 = Ok tt (exec (allocPage 1 F) one_0))
    by (vm_compute; reflexivity).
  assert (Ec : cerr (exec (allocPage 1 F) one_0) = cerr one_0)
    by (vm_compute; reflexivity).
  destruct (allocPage_pins_new_page 1 7 one_0 _ E Ec) as (fr & d' & Hp & Hr & Hk & _).
  exists (exec (allocPage 1 F) one_0), fr.
  split; [exact E|]. split; [exact Hp|]. split; [exact Hr|exact Hk].
Defined.

(** Reading and releasing page 1, resident and unpinned in [one_2]. *)
Lemma readPage_unPinPage_round_trip_witness :
  hashTable one_2 !! (Some 7, 1) = Some 0 /\
  exists s1 s2, readPage 1 F 1 one_2 = Ok tt s1 /\
    unPinPage F 1 false s1 = Ok tt s2 /\
    bufDescTable s2 = bufDescTable one_2.
Proof.
  assert (Hk : hashTable one_2 !! (Some 7, 1) = Some 0) by (vm_compute; reflexivity).
  split; [exact Hk|].
  destruct (readPage_unPinPage_round_trip 1 7 1 false 0
              (mkBufDesc 0 (Some 7) 1 0 false true true) one_2 Hk)
    as (s1 & Hread & Hunpin).
  - vm_compute; reflexivity.
  - cbn. unfold INT_MAX. lia.
  - exists s1. eexists. split; [exact Hread|]. split; [exact Hunpin|].
    vm_compute; reflexivity.
Defined.

(** Disposing page 1 in [one_2d]. *)
Lemma disposePage_leaves_page_absent_witness :
  exists s', disposePage F 1 one_2d = Ok tt s' /\
    hashTable s' !! (Some 7, 1) = None /\
    unPinPage F 1 true s' = Ok tt s'.
Proof.
  destruct (disposePage_leaves_page_absent 7 1 one_2d
              (exec (disposePage F 1) one_2d) true)
    as (Hrun & Hk & _ & _ & _ & _ & Hun).
  - vm_compute; reflexivity.
  - eexists. split; [exact Hrun|]. split; [exact Hk|exact Hun].
Defined.

(** Flushing the file of [one_2d] twice. *)
Lemma flushFile_twice_witness :
  well_formed one_2d /\ indexed 7 one_2d /\
  exists s', flushFile F one_2d = Ok tt s' /\ flushFile F s' = Ok tt s'.
Proof.
  split; [exact one_2d_well_formed|]. split; [exact one_2d_indexed|].
  assert (E : flushFile F one_2d = Ok tt (exec (flushFile F) one_2d))
    by (vm_compute; reflexivity).
  destruct (flushFile_twice 7 one_2d _ one_2d_well_formed one_2d_indexed E)
    as (_ & H).
  eexists. split; [exact E|exact H].
Defined.

(** Destroying the manager in [one_2d] writes page 1. *)
Lemma destroy_writes_dirty_pages_witness :
  well_formed one_2d /\
  exists s', destroy one_2d = Ok tt s' /\
    trace s' = trace one_2d ++ [EvWritePage 7 (mkPage 1 0)].
Proof.
  split; [exact one_2d_well_formed|].
  destruct (destroy_writes_dirty_pages one_2d one_2d_well_formed)
    as (s' & Hrun & _ & _ & Htr & _).
  - intros i d [-> ->]%one_2d_frame _ _. discriminate.
  - exists s'. split; [exact Hrun|]. rewrite Htr. vm_compute; reflexivity.
Defined.

Lemma three_6_frames :
  bufDescTable three_6 =
  [mkBufDesc 0 (Some 7) 1 0 false true true;
   mkBufDesc 1 (Some 7) 2 0 false true true;
   mkBufDesc 2 (Some 7) 3 0 false true true].
Proof. vm_compute; reflexivity. Qed.

(** In [three_6] every frame is referenced and unpinned: page 1, in the
    frame after the hand, is the victim. *)
Lemma allocBuf_second_chance_witness :
  well_formed three_6 /\ clockHand three_6 = 2 /\
  exists s', allocBuf 4 three_6 = Ok (Some 0) s' /\
    bufDescTable s' =
      [mkBufDesc 0 None 0 0 false false false;
       mkBufDesc 1 (Some 7) 2 0 false true false;
       mkBufDesc 2 (Some 7) 3 0 false true false].
Proof.
  assert (Hwf : well_formed three_6)
    by apply (snd_wf _ (reachable_sound _ three_6_reachable)).
  split; [exact Hwf|]. split; [vm_compute; reflexivity|].
  destruct (allocBuf_second_chance 1 three_6 Hwf) as (_ & H).
  - vm_compute; reflexivity.
  - intros i d. rewrite three_6_frames.
    destruct i as [|[|[|i]]]; cbn; intros Hd; [| | |discriminate Hd];
      injection Hd as <-; split; reflexivity.
  - eexists. split.
    + apply (H (mkBufDesc 0 (Some 7) 1 0 false true true)); [|reflexivity..].
      vm_compute; reflexivity.
    + vm_compute; reflexivity.
Defined.

End Runs.
